(** * OpenDataMCP providers: validated request/response contracts

    A shallow embedding of the five provider modules under
    [src/odmcp/providers/] (EV charging, public transit, SBB open data,
    historical emissions, people search) together with the parts of
    Python, pydantic and httpx they rely on, followed by the properties of
    the natural-language specification that were checked against them.

    Conventions.
    - Python values that cross the tool-call boundary or come back from
      [response.json()] are JSON values ([json]); a Python [dict] with
      string keys is a [gmap string json].
    - Python [str] is modelled by its UTF-8 encoding ([string] is a list
      of bytes).
    - A Python [float] is a double and is carried by the rational it
      denotes; an integer or a numeric string that becomes a float is
      rounded to the nearest double. Infinities and NaN are not modelled.
    - Code that can raise returns in the monad [M], which threads the
      outside world (scripted upstream replies, the log of requests sent,
      the error log, standard output). *)

From Stdlib Require Import ZArith QArith Ascii String.
From stdpp Require Import base tactics option list strings gmap pretty.

Set Warnings "-register-all".
Set Default Proof Using "Type".

(** ** Python values *)

Inductive json : Type :=
  | JNull
  | JBool (b : bool)
  | JInt (z : Z)
  | JFloat (q : Q)
  | JStr (s : string)
  | JArr (l : list json)
  | JObj (o : gmap string json).

(** Python truth value testing, as used by [while endpoint:] and
    [arguments or {}]. *)
Definition truthy (v : json) : bool :=
  match v with
  | JNull => false
  | JBool b => b
  | JInt z => negb (z =? 0)%Z
  | JFloat q => negb (Qnum q =? 0)%Z
  | JStr s => negb (String.eqb s "")
  | JArr l => match l with [] => false | _ => true end
  | JObj o => negb (bool_decide (size o = 0))
  end.

(** [dict.get(key)]: the value, or [None] when the key is absent. *)
Definition dict_get (o : gmap string json) (key : string) : json :=
  default JNull (o !! key).

(** ** Python string helpers *)

(** [s.replace(old, new)] for a one-character [old]. *)
Fixpoint replace (old : ascii) (new : string) (s : string) : string :=
  match s with
  | EmptyString => EmptyString
  | String a s' =>
      if Ascii.eqb a old then new +:+ replace old new s'
      else String a (replace old new s')
  end.

(** [s.rstrip(c)] for a one-character [c]: every trailing [c] goes. *)
Fixpoint rstrip (c : ascii) (s : string) : string :=
  match s with
  | EmptyString => EmptyString
  | String a s' =>
      match rstrip c s' with
      | EmptyString => if Ascii.eqb a c then EmptyString else String a EmptyString
      | r => String a r
      end
  end.

(** [str(n)] for an [int]. *)
Definition str_int (z : Z) : string := pretty z.

(** [str(x)] inside an f-string for an optional string: [None] prints as
    the four letters [None]. *)
Definition fmt_opt_str (o : option string) : string :=
  match o with
  | Some s => s
  | None => "None"
  end.

(** ** Numeric strings accepted by pydantic's lax mode *)

Definition is_space (a : ascii) : bool :=
  let n := nat_of_ascii a in
  (n =? 32)%nat || ((9 <=? n)%nat && (n <=? 13)%nat).

(** The white space that is trimmed before a number is parsed is
    Unicode's: besides the ASCII characters above, U+0085, U+00A0,
    U+1680, U+2000..U+200A, U+2028, U+2029, U+202F, U+205F and U+3000,
    met here in their UTF-8 encoding. *)
Definition is_space2 (a b : ascii) : bool :=
  let '(m, n) := (nat_of_ascii a, nat_of_ascii b) in
  (m =? 194)%nat && ((n =? 133)%nat || (n =? 160)%nat).

Definition is_space3 (a b c : ascii) : bool :=
  let '(l, m, n) := (nat_of_ascii a, nat_of_ascii b, nat_of_ascii c) in
  ((l =? 225)%nat && (m =? 154)%nat && (n =? 128)%nat) ||
  ((l =? 226)%nat && (m =? 128)%nat &&
     (((128 <=? n)%nat && (n <=? 138)%nat) ||
      (n =? 168)%nat || (n =? 169)%nat || (n =? 175)%nat)) ||
  ((l =? 226)%nat && (m =? 129)%nat && (n =? 159)%nat) ||
  ((l =? 227)%nat && (m =? 128)%nat && (n =? 128)%nat).

Fixpoint lstrip_ws (s : string) : string :=
  match s with
  | String a s1 =>
      if is_space a then lstrip_ws s1
      else
        match s1 with
        | String b s2 =>
            if is_space2 a b then lstrip_ws s2
            else
              match s2 with
              | String c s3 => if is_space3 a b c then lstrip_ws s3 else s
              | EmptyString => s
              end
        | EmptyString => s
        end
  | EmptyString => EmptyString
  end.

(** A suffix is dropped when it is white space from end to end. *)
Fixpoint rstrip_ws (s : string) : string :=
  match s with
  | EmptyString => EmptyString
  | String a s' =>
      if String.eqb (lstrip_ws s) "" then EmptyString else String a (rstrip_ws s')
  end.

Definition strip_ws (s : string) : string := rstrip_ws (lstrip_ws s).

Definition digit_val (a : ascii) : option Z :=
  let n := nat_of_ascii a in
  if (48 <=? n)%nat && (n <=? 57)%nat then Some (Z.of_nat (n - 48)) else None.

(** Reads [D (_? D)*] from the front; returns the value, the number of
    digits read and the rest of the string. *)
Fixpoint read_digits (underscores : bool) (acc : Z) (count : nat) (s : string)
  : Z * nat * string :=
  match s with
  | String a s' =>
      match digit_val a with
      | Some d => read_digits underscores (acc * 10 + d)%Z (S count) s'
      | None =>
          if underscores && Ascii.eqb a "_" && (0 <? count)%nat then
            match s' with
            | String b _ =>
                if bool_decide (is_Some (digit_val b))
                then read_digits underscores acc count s'
                else (acc, count, s)
            | EmptyString => (acc, count, s)
            end
          else (acc, count, s)
      end
  | EmptyString => (acc, count, s)
  end.

Definition read_sign (s : string) : Z * string :=
  match s with
  | String a s' =>
      if Ascii.eqb a "-" then ((-1)%Z, s')
      else if Ascii.eqb a "+" then (1%Z, s')
      else (1%Z, s)
  | EmptyString => (1%Z, s)
  end.

Fixpoint all_zeros (s : string) : bool :=
  match s with
  | EmptyString => true
  | String a s' => Ascii.eqb a "0" && all_zeros s'
  end.

(** [int] from [str]: surrounding whitespace, an optional sign, decimal
    digits (single underscores between digits allowed) and an optional
    fractional part made of one or more zeros. *)
Definition str_as_int (s : string) : option Z :=
  let '(sign, body) := read_sign (strip_ws s) in
  let '(n, count, rest) := read_digits true 0 0 body in
  if (count =? 0)%nat then None
  else match rest with
       | EmptyString => Some (sign * n)%Z
       | String a frac =>
           if Ascii.eqb a "." && negb (String.eqb frac "") && all_zeros frac
           then Some (sign * n)%Z else None
       end.

Definition pow10 (n : nat) : Z := (10 ^ Z.of_nat n)%Z.

Definition scale10 (q : Q) (e : Z) : Q :=
  if (0 <=? e)%Z then (q * inject_Z (10 ^ e))%Q
  else (q / inject_Z (10 ^ (- e)))%Q.

(** ** binary64

    A Python [float] is a double; it is carried by the rational it
    denotes. *)

(** [n / d] rounded to the nearest integer, ties to even ([0 < d]). *)
Definition round_half_even (n d : Z) : Z :=
  let q := (n / d)%Z in
  let r := (n mod d)%Z in
  if (2 * r <? d)%Z then q
  else if (d <? 2 * r)%Z then (q + 1)%Z
  else if Z.even q then q else (q + 1)%Z.

(** The double nearest to a rational, ties to even; [None] when the
    rational lies beyond the largest double. *)
Definition nearest_double (x : Q) : option Q :=
  let n := Z.abs (Qnum x) in
  let d := Zpos (Qden x) in
  if (n =? 0)%Z then Some 0%Q
  else
    let k := (Z.log2 n - Z.log2 d)%Z in
    let below := if (0 <=? k)%Z then (n <? 2 ^ k * d)%Z else (n * 2 ^ (- k) <? d)%Z in
    let e := Z.max (if below then k - 1 else k) (-1022) in
    let s := (e - 52)%Z in
    let m := if (0 <=? s)%Z then round_half_even n (d * 2 ^ s)
             else round_half_even (n * 2 ^ (- s)) d in
    if (0 <=? s)%Z && (2 ^ 1024 <=? m * 2 ^ s)%Z then None
    else
      let r := if (0 <=? s)%Z then inject_Z (m * 2 ^ s)
               else Qmake m (Z.to_pos (2 ^ (- s))) in
      Some (Qred (if (Qnum x <? 0)%Z then - r else r)%Q).

(** [float] from [str]: surrounding whitespace, an optional sign, digits
    with an optional fraction and an optional decimal exponent (single
    underscores between digits allowed), rounded to the nearest double. *)
Definition str_as_float (s : string) : option Q :=
  let '(sign, body) := read_sign (strip_ws s) in
  let '(ip, ic, rest) := read_digits true 0 0 body in
  let '(fp, fc, rest) :=
    match rest with
    | String a rest' =>
        if Ascii.eqb a "." then read_digits true 0 0 rest' else (0%Z, 0%nat, rest)
    | EmptyString => (0%Z, 0%nat, rest)
    end in
  if (ic + fc =? 0)%nat then None
  else
    let mant := (inject_Z sign * (inject_Z ip + inject_Z fp / inject_Z (pow10 fc)))%Q in
    match rest with
    | EmptyString => nearest_double mant
    | String a rest' =>
        if Ascii.eqb a "e" || Ascii.eqb a "E" then
          let '(esign, ebody) := read_sign rest' in
          let '(ev, ec, erest) := read_digits true 0 0 ebody in
          if (0 <? ec)%nat && String.eqb erest "" then nearest_double (scale10 mant (esign * ev))
          else None
        else None
    end.

Fixpoint lower (s : string) : string :=
  match s with
  | EmptyString => EmptyString
  | String a s' =>
      let n := nat_of_ascii a in
      String (if (65 <=? n)%nat && (n <=? 90)%nat then ascii_of_nat (n + 32) else a)
             (lower s')
  end.

(** [bool] from [str], case-insensitively. *)
Definition str_as_bool (s : string) : option bool :=
  let l := lower s in
  if bool_decide (l ∈ ["1"; "on"; "t"; "true"; "y"; "yes"]) then Some true
  else if bool_decide (l ∈ ["0"; "off"; "f"; "false"; "n"; "no"]) then Some false
  else None.

(** ** pydantic: validation results and field validators

    Model construction collects one [ErrorDetails] per offending input
    location and raises a single [ValidationError] carrying all of them;
    an object is produced only when no field failed. *)

Inductive loc_item :=
  | LField (name : string)
  | LIndex (i : nat).

Inductive error_type :=
  | missing
  | string_type
  | int_type
  | int_parsing
  | int_from_float
  | int_parsing_size
  | float_type
  | float_parsing
  | bool_type
  | bool_parsing
  | list_type
  | model_type
  | dict_type
  | greater_than_equal (bound : Z)
  | less_than_equal (bound : Z).

Record ErrorDetails := { err_loc : list loc_item; err_type : error_type }.

Inductive V (A : Type) : Type :=
  | Invalid (errors : list ErrorDetails)
  | Valid (a : A).
Arguments Invalid {A} errors.
Arguments Valid {A} a.

#[global] Instance V_fmap : FMap V := λ A B f v,
  match v with
  | Valid a => Valid (f a)
  | Invalid e => Invalid e
  end.

(** Applicative combination: errors of both sides are kept, in field
    order. *)
Definition v_ap {A B} (f : V (A → B)) (x : V A) : V B :=
  match f, x with
  | Valid g, Valid a => Valid (g a)
  | Valid _, Invalid e => Invalid e
  | Invalid e, Valid _ => Invalid e
  | Invalid e1, Invalid e2 => Invalid (e1 ++ e2)
  end.
Infix "<*>" := v_ap (at level 61, left associativity).

Definition v_bind {A B} (v : V A) (f : A → V B) : V B :=
  match v with
  | Valid a => f a
  | Invalid e => Invalid e
  end.

Definition fail_with {A} (t : error_type) : V A :=
  Invalid [ {| err_loc := []; err_type := t |} ].

Definition at_loc {A} (l : loc_item) (v : V A) : V A :=
  match v with
  | Valid a => Valid a
  | Invalid errs =>
      Invalid ((λ e, {| err_loc := l :: err_loc e; err_type := err_type e |}) <$> errs)
  end.

Definition validator (A : Type) : Type := json → V A.

(** A float as an integer: it must have no fractional part and lie
    strictly between [-2^63] and [2^63]. *)
Definition float_as_int (q : Q) : V Z :=
  if (Qnum q mod Zpos (Qden q) =? 0)%Z then
    let z := (Qnum q / Zpos (Qden q))%Z in
    if (- 2 ^ 63 <? z)%Z && (z <? 2 ^ 63)%Z then Valid z else fail_with int_parsing_size
  else fail_with int_from_float.

(** [str]: only a string is a string. *)
Definition v_str : validator string := λ j,
  match j with
  | JStr s => Valid s
  | _ => fail_with string_type
  end.

(** [int]: lax mode also takes booleans, integral floats and numeric
    strings of at most 4300 characters. *)
Definition v_int : validator Z := λ j,
  match j with
  | JInt z => Valid z
  | JBool b => Valid (if b then 1 else 0)%Z
  | JFloat q => float_as_int q
  | JStr s =>
      if (4300 <? Z.of_nat (String.length (strip_ws s)))%Z
      then fail_with int_parsing_size
      else from_option Valid (fail_with int_parsing) (str_as_int s)
  | _ => fail_with int_type
  end.

(** [float]: lax mode also takes integers (converted to the nearest
    double), booleans and numeric strings. *)
Definition v_float : validator Q := λ j,
  match j with
  | JFloat q => Valid q
  | JInt z => from_option Valid (fail_with float_type) (nearest_double (inject_Z z))
  | JBool b => Valid (inject_Z (if b then 1 else 0))
  | JStr s => from_option Valid (fail_with float_parsing) (str_as_float s)
  | _ => fail_with float_type
  end.

(** [bool]: lax mode also takes 0/1, as an integer or as a float, and
    the usual yes/no words. An integer that does not fit 64 bits and a
    float that is no 64-bit integer are a type error; another integer is
    a parsing error. *)
Definition int_as_bool (z : Z) : V bool :=
  if (z =? 0)%Z then Valid false
  else if (z =? 1)%Z then Valid true
  else fail_with bool_parsing.

Definition v_bool : validator bool := λ j,
  match j with
  | JBool b => Valid b
  | JInt z =>
      if (- 2 ^ 63 <=? z)%Z && (z <? 2 ^ 63)%Z then int_as_bool z
      else fail_with bool_type
  | JFloat q =>
      match float_as_int q with
      | Valid z => int_as_bool z
      | Invalid _ => fail_with bool_type
      end
  | JStr s => from_option Valid (fail_with bool_parsing) (str_as_bool s)
  | _ => fail_with bool_type
  end.

(** [Field(ge=lo)] and [Field(le=hi)] on an [int]. *)
Definition ge (lo : Z) (v : validator Z) : validator Z := λ j,
  v_bind (v j) (λ z, if (lo <=? z)%Z then Valid z else fail_with (greater_than_equal lo)).

Definition le (hi : Z) (v : validator Z) : validator Z := λ j,
  v_bind (v j) (λ z, if (z <=? hi)%Z then Valid z else fail_with (less_than_equal hi)).

(** [Optional[T]]. *)
Definition v_optional {A} (v : validator A) : validator (option A) := λ j,
  match j with
  | JNull => Valid None
  | _ => Some <$> v j
  end.

Fixpoint v_items {A} (v : validator A) (i : nat) (l : list json) : V (list A) :=
  match l with
  | [] => Valid []
  | j :: l' => cons <$> at_loc (LIndex i) (v j) <*> v_items v (S i) l'
  end.

(** [List[T]]: a JSON array whose items all validate. *)
Definition v_list {A} (v : validator A) : validator (list A) := λ j,
  match j with
  | JArr l => v_items v 0 l
  | _ => fail_with list_type
  end.

(** A field typed by another model: a dictionary validated by it. *)
Definition v_model {A} (fields : gmap string json → V A) : validator A := λ j,
  match j with
  | JObj o => fields o
  | _ => fail_with model_type
  end.

(** [name: T = Field(...)]: the key must be present. *)
Definition required {A} (alias : string) (v : validator A)
    (kw : gmap string json) : V A :=
  match kw !! alias with
  | Some j => at_loc (LField alias) (v j)
  | None => Invalid [ {| err_loc := [LField alias]; err_type := missing |} ]
  end.

(** [name: T = Field(d, ...)]: an absent key takes the default, which is
    not validated. *)
Definition with_default {A} (alias : string) (v : validator A) (d : A)
    (kw : gmap string json) : V A :=
  match kw !! alias with
  | Some j => at_loc (LField alias) (v j)
  | None => Valid d
  end.

(** ** Exceptions and the outside world *)

Inductive exn :=
  | TypeError
  | ValidationError (title : string) (errors : list ErrorDetails)
  | HTTPStatusError (status : Z)
  | JSONDecodeError
  | ConnectError.

Inductive Exc (A : Type) : Type :=
  | Raise (e : exn)
  | Return (a : A).
Arguments Raise {A} e.
Arguments Return {A} a.

Inductive http_method := GET | POST.

(** What the provider hands to [httpx.get] / [httpx.post]. *)
Record Request := {
  method : http_method;
  url : string;
  params : list (string * json);
  headers : list (string * string);
  content : option string
}.

(** What comes back: the status line and the body as [response.json()]
    would decode it ([None] when the body is not JSON). *)
Record Response := {
  status_code : Z;
  body : option json
}.

Inductive reply :=
  | Reply (r : Response)
  | NoReply.

(** The upstream is a script of replies, consumed one per request in
    order; when the script is exhausted the transport fails. *)
Record World := {
  upstream : list reply;
  sent : list Request;
  error_log : list (string * exn);
  stdout : list string
}.

Definition M (A : Type) : Type := World → Exc A * World.

#[global] Instance M_ret : MRet M := λ A a w, (Return a, w).
#[global] Instance M_bind : MBind M := λ A B f m w,
  match m w with
  | (Return a, w') => f a w'
  | (Raise e, w') => (Raise e, w')
  end.

Definition raise {A} (e : exn) : M A := λ w, (Raise e, w).

Definition lift {A} (x : Exc A) : M A := λ w, (x, w).

(** [try: body except Exception as e: log.error(f"{prefix}: {e}"); raise] *)
Definition try_log {A} (prefix : string) (body : M A) : M A := λ w,
  match body w with
  | (Raise e, w') =>
      (Raise e, {| upstream := upstream w'; sent := sent w';
                   error_log := error_log w' ++ [(prefix, e)];
                   stdout := stdout w' |})
  | r => r
  end.

Definition print (line : string) : M unit := λ w,
  (Return tt, {| upstream := upstream w; sent := sent w;
                 error_log := error_log w; stdout := stdout w ++ [line] |}).

(** One round trip: the request is recorded, the next scripted reply is
    consumed. *)
Definition send (req : Request) : M Response := λ w,
  let log := sent w ++ [req] in
  match upstream w with
  | Reply r :: rest =>
      (Return r, {| upstream := rest; sent := log;
                    error_log := error_log w; stdout := stdout w |})
  | NoReply :: rest =>
      (Raise ConnectError, {| upstream := rest; sent := log;
                              error_log := error_log w; stdout := stdout w |})
  | [] =>
      (Raise ConnectError, {| upstream := []; sent := log;
                              error_log := error_log w; stdout := stdout w |})
  end.

(** [httpx.get(url)] and [httpx.get(url, params=...)]. The call is
    recorded with the URL as the provider built it; what httpx makes of
    that URL before the request leaves is described by [httpx_url]. *)
Definition httpx_get (endpoint : string) (query : list (string * json)) : M Response :=
  send {| method := GET; url := endpoint; params := query;
          headers := []; content := None |}.

(** [httpx.post(url, headers=...)]: a header whose value is [None] is not
    a valid header and the call raises before anything is sent. *)
Definition httpx_post (endpoint : string) (hdrs : list (string * option string))
  : M Response :=
  match mapM (λ h, pair h.1 <$> h.2) hdrs with
  | Some hs =>
      send {| method := POST; url := endpoint; params := [];
              headers := hs; content := None |}
  | None => raise TypeError
  end.

(** [response.raise_for_status()]: anything but 2xx raises. *)
Definition raise_for_status (r : Response) : M unit :=
  if (200 <=? status_code r)%Z && (status_code r <? 300)%Z then mret tt
  else raise (HTTPStatusError (status_code r)).

(** [response.json()]. *)
Definition response_json (r : Response) : M json :=
  match body r with
  | Some j => mret j
  | None => raise JSONDecodeError
  end.

(** Model construction from an unpacked mapping, [Model] applied to
    [**data]: [data] must be a mapping; its entries are validated as
    keyword arguments. *)
Definition construct {A} (title : string) (fields : gmap string json → V A)
    (data : json) : Exc A :=
  match data with
  | JObj kw =>
      match fields kw with
      | Valid a => Return a
      | Invalid errs => Raise (ValidationError title errs)
      end
  | _ => Raise TypeError
  end.

(** [arguments or {}] for [arguments: dict | None]. *)
Definition or_empty (arguments : option (gmap string json)) : json :=
  match arguments with
  | Some kw => if truthy (JObj kw) then JObj kw else JObj ∅
  | None => JObj ∅
  end.

(** [**arguments] without the guard: [None] is not a mapping. *)
Definition as_kwargs (arguments : option (gmap string json)) : json :=
  match arguments with
  | Some kw => JObj kw
  | None => JNull
  end.

(** [mcp.types.TextContent]. *)
Record TextContent := { type : string; text : string }.

(** ** Python [repr] and pydantic's [__str__] / [__repr__] *)

Definition dquote : ascii := "034"%char.
Definition squote : ascii := "'"%char.
Definition backslash : ascii := "\"%char.

Fixpoint contains_char (c : ascii) (s : string) : bool :=
  match s with
  | EmptyString => false
  | String a s' => Ascii.eqb a c || contains_char c s'
  end.

Definition hex_digit (n : nat) : ascii :=
  ascii_of_nat (if (n <? 10)%nat then 48 + n else 87 + n).

Definition escape_char (quote : ascii) (a : ascii) : string :=
  let n := nat_of_ascii a in
  if Ascii.eqb a backslash then String backslash (String backslash EmptyString)
  else if Ascii.eqb a quote then String backslash (String quote EmptyString)
  else if (n =? 10)%nat then String backslash "n"
  else if (n =? 13)%nat then String backslash "r"
  else if (n =? 9)%nat then String backslash "t"
  else if (n <? 32)%nat || (n =? 127)%nat then
    String backslash (String "x" (String (hex_digit (n / 16))
                                         (String (hex_digit (n mod 16)) EmptyString)))
  else String a EmptyString.

(** The two-byte characters that [repr] does not print as they are:
    U+0080..U+00A0 and U+00AD, written [\x80] .. [\xa0] and [\xad]. *)
Definition latin1_unprintable (a b : ascii) : bool :=
  let '(m, n) := (nat_of_ascii a, nat_of_ascii b) in
  (m =? 194)%nat && (((128 <=? n)%nat && (n <=? 160)%nat) || (n =? 173)%nat).

Definition hex_escape (a : ascii) : string :=
  let n := nat_of_ascii a in
  String backslash (String "x" (String (hex_digit (n / 16))
                                       (String (hex_digit (n mod 16)) EmptyString))).

Fixpoint escape (quote : ascii) (s : string) : string :=
  match s with
  | EmptyString => EmptyString
  | String a s' =>
      match s' with
      | String b s'' =>
          if latin1_unprintable a b then hex_escape b +:+ escape quote s''
          else escape_char quote a +:+ escape quote s'
      | EmptyString => escape_char quote a
      end
  end.

(** [repr(s)] for a [str]: single quotes unless the text has a single
    quote and no double quote. Characters up to U+00FF are escaped as
    Python does; the bytes of characters beyond are kept as they are. *)
Definition repr_str (s : string) : string :=
  let quote :=
    if contains_char squote s && negb (contains_char dquote s) then dquote else squote in
  String quote (escape quote s +:+ String quote EmptyString).

Definition repr_int (z : Z) : string := pretty z.

Definition repr_option {A} (r : A → string) (o : option A) : string :=
  match o with
  | Some a => r a
  | None => "None"
  end.

Fixpoint join (sep : string) (l : list string) : string :=
  match l with
  | [] => EmptyString
  | [x] => x
  | x :: l' => x +:+ sep +:+ join sep l'
  end.

Definition repr_list {A} (r : A → string) (l : list A) : string :=
  "[" +:+ join ", " (r <$> l) +:+ "]".

Definition repr_args (sep : string) (args : list (string * string)) : string :=
  join sep ((λ a, a.1 +:+ "=" +:+ a.2) <$> args).

(** [repr(model)] is [Name(field=value, ...)], [str(model)] is
    [field=value ...] with spaces. *)
Definition repr_model (name : string) (args : list (string * string)) : string :=
  name +:+ "(" +:+ repr_args ", " args +:+ ")".

Definition str_model (args : list (string * string)) : string :=
  repr_args " " args.

(** * The providers *)

(** ** [glob_emissions.py]: historical emissions (Climate Watch) *)

Module glob_emissions.

Definition BASE_URL : string :=
  "https://www.climatewatchdata.org/api/v1/data/historical_emissions?regions=EUU&".

Record EndpointParams := {
  start_year : option string;
  end_year : option string
}.

Definition EndpointParams_fields (kw : gmap string json) : V EndpointParams :=
  Build_EndpointParams
    <$> with_default "start_year" (v_optional v_str) None kw
    <*> with_default "end_year" (v_optional v_str) None kw.

Record YearlyEmissions := {
  year : Z;
  value : Q
}.

Definition YearlyEmissions_fields (kw : gmap string json) : V YearlyEmissions :=
  Build_YearlyEmissions
    <$> required "year" v_int kw
    <*> required "value" v_float kw.

Record EndpointResult := {
  id : Z;
  iso_code3 : string;
  country : string;
  data_source : string;
  sector : string;
  gas : string;
  unit : string;
  emissions : list YearlyEmissions
}.

Definition EndpointResult_fields (kw : gmap string json) : V EndpointResult :=
  Build_EndpointResult
    <$> required "id" v_int kw
    <*> required "iso_code3" v_str kw
    <*> required "country" v_str kw
    <*> required "data_source" v_str kw
    <*> required "sector" v_str kw
    <*> required "gas" v_str kw
    <*> required "unit" v_str kw
    <*> required "emissions" (v_list (v_model YearlyEmissions_fields)) kw.

Record EndpointResponse := {
  data : list EndpointResult
}.

Definition EndpointResponse_fields (kw : gmap string json) : V EndpointResponse :=
  Build_EndpointResponse
    <$> required "data" (v_list (v_model EndpointResult_fields)) kw.

(** Iterating a model ([BaseModel.__iter__]) yields one
    [(field name, value)] pair per field; this is what
    [all_data.extend(model)] appends. *)
Definition EndpointResponse_iter (r : EndpointResponse)
  : list (string * list EndpointResult) :=
  [("data", data r)].

(** The request line built before the loop. *)
Definition first_endpoint (params : option EndpointParams) : string :=
  let endpoint := BASE_URL in
  match params with
  | Some p =>
      let endpoint := endpoint +:+ "&" in
      let endpoint :=
        match start_year p with
        | Some y => if truthy (JStr y) then endpoint +:+ "start_year=" +:+ y +:+ "&"
                    else endpoint
        | None => endpoint
        end in
      let endpoint :=
        match end_year p with
        | Some y => if truthy (JStr y) then endpoint +:+ "end_year=" +:+ y +:+ "&"
                    else endpoint
        | None => endpoint
        end in
      rstrip "&" endpoint
  | None => endpoint
  end.

(** One turn of the [while endpoint:] body: fetch the page, validate
    it, extend [all_data], read the next cursor. *)
Definition fetch_page (endpoint : json)
    (all_data : list (string * list EndpointResult))
  : M (list (string * list EndpointResult) * json) :=
  response ← match endpoint with
             | JStr u => httpx_get u []
             | _ => raise TypeError
             end;
  raise_for_status response;;
  data ← response_json response;
  page ← lift (construct "EndpointResponse" EndpointResponse_fields data);
  let all_data := all_data ++ EndpointResponse_iter page in
  let endpoint := match data with
                  | JObj o => dict_get o "next"
                  | _ => JNull
                  end in
  mret (all_data, endpoint).

(** The [while] loop; [None] means the fuel ran out before the loop
    condition became false. *)
Fixpoint fetch_pages (fuel : nat) (endpoint : json)
    (all_data : list (string * list EndpointResult)) (w : World)
  : option (Exc (list (string * list EndpointResult)) * World) :=
  match fuel with
  | O => None
  | S fuel' =>
      if truthy endpoint then
        match fetch_page endpoint all_data w with
        | (Return (all_data', endpoint'), w') => fetch_pages fuel' endpoint' all_data' w'
        | (Raise e, w') => Some (Raise e, w')
        end
      else Some (Return all_data, w)
  end.

Definition fetch_endpoint_data (fuel : nat) (params : option EndpointParams) (w : World)
  : option (Exc (list (string * list EndpointResult)) * World) :=
  match fetch_pages fuel (JStr (first_endpoint params)) [] w with
  | Some (Return all_data, w') =>
      Some ((print (str_int (Z.of_nat (length all_data)));; mret all_data) w')
  | r => r
  end.

End glob_emissions.

(** ** [ch_sbb.py]: Swiss Federal Railways open data *)

Module ch_sbb.
Section rail_traffic_information.

(** [datetime.datetime] and pydantic's validator for it come from
    outside the repository and are taken as given. *)
Context {datetime : Type}.
Variable v_datetime : validator datetime.
Variable repr_datetime : datetime → string.

Definition BASE_URL : string := "https://data.sbb.ch/api/explore/v2.1".

Record TrafficInfoParams := {
  select : option string;
  where_ : option string;
  group_by : option string;
  order_by : option string;
  limit : Z;
  offset : Z;
  refine_ : option string;
  exclude : option string;
  lang : option string;
  timezone : string;
  include_links : bool;
  include_app_metas : bool
}.

Definition TrafficInfoParams_fields (kw : gmap string json) : V TrafficInfoParams :=
  Build_TrafficInfoParams
    <$> with_default "select" (v_optional v_str) None kw
    <*> with_default "where" (v_optional v_str) None kw
    <*> with_default "group_by" (v_optional v_str) None kw
    <*> with_default "order_by" (v_optional v_str) None kw
    <*> with_default "limit" (ge 1 (le 100 v_int)) 10%Z kw
    <*> with_default "offset" (ge 0 v_int) 0%Z kw
    <*> with_default "refine" (v_optional v_str) None kw
    <*> with_default "exclude" (v_optional v_str) None kw
    <*> with_default "lang" (v_optional v_str) None kw
    <*> with_default "timezone" v_str "UTC" kw
    <*> with_default "include_links" v_bool false kw
    <*> with_default "include_app_metas" v_bool false kw.

Definition dump_opt (key : string) (o : option string) : list (string * json) :=
  match o with
  | Some s => [(key, JStr s)]
  | None => []
  end.

(** [params.model_dump(exclude_none=True)], in field order. *)
Definition TrafficInfoParams_model_dump_exclude_none (p : TrafficInfoParams)
  : list (string * json) :=
  dump_opt "select" (select p) ++
  dump_opt "where" (where_ p) ++
  dump_opt "group_by" (group_by p) ++
  dump_opt "order_by" (order_by p) ++
  [("limit", JInt (limit p)); ("offset", JInt (offset p))] ++
  dump_opt "refine" (refine_ p) ++
  dump_opt "exclude" (exclude p) ++
  dump_opt "lang" (lang p) ++
  [("timezone", JStr (timezone p));
   ("include_links", JBool (include_links p));
   ("include_app_metas", JBool (include_app_metas p))].

Record TrafficInfoResult := {
  title : string;
  link : string;
  description : string;
  published : datetime;
  author : string;
  validitybegin : datetime;
  validityend : datetime;
  description_html : string
}.

Definition TrafficInfoResult_fields (kw : gmap string json) : V TrafficInfoResult :=
  Build_TrafficInfoResult
    <$> required "title" v_str kw
    <*> required "link" v_str kw
    <*> required "description" v_str kw
    <*> required "published" v_datetime kw
    <*> required "author" v_str kw
    <*> required "validitybegin" v_datetime kw
    <*> required "validityend" v_datetime kw
    <*> required "description_html" v_str kw.

Definition TrafficInfoResult_repr (r : TrafficInfoResult) : string :=
  repr_model "TrafficInfoResult"
    [("title", repr_str (title r));
     ("link", repr_str (link r));
     ("description", repr_str (description r));
     ("published", repr_datetime (published r));
     ("author", repr_str (author r));
     ("validitybegin", repr_datetime (validitybegin r));
     ("validityend", repr_datetime (validityend r));
     ("description_html", repr_str (description_html r))].

Record TrafficInfoResponse := {
  total_count : Z;
  results : list TrafficInfoResult
}.

Definition TrafficInfoResponse_fields (kw : gmap string json) : V TrafficInfoResponse :=
  Build_TrafficInfoResponse
    <$> required "total_count" v_int kw
    <*> required "results" (v_list (v_model TrafficInfoResult_fields)) kw.

Definition TrafficInfoResponse_str (r : TrafficInfoResponse) : string :=
  str_model
    [("total_count", repr_int (total_count r));
     ("results", repr_list TrafficInfoResult_repr (results r))].

Definition fetch_rail_traffic_info (params : TrafficInfoParams) : M TrafficInfoResponse :=
  let endpoint := BASE_URL +:+ "/catalog/datasets/rail-traffic-information/records" in
  response ← httpx_get endpoint (TrafficInfoParams_model_dump_exclude_none params);
  raise_for_status response;;
  data ← response_json response;
  lift (construct "TrafficInfoResponse" TrafficInfoResponse_fields data).

(** The arguments are unpacked as they come: there is no [or {}] here. *)
Definition handle_rail_traffic_info (arguments : option (gmap string json))
  : M (list TextContent) :=
  try_log "Error fetching rail traffic info"
    (params ← lift (construct "TrafficInfoParams" TrafficInfoParams_fields
                      (as_kwargs arguments));
     traffic_info_response ← fetch_rail_traffic_info params;
     mret [ {| type := "text"; text := TrafficInfoResponse_str traffic_info_response |} ]).

End rail_traffic_information.
End ch_sbb.

(** ** [ch_public_transit.py]: connections from transport.opendata.ch *)

Module ch_public_transit.

Definition BASE_URL : string := "http://transport.opendata.ch/v1/connections?".

(** [to] is declared [str] with default [None]: an absent key leaves it
    [None], a supplied value must be a string. *)
Record Public_TransitParams := {
  origin : string;
  to : option string
}.

Definition Public_TransitParams_fields (kw : gmap string json) : V Public_TransitParams :=
  Build_Public_TransitParams
    <$> required "origin" v_str kw
    <*> with_default "to" (λ j, Some <$> v_str j) None kw.

Record Location := {
  Location_id : string;
  Location_name : string
}.

Definition Location_fields (kw : gmap string json) : V Location :=
  Build_Location
    <$> required "id" v_str kw
    <*> required "name" v_str kw.

Definition Location_repr (x : Location) : string :=
  repr_model "Location"
    [("id", repr_str (Location_id x)); ("name", repr_str (Location_name x))].

Record Stop := {
  Stop_station : Location;
  Stop_arrival : option string;
  Stop_departure : option string;
  Stop_delay : option Z
}.

Definition Stop_fields (kw : gmap string json) : V Stop :=
  Build_Stop
    <$> required "station" (v_model Location_fields) kw
    <*> with_default "arrival" (v_optional v_str) None kw
    <*> with_default "departure" (v_optional v_str) None kw
    <*> with_default "delay" (v_optional v_int) None kw.

Definition Stop_repr (x : Stop) : string :=
  repr_model "Stop"
    [("station", Location_repr (Stop_station x));
     ("arrival", repr_option repr_str (Stop_arrival x));
     ("departure", repr_option repr_str (Stop_departure x));
     ("delay", repr_option repr_int (Stop_delay x))].

Record Departure := {
  Departure_station : Location;
  Departure_departure : string;
  Departure_platform : string
}.

Definition Departure_fields (kw : gmap string json) : V Departure :=
  Build_Departure
    <$> required "station" (v_model Location_fields) kw
    <*> required "departure" v_str kw
    <*> required "platform" v_str kw.

Definition Departure_repr (x : Departure) : string :=
  repr_model "Departure"
    [("station", Location_repr (Departure_station x));
     ("departure", repr_str (Departure_departure x));
     ("platform", repr_str (Departure_platform x))].

Record Arrival := {
  Arrival_station : Location;
  Arrival_arrival : string;
  Arrival_platform : string
}.

Definition Arrival_fields (kw : gmap string json) : V Arrival :=
  Build_Arrival
    <$> required "station" (v_model Location_fields) kw
    <*> required "arrival" v_str kw
    <*> required "platform" v_str kw.

Definition Arrival_repr (x : Arrival) : string :=
  repr_model "Arrival"
    [("station", Location_repr (Arrival_station x));
     ("arrival", repr_str (Arrival_arrival x));
     ("platform", repr_str (Arrival_platform x))].

Record Route := {
  Route_name : string;
  Route_category : string;
  Route_number : string;
  Route_operator : string;
  Route_to : string;
  Route_passList : list Stop
}.

Definition Route_fields (kw : gmap string json) : V Route :=
  Build_Route
    <$> required "name" v_str kw
    <*> required "category" v_str kw
    <*> required "number" v_str kw
    <*> required "operator" v_str kw
    <*> required "to" v_str kw
    <*> required "passList" (v_list (v_model Stop_fields)) kw.

Definition Route_repr (x : Route) : string :=
  repr_model "Route"
    [("name", repr_str (Route_name x));
     ("category", repr_str (Route_category x));
     ("number", repr_str (Route_number x));
     ("operator", repr_str (Route_operator x));
     ("to", repr_str (Route_to x));
     ("passList", repr_list Stop_repr (Route_passList x))].

Record TransitOption := {
  journey : Route
}.

Definition TransitOption_fields (kw : gmap string json) : V TransitOption :=
  Build_TransitOption
    <$> required "journey" (v_model Route_fields) kw.

Definition TransitOption_repr (x : TransitOption) : string :=
  repr_model "TransitOption" [("journey", Route_repr (journey x))].

(** [start] is populated from the key [from] (its alias), [to] from
    [to]. *)
Record PublicTransitResult := {
  start : Departure;
  Result_to : Arrival;
  duration : string;
  transfers : Z;
  sections : list TransitOption
}.

Definition PublicTransitResult_fields (kw : gmap string json) : V PublicTransitResult :=
  Build_PublicTransitResult
    <$> required "from" (v_model Departure_fields) kw
    <*> required "to" (v_model Arrival_fields) kw
    <*> required "duration" v_str kw
    <*> required "transfers" v_int kw
    <*> required "sections" (v_list (v_model TransitOption_fields)) kw.

Definition PublicTransitResult_repr (x : PublicTransitResult) : string :=
  repr_model "PublicTransitResult"
    [("start", Departure_repr (start x));
     ("to", Arrival_repr (Result_to x));
     ("duration", repr_str (duration x));
     ("transfers", repr_int (transfers x));
     ("sections", repr_list TransitOption_repr (sections x))].

Record Public_TransitResponse := {
  connections : list PublicTransitResult
}.

Definition Public_TransitResponse_fields (kw : gmap string json)
  : V Public_TransitResponse :=
  Build_Public_TransitResponse
    <$> required "connections" (v_list (v_model PublicTransitResult_fields)) kw.

Definition Public_TransitResponse_str (x : Public_TransitResponse) : string :=
  str_model [("connections", repr_list PublicTransitResult_repr (connections x))].

Definition fetch_transit_data (params : Public_TransitParams) : M Public_TransitResponse :=
  let endpoint :=
    BASE_URL +:+ "from=" +:+ origin params +:+ "&to=" +:+ fmt_opt_str (to params) in
  response ← httpx_get endpoint [];
  raise_for_status response;;
  data ← response_json response;
  lift (construct "Public_TransitResponse" Public_TransitResponse_fields data).

Definition handle_transitdata (arguments : option (gmap string json))
  : M (list TextContent) :=
  try_log "Error handling endpoint"
    (params ← lift (construct "Public_TransitParams" Public_TransitParams_fields
                      (or_empty arguments));
     response ← fetch_transit_data params;
     mret [ {| type := "text"; text := Public_TransitResponse_str response |} ]).

End ch_public_transit.

(** ** [glob_personal_data.py]: people search (Apollo) *)

Module glob_personal_data.
Section people_search.

(** [os.getenv("personal_api_key")], read once when the module loads. *)
Variable personal_api_key : option string.

Definition BASE_URL : string := "https://api.apollo.io/api/v1/mixed_people/search".

Definition headers : list (string * option string) :=
  [("accept", Some "application/json");
   ("Cache-Control", Some "no-cache");
   ("Content-Type", Some "application/json");
   ("x-api-key", personal_api_key)].

Record EndpointParams := {
  person_titles : option (list string);
  person_locations : option (list string);
  person_seniorities : option (list string);
  organization_locations : option (list string);
  q_organization_domains : option (list string);
  contact_email_status : option (list string);
  organization_ids : option (list string);
  organization_num_employees_ranges : option (list string);
  q_keywords : option string;
  page : option Z;
  per_page : option Z
}.

Definition EndpointParams_fields (kw : gmap string json) : V EndpointParams :=
  Build_EndpointParams
    <$> with_default "person_titles" (v_optional (v_list v_str)) None kw
    <*> with_default "person_locations" (v_optional (v_list v_str)) None kw
    <*> with_default "person_seniorities" (v_optional (v_list v_str)) None kw
    <*> with_default "organization_locations" (v_optional (v_list v_str)) None kw
    <*> with_default "q_organization_domains" (v_optional (v_list v_str)) None kw
    <*> with_default "contact_email_status" (v_optional (v_list v_str)) None kw
    <*> with_default "organization_ids" (v_optional (v_list v_str)) None kw
    <*> with_default "organization_num_employees_ranges" (v_optional (v_list v_str)) None kw
    <*> with_default "q_keywords" (v_optional v_str) None kw
    <*> with_default "page" (v_optional v_int) (Some 1%Z) kw
    <*> with_default "per_page" (v_optional v_int) None kw.

(** The values a dumped [EndpointParams] can hold. *)
Inductive dumped :=
  | DList (items : list string)
  | DStr (s : string)
  | DInt (z : Z).

Definition dump_field {A} (key : string) (wrap : A → dumped) (o : option A)
  : list (string * dumped) :=
  match o with
  | Some a => [(key, wrap a)]
  | None => []
  end.

(** [params.model_dump(exclude_none=True)], in field order. *)
Definition EndpointParams_model_dump_exclude_none (p : EndpointParams)
  : list (string * dumped) :=
  dump_field "person_titles" DList (person_titles p) ++
  dump_field "person_locations" DList (person_locations p) ++
  dump_field "person_seniorities" DList (person_seniorities p) ++
  dump_field "organization_locations" DList (organization_locations p) ++
  dump_field "q_organization_domains" DList (q_organization_domains p) ++
  dump_field "contact_email_status" DList (contact_email_status p) ++
  dump_field "organization_ids" DList (organization_ids p) ++
  dump_field "organization_num_employees_ranges" DList
    (organization_num_employees_ranges p) ++
  dump_field "q_keywords" DStr (q_keywords p) ++
  dump_field "page" DInt (page p) ++
  dump_field "per_page" DInt (per_page p).

Record OrganizationEntry := {
  created_at : option string;
  current : option bool;
  degree : option string;
  description : option string;
  emails : option string;
  end_date : option string;
  grade_level : option string;
  kind : option string;
  major : option string;
  OrganizationEntry_organization_name : option string;
  start_date : option string;
  OrganizationEntry_title : option string;
  updated_at : option string
}.

Definition OrganizationEntry_fields (kw : gmap string json) : V OrganizationEntry :=
  Build_OrganizationEntry
    <$> with_default "created_at" (v_optional v_str) None kw
    <*> with_default "current" (v_optional v_bool) None kw
    <*> with_default "degree" (v_optional v_str) None kw
    <*> with_default "description" (v_optional v_str) None kw
    <*> with_default "emails" (v_optional v_str) None kw
    <*> with_default "end_date" (v_optional v_str) None kw
    <*> with_default "grade_level" (v_optional v_str) None kw
    <*> with_default "kind" (v_optional v_str) None kw
    <*> with_default "major" (v_optional v_str) None kw
    <*> with_default "organization_name" (v_optional v_str) None kw
    <*> with_default "start_date" (v_optional v_str) None kw
    <*> with_default "title" (v_optional v_str) None kw
    <*> with_default "updated_at" (v_optional v_str) None kw.

Record ContactEmail := {
  ContactEmail_email : option string;
  ContactEmail_email_status : option string
}.

Definition ContactEmail_fields (kw : gmap string json) : V ContactEmail :=
  Build_ContactEmail
    <$> with_default "email" (v_optional v_str) None kw
    <*> with_default "email_status" (v_optional v_str) None kw.

Record PhoneNumbers := {
  sanitized_number : option string;
  status : option string
}.

Definition PhoneNumbers_fields (kw : gmap string json) : V PhoneNumbers :=
  Build_PhoneNumbers
    <$> with_default "sanitized_number" (v_optional v_str) None kw
    <*> with_default "status" (v_optional v_str) None kw.

Record Contact := {
  Contact_name : option string;
  Contact_linkedin_url : option string;
  Contact_organization_name : option string;
  Contact_email : option string;
  email_true_status : option string;
  contact_emails : option (list ContactEmail)
}.

Definition Contact_fields (kw : gmap string json) : V Contact :=
  Build_Contact
    <$> with_default "name" (v_optional v_str) None kw
    <*> with_default "linkedin_url" (v_optional v_str) None kw
    <*> with_default "organization_name" (v_optional v_str) None kw
    <*> with_default "email" (v_optional v_str) None kw
    <*> with_default "email_true_status" (v_optional v_str) None kw
    <*> with_default "contact_emails"
          (v_optional (v_list (v_model ContactEmail_fields))) None kw.

Record TechnologyItem := {
  uid : option string;
  TechnologyItem_name : option string;
  category : option string
}.

Definition TechnologyItem_fields (kw : gmap string json) : V TechnologyItem :=
  Build_TechnologyItem
    <$> with_default "uid" (v_optional v_str) None kw
    <*> with_default "name" (v_optional v_str) None kw
    <*> with_default "category" (v_optional v_str) None kw.

Record Organization := {
  Organization_name : option string;
  website_url : option string;
  Organization_linkedin_url : option string;
  keywords : option (list string);
  estimated_num_employees : option Z;
  Organization_city : option string;
  Organization_state : option string;
  Organization_country : option string;
  annual_revenue : option Z;
  technology_names : option (list string);
  current_technologies : option (list TechnologyItem)
}.

Definition Organization_fields (kw : gmap string json) : V Organization :=
  Build_Organization
    <$> with_default "name" (v_optional v_str) None kw
    <*> with_default "website_url" (v_optional v_str) None kw
    <*> with_default "linkedin_url" (v_optional v_str) None kw
    <*> with_default "keywords" (v_optional (v_list v_str)) None kw
    <*> with_default "estimated_num_employees" (v_optional v_int) None kw
    <*> with_default "city" (v_optional v_str) None kw
    <*> with_default "state" (v_optional v_str) None kw
    <*> with_default "country" (v_optional v_str) None kw
    <*> with_default "annual_revenue" (v_optional v_int) None kw
    <*> with_default "technology_names" (v_optional (v_list v_str)) None kw
    <*> with_default "current_technologies"
          (v_optional (v_list (v_model TechnologyItem_fields))) None kw.

Record EndpointResult := {
  id : option string;
  first_name : option string;
  last_name : option string;
  name : option string;
  linkedin_url : option string;
  title : option string;
  email_status : option string;
  extrapolated_email_confidence : option Q;
  headline : option string;
  email : option string;
  employment_history : option (list OrganizationEntry);
  state : option string;
  city : option string;
  country : option string;
  contact : option Contact;
  organization : option Organization;
  seniority : option string
}.

Definition EndpointResult_fields (kw : gmap string json) : V EndpointResult :=
  Build_EndpointResult
    <$> with_default "id" (v_optional v_str) None kw
    <*> with_default "first_name" (v_optional v_str) None kw
    <*> with_default "last_name" (v_optional v_str) None kw
    <*> with_default "name" (v_optional v_str) None kw
    <*> with_default "linkedin_url" (v_optional v_str) None kw
    <*> with_default "title" (v_optional v_str) None kw
    <*> with_default "email_status" (v_optional v_str) None kw
    <*> with_default "extrapolated_email_confidence" (v_optional v_float) None kw
    <*> with_default "headline" (v_optional v_str) None kw
    <*> with_default "email" (v_optional v_str) None kw
    <*> with_default "employment_history"
          (v_optional (v_list (v_model OrganizationEntry_fields))) None kw
    <*> with_default "state" (v_optional v_str) None kw
    <*> with_default "city" (v_optional v_str) None kw
    <*> with_default "country" (v_optional v_str) None kw
    <*> with_default "contact" (v_optional (v_model Contact_fields)) None kw
    <*> with_default "organization" (v_optional (v_model Organization_fields)) None kw
    <*> with_default "seniority" (v_optional v_str) None kw.

Record EndpointResponse := {
  people : option (list EndpointResult)
}.

Definition EndpointResponse_fields (kw : gmap string json) : V EndpointResponse :=
  Build_EndpointResponse
    <$> required "people" (v_optional (v_list (v_model EndpointResult_fields))) kw.

(** One turn of [for key, value in params_dict.items()]. *)
Definition add_param (query_string : string) (kv : string * dumped) : string :=
  let '(key, value) := kv in
  match value with
  | DList items =>
      fold_left
        (λ query_string item,
           query_string +:+ (key +:+ "[]=" +:+ replace " " "%20" item +:+ "&"))
        items query_string
  | DStr s => query_string +:+ (key +:+ "=" +:+ replace " " "%20" s +:+ "&")
  | DInt z => query_string +:+ (key +:+ "=" +:+ replace " " "%20" (str_int z) +:+ "&")
  end.

(** [query_string] after the loop. *)
Definition query_string (params : EndpointParams) : string :=
  fold_left add_param (EndpointParams_model_dump_exclude_none params) "".

(** [endpoint] as handed to [httpx.post]. *)
Definition endpoint (params : EndpointParams) : string :=
  let endpoint := BASE_URL in
  let query_string := query_string params in
  if truthy (JStr query_string) then endpoint +:+ ("?" +:+ rstrip "&" query_string)
  else endpoint.

Definition fetch_endpoint_data (params : EndpointParams) : M EndpointResponse :=
  response ← httpx_post (endpoint params) headers;
  raise_for_status response;;
  data ← response_json response;
  lift (construct "EndpointResponse" EndpointResponse_fields data).

End people_search.
End glob_personal_data.

(** ** [ch_evcharge.py]: EV charging stations (ich-tanke-strom) *)

Module ch_evcharge.

Definition BASE_URL : string :=
  "http://ich-tanke-strom.switzerlandnorth.cloudapp.azure.com:8080/geoserver/ich-tanke-strom/ows?service=WFS&version=1.0.0&request=GetFeature&typeName=ich-tanke-strom".

Record ChargingStationParams := {
  limit : Z;
  test : string
}.

Definition ChargingStationParams_fields (kw : gmap string json)
  : V ChargingStationParams :=
  Build_ChargingStationParams
    <$> with_default "limit" v_int 3%Z kw
    <*> with_default "test" v_str "&cql_filter=RenewableEnergy=true" kw.

Record Geodata := {
  Geodata_type : string;
  coordinates : list Q
}.

Definition Geodata_fields (kw : gmap string json) : V Geodata :=
  Build_Geodata
    <$> required "type" v_str kw
    <*> required "coordinates" (v_list v_float) kw.

Record AdressProperties := {
  PostalCode : string;
  City : string;
  Street : string;
  Country : string
}.

Definition AdressProperties_fields (kw : gmap string json) : V AdressProperties :=
  Build_AdressProperties
    <$> required "PostalCode" v_str kw
    <*> required "City" v_str kw
    <*> required "Street" v_str kw
    <*> required "Country" v_str kw.

Record CharingFacilites := {
  Power : Z;
  Voltage : Z;
  PowerType : string
}.

Definition CharingFacilites_fields (kw : gmap string json) : V CharingFacilites :=
  Build_CharingFacilites
    <$> required "Power" v_int kw
    <*> required "Voltage" v_int kw
    <*> required "PowerType" v_str kw.

Record StationProperties := {
  featureType : string;
  StationProperties_id : string;
  EvseStatus : string;
  Plugs : string;
  AuthenticationModes : list string;
  AccessibilityLocation : string;
  Address : AdressProperties;
  PaymentOptions : list string;
  RenewableEnergy : bool;
  ChargingFacilities : list CharingFacilites
}.

Definition StationProperties_fields (kw : gmap string json) : V StationProperties :=
  Build_StationProperties
    <$> required "@featureType" v_str kw
    <*> required "_id" v_str kw
    <*> required "EvseStatus" v_str kw
    <*> required "Plugs" v_str kw
    <*> required "AuthenticationModes" (v_list v_str) kw
    <*> required "AccessibilityLocation" v_str kw
    <*> required "Address" (v_model AdressProperties_fields) kw
    <*> required "PaymentOptions" (v_list v_str) kw
    <*> required "RenewableEnergy" v_bool kw
    <*> required "ChargingFacilities" (v_list (v_model CharingFacilites_fields)) kw.

Record CharingStationResult := {
  Result_type : string;
  Result_id : string;
  geometry : Geodata;
  properties : StationProperties
}.

Definition CharingStationResult_fields (kw : gmap string json) : V CharingStationResult :=
  Build_CharingStationResult
    <$> required "type" v_str kw
    <*> required "id" v_str kw
    <*> required "geometry" (v_model Geodata_fields) kw
    <*> required "properties" (v_model StationProperties_fields) kw.

Record CharingStationResponse := {
  Response_type : string;
  features : list CharingStationResult
}.

Definition CharingStationResponse_fields (kw : gmap string json)
  : V CharingStationResponse :=
  Build_CharingStationResponse
    <$> required "type" v_str kw
    <*> required "features" (v_list (v_model CharingStationResult_fields)) kw.

Definition fetch_endpoint_data (params : ChargingStationParams)
  : M CharingStationResponse :=
  let endpoint :=
    BASE_URL +:+ "%3Aevse&maxFeatures=10&outputFormat=application%2Fjson"
             +:+ test params in
  response ← httpx_get endpoint [];
  raise_for_status response;;
  data ← response_json response;
  lift (construct "CharingStationResponse" CharingStationResponse_fields data).

End ch_evcharge.

(** * Reference definitions used to state the properties *)

(** ** JSON that matches the transit response schema exactly

    Each model is written out under the keys the schema reads (aliases
    where declared), each value with the JSON type of its field. A [None]
    is written as [null], or left out when [exclude_none] is set. *)

Module transit_json.
Import ch_public_transit.

Definition entry_opt {A} (exclude_none : bool) (key : string) (to_json : A → json)
    (o : option A) : list (string * json) :=
  match o with
  | Some a => [(key, to_json a)]
  | None => if exclude_none then [] else [(key, JNull)]
  end.

Definition of_Location (x : Location) : json :=
  JObj (list_to_map [("id", JStr (Location_id x)); ("name", JStr (Location_name x))]).

Definition of_Stop (exclude_none : bool) (x : Stop) : json :=
  JObj (list_to_map
          ([("station", of_Location (Stop_station x))] ++
           entry_opt exclude_none "arrival" JStr (Stop_arrival x) ++
           entry_opt exclude_none "departure" JStr (Stop_departure x) ++
           entry_opt exclude_none "delay" JInt (Stop_delay x))).

Definition of_Departure (x : Departure) : json :=
  JObj (list_to_map
          [("station", of_Location (Departure_station x));
           ("departure", JStr (Departure_departure x));
           ("platform", JStr (Departure_platform x))]).

Definition of_Arrival (x : Arrival) : json :=
  JObj (list_to_map
          [("station", of_Location (Arrival_station x));
           ("arrival", JStr (Arrival_arrival x));
           ("platform", JStr (Arrival_platform x))]).

Definition of_Route (exclude_none : bool) (x : Route) : json :=
  JObj (list_to_map
          [("name", JStr (Route_name x));
           ("category", JStr (Route_category x));
           ("number", JStr (Route_number x));
           ("operator", JStr (Route_operator x));
           ("to", JStr (Route_to x));
           ("passList", JArr (of_Stop exclude_none <$> Route_passList x))]).

Definition of_TransitOption (exclude_none : bool) (x : TransitOption) : json :=
  JObj (list_to_map [("journey", of_Route exclude_none (journey x))]).

Definition of_PublicTransitResult (exclude_none : bool) (x : PublicTransitResult) : json :=
  JObj (list_to_map
          [("from", of_Departure (start x));
           ("to", of_Arrival (Result_to x));
           ("duration", JStr (duration x));
           ("transfers", JInt (transfers x));
           ("sections", JArr (of_TransitOption exclude_none <$> sections x))]).

Definition of_Public_TransitResponse (exclude_none : bool) (x : Public_TransitResponse)
  : json :=
  JObj (list_to_map
          [("connections",
            JArr (of_PublicTransitResult exclude_none <$> connections x))]).

(** The keys a connection entry must carry. *)
Definition required_keys : list string :=
  ["from"; "to"; "duration"; "transfers"; "sections"].

End transit_json.

(** ** The list-valued fields of the people-search parameters *)

Module people_fields.
Import glob_personal_data.

Inductive list_field :=
  | f_person_titles
  | f_person_locations
  | f_person_seniorities
  | f_organization_locations
  | f_q_organization_domains
  | f_contact_email_status
  | f_organization_ids
  | f_organization_num_employees_ranges.

#[global] Instance list_field_eq_dec : EqDecision list_field.
Proof. solve_decision. Defined.

Definition key (f : list_field) : string :=
  match f with
  | f_person_titles => "person_titles"
  | f_person_locations => "person_locations"
  | f_person_seniorities => "person_seniorities"
  | f_organization_locations => "organization_locations"
  | f_q_organization_domains => "q_organization_domains"
  | f_contact_email_status => "contact_email_status"
  | f_organization_ids => "organization_ids"
  | f_organization_num_employees_ranges => "organization_num_employees_ranges"
  end.

Definition get (f : list_field) (p : EndpointParams) : option (list string) :=
  match f with
  | f_person_titles => person_titles p
  | f_person_locations => person_locations p
  | f_person_seniorities => person_seniorities p
  | f_organization_locations => organization_locations p
  | f_q_organization_domains => q_organization_domains p
  | f_contact_email_status => contact_email_status p
  | f_organization_ids => organization_ids p
  | f_organization_num_employees_ranges => organization_num_employees_ranges p
  end.

(** The same parameters with field [f] left out ([None]). *)
Definition without (f : list_field) (p : EndpointParams) : EndpointParams :=
  let keep g := if bool_decide (g = f) then None else get g p in
  {| person_titles := keep f_person_titles;
     person_locations := keep f_person_locations;
     person_seniorities := keep f_person_seniorities;
     organization_locations := keep f_organization_locations;
     q_organization_domains := keep f_q_organization_domains;
     contact_email_status := keep f_contact_email_status;
     organization_ids := keep f_organization_ids;
     organization_num_employees_ranges := keep f_organization_num_employees_ranges;
     q_keywords := q_keywords p;
     page := page p;
     per_page := per_page p |}.

Definition all_list_fields : list list_field :=
  [f_person_titles; f_person_locations; f_person_seniorities;
   f_organization_locations; f_q_organization_domains; f_contact_email_status;
   f_organization_ids; f_organization_num_employees_ranges].

(** The keys one list-valued field adds, one per item. *)
Definition keys_of (f : list_field) (items : list string) : list string :=
  (λ item, key f +:+ "[]=" +:+ replace " " "%20" item +:+ "&") <$> items.

End people_fields.

(** ** Vocabulary for the statements *)

(** The computation leaves the world as it found it. *)
Definition stateless {A} (m : M A) : Prop := ∀ w, (m w).2 = w.

(** Validation failed, and [e] is among the reported errors. *)
Definition fails_with {A} (e : ErrorDetails) (v : V A) : Prop :=
  ∃ errs, v = Invalid errs ∧ e ∈ errs.

(** Validation failed. *)
Definition is_invalid {A} (v : V A) : Prop := ∃ errs, v = Invalid errs.

(** The world after one more request went out. *)
Definition after_request (req : Request) (w : World) : World :=
  {| upstream := tail (upstream w); sent := sent w ++ [req];
     error_log := error_log w; stdout := stdout w |}.

(** The world after one more line went to the error log. *)
Definition after_error (prefix : string) (e : exn) (w : World) : World :=
  {| upstream := upstream w; sent := sent w;
     error_log := error_log w ++ [(prefix, e)]; stdout := stdout w |}.

(** A plain [GET] of a URL, as [httpx.get(url)] issues it. *)
Definition get_request (u : string) (query : list (string * json)) : Request :=
  {| method := GET; url := u; params := query; headers := []; content := None |}.

(** A successful reply carrying a JSON document. *)
Definition ok_reply (data : json) : reply :=
  Reply {| status_code := 200; body := Some data |}.

(** The declared fields of [TrafficInfoParams], by the key each reads. *)
Definition TrafficInfoParams_names : list string :=
  ["select"; "where"; "group_by"; "order_by"; "limit"; "offset"; "refine";
   "exclude"; "lang"; "timezone"; "include_links"; "include_app_metas"].

(** [TrafficInfoParams()] with no argument. *)
Definition TrafficInfoParams_defaults : ch_sbb.TrafficInfoParams :=
  {| ch_sbb.select := None; ch_sbb.where_ := None; ch_sbb.group_by := None;
     ch_sbb.order_by := None; ch_sbb.limit := 10; ch_sbb.offset := 0;
     ch_sbb.refine_ := None; ch_sbb.exclude := None; ch_sbb.lang := None;
     ch_sbb.timezone := "UTC"; ch_sbb.include_links := false;
     ch_sbb.include_app_metas := false |}.

Definition empty_world : World :=
  {| upstream := []; sent := []; error_log := []; stdout := [] |}.

(** The text has no space character. *)
Definition no_space (s : string) : Prop := contains_char " " s = false.

(** Concatenation of a list of strings. *)
Definition concat_str (l : list string) : string := foldr String.append EmptyString l.

(** The request the people-search fetch sends for [p] when the API key
    is [api_key]. *)
Definition people_request (api_key : string) (p : glob_personal_data.EndpointParams)
  : Request :=
  {| method := POST;
     url := glob_personal_data.endpoint p;
     params := [];
     headers := [("accept", "application/json"); ("Cache-Control", "no-cache");
                 ("Content-Type", "application/json"); ("x-api-key", api_key)];
     content := None |}.

(** [EndpointParams()] of the people search with no argument. *)
Definition people_defaults : glob_personal_data.EndpointParams :=
  {| glob_personal_data.person_titles := None;
     glob_personal_data.person_locations := None;
     glob_personal_data.person_seniorities := None;
     glob_personal_data.organization_locations := None;
     glob_personal_data.q_organization_domains := None;
     glob_personal_data.contact_email_status := None;
     glob_personal_data.organization_ids := None;
     glob_personal_data.organization_num_employees_ranges := None;
     glob_personal_data.q_keywords := None;
     glob_personal_data.page := Some 1%Z;
     glob_personal_data.per_page := None |}.

(** A small well-formed transit reply: one direct connection. *)
Definition sample_connection : ch_public_transit.PublicTransitResult :=
  {| ch_public_transit.start :=
       {| ch_public_transit.Departure_station :=
            {| ch_public_transit.Location_id := "8503000";
               ch_public_transit.Location_name := "Zurich HB" |};
          ch_public_transit.Departure_departure := "2024-05-01T08:00:00+0200";
          ch_public_transit.Departure_platform := "7" |};
     ch_public_transit.Result_to :=
       {| ch_public_transit.Arrival_station :=
            {| ch_public_transit.Location_id := "8500010";
               ch_public_transit.Location_name := "Basel SBB" |};
          ch_public_transit.Arrival_arrival := "2024-05-01T08:53:00+0200";
          ch_public_transit.Arrival_platform := "9" |};
     ch_public_transit.duration := "00d00:53:00";
     ch_public_transit.transfers := 0;
     ch_public_transit.sections := [] |}.

Definition sample_response : ch_public_transit.Public_TransitResponse :=
  {| ch_public_transit.connections := [sample_connection] |}.

(** Three synthetic emissions pages: four result items in all, the first
    two pages carrying a [next] cursor. *)
Definition emissions_result (id : Z) (value : Q) : glob_emissions.EndpointResult :=
  {| glob_emissions.id := id;
     glob_emissions.iso_code3 := "EUU";
     glob_emissions.country := "European Union (27)";
     glob_emissions.data_source := "Climate Watch";
     glob_emissions.sector := "Total including LUCF";
     glob_emissions.gas := "All GHG";
     glob_emissions.unit := "MtCO2e";
     glob_emissions.emissions :=
       [ {| glob_emissions.year := 2009; glob_emissions.value := value |} ] |}.

Definition emissions_item (id : Z) (value : Q) : json :=
  JObj (list_to_map
          [("id", JInt id); ("iso_code3", JStr "EUU");
           ("country", JStr "European Union (27)");
           ("data_source", JStr "Climate Watch");
           ("sector", JStr "Total including LUCF");
           ("gas", JStr "All GHG"); ("unit", JStr "MtCO2e");
           ("emissions",
            JArr [JObj (list_to_map [("year", JInt 2009); ("value", JFloat value)])])]).

Definition page_1 : gmap string json :=
  {[ "data" := JArr [emissions_item 1 (7 # 2); emissions_item 2 (5 # 1)];
     "next" := JStr "https://www.climatewatchdata.org/api/v1/data/historical_emissions?page=2" ]}.

Definition page_2 : gmap string json :=
  {[ "data" := JArr [emissions_item 3 (1 # 4)];
     "next" := JStr "https://www.climatewatchdata.org/api/v1/data/historical_emissions?page=3" ]}.

Definition page_3 : gmap string json :=
  {[ "data" := JArr [emissions_item 4 (9 # 1)] ]}.

Definition three_pages : World :=
  {| upstream := [ok_reply (JObj page_1); ok_reply (JObj page_2); ok_reply (JObj page_3)];
     sent := []; error_log := []; stdout := [] |}.

(** ** Required fields of the transit response, at every depth

    [keyed keys nested j] holds when [j], if it is an object, carries
    every key of [keys] and each nested value listed in [nested] passes
    its own check; values of another JSON type are left to the type
    checks of the validators. *)

Definition has_key (o : gmap string json) (k : string) : bool :=
  match o !! k with
  | Some _ => true
  | None => false
  end.

Definition keyed (keys : list string) (nested : list (string * (json → bool)))
    (j : json) : bool :=
  match j with
  | JObj o =>
      forallb (has_key o) keys &&
      forallb (λ kn, match o !! kn.1 with
                     | Some j' => kn.2 j'
                     | None => true
                     end) nested
  | _ => true
  end.

Definition each (check : json → bool) (j : json) : bool :=
  match j with
  | JArr l => forallb check l
  | _ => true
  end.

Module transit_required.

Definition Location : json → bool := keyed ["id"; "name"] [].

Definition Stop : json → bool := keyed ["station"] [("station", Location)].

Definition Departure : json → bool :=
  keyed ["station"; "departure"; "platform"] [("station", Location)].

Definition Arrival : json → bool :=
  keyed ["station"; "arrival"; "platform"] [("station", Location)].

Definition Route : json → bool :=
  keyed ["name"; "category"; "number"; "operator"; "to"; "passList"]
        [("passList", each Stop)].

Definition TransitOption : json → bool := keyed ["journey"] [("journey", Route)].

Definition PublicTransitResult : json → bool :=
  keyed ["from"; "to"; "duration"; "transfers"; "sections"]
        [("from", Departure); ("to", Arrival); ("sections", each TransitOption)].

Definition Public_TransitResponse : json → bool :=
  keyed ["connections"] [("connections", each PublicTransitResult)].

End transit_required.

(** The sample reply with the name of the departure station removed. *)
Definition sample_without_station_name : gmap string json :=
  {[ "connections" :=
       JArr [JObj (list_to_map
                     [("from",
                       JObj (list_to_map
                               [("station", JObj {[ "id" := JStr "8503000" ]});
                                ("departure", JStr "2024-05-01T08:00:00+0200");
                                ("platform", JStr "7")]));
                      ("to", transit_json.of_Arrival
                               (ch_public_transit.Result_to sample_connection));
                      ("duration", JStr "00d00:53:00");
                      ("transfers", JInt 0);
                      ("sections", JArr [])])] ]}.

(** * The remaining handlers and the railway-lines endpoint *)

(** [repr(b)] for a [bool]. *)
Definition repr_bool (b : bool) : string := if b then "True" else "False".

(** [dict]: any dictionary, kept as it is. *)
Definition v_dict : validator (gmap string json) := λ j,
  match j with
  | JObj o => Valid o
  | _ => fail_with dict_type
  end.

(** [try: ... except Exception as e: log.error(...); raise] around a body
    that may run a loop (no result when the fuel runs out). *)
Definition try_log_fuel {A} (prefix : string) (body : World → option (Exc A * World))
    (w : World) : option (Exc A * World) :=
  match body w with
  | Some (Raise e, w') =>
      Some (Raise e, {| upstream := upstream w'; sent := sent w';
                        error_log := error_log w' ++ [(prefix, e)];
                        stdout := stdout w' |})
  | r => r
  end.

(** ** [glob_emissions.py]: the handler *)

Module glob_emissions_tool.
Section rendering.
Import glob_emissions.

(** [repr] of a [float] is Python's and is taken as given. *)
Variable repr_float : Q → string.

Definition YearlyEmissions_repr (x : YearlyEmissions) : string :=
  repr_model "YearlyEmissions"
    [("year", repr_int (year x)); ("value", repr_float (value x))].

Definition EndpointResult_repr (x : EndpointResult) : string :=
  repr_model "EndpointResult"
    [("id", repr_int (id x));
     ("iso_code3", repr_str (iso_code3 x));
     ("country", repr_str (country x));
     ("data_source", repr_str (data_source x));
     ("sector", repr_str (sector x));
     ("gas", repr_str (gas x));
     ("unit", repr_str (unit x));
     ("emissions", repr_list YearlyEmissions_repr (emissions x))].

(** [repr] of one [(name, value)] tuple of [all_data]. *)
Definition field_pair_repr (x : string * list EndpointResult) : string :=
  "(" +:+ repr_str x.1 +:+ ", " +:+ repr_list EndpointResult_repr x.2 +:+ ")".

Definition handle_endpoint (fuel : nat) (arguments : option (gmap string json))
  : World → option (Exc (list TextContent) * World) :=
  try_log_fuel "Error handling endpoint"
    (λ w,
       match construct "EndpointParams" EndpointParams_fields (or_empty arguments) with
       | Return params =>
           match fetch_endpoint_data fuel (Some params) w with
           | Some (Return response, w') =>
               Some (Return [ {| type := "text";
                                 text := repr_list field_pair_repr response |} ], w')
           | Some (Raise e, w') => Some (Raise e, w')
           | None => None
           end
       | Raise e => Some (Raise e, w)
       end).

End rendering.
End glob_emissions_tool.

(** ** [ch_sbb.py]: railway line information *)

Module ch_sbb_railway.
Section railway_line_information.

Variable repr_float : Q → string.
(** [repr] of a plain [dict] is Python's and is taken as given. *)
Variable repr_dict : gmap string json → string.

Record RailwayLineParams := {
  select : option string;
  where_ : option string;
  group_by : option string;
  order_by : option string;
  limit : Z;
  offset : Z
}.

Definition RailwayLineParams_fields (kw : gmap string json) : V RailwayLineParams :=
  Build_RailwayLineParams
    <$> with_default "select" (v_optional v_str) None kw
    <*> with_default "where" (v_optional v_str) None kw
    <*> with_default "group_by" (v_optional v_str) None kw
    <*> with_default "order_by" (v_optional v_str) None kw
    <*> with_default "limit" (ge 1 (le 100 v_int)) 10%Z kw
    <*> with_default "offset" (ge 0 v_int) 0%Z kw.

(** [params.model_dump(exclude_none=True)], in field order. *)
Definition RailwayLineParams_model_dump_exclude_none (p : RailwayLineParams)
  : list (string * json) :=
  ch_sbb.dump_opt "select" (select p) ++
  ch_sbb.dump_opt "where" (where_ p) ++
  ch_sbb.dump_opt "group_by" (group_by p) ++
  ch_sbb.dump_opt "order_by" (order_by p) ++
  [("limit", JInt (limit p)); ("offset", JInt (offset p))].

Record GeoPoint2D := {
  lon : Q;
  lat : Q
}.

Definition GeoPoint2D_fields (kw : gmap string json) : V GeoPoint2D :=
  Build_GeoPoint2D
    <$> required "lon" v_float kw
    <*> required "lat" v_float kw.

Definition GeoPoint2D_repr (x : GeoPoint2D) : string :=
  repr_model "GeoPoint2D"
    [("lon", repr_float (lon x)); ("lat", repr_float (lat x))].

Record LineGeometry := {
  coordinates : list (list Q);
  LineGeometry_type : string
}.

Definition LineGeometry_fields (kw : gmap string json) : V LineGeometry :=
  Build_LineGeometry
    <$> required "coordinates" (v_list (v_list v_float)) kw
    <*> required "type" v_str kw.

Definition LineGeometry_repr (x : LineGeometry) : string :=
  repr_model "LineGeometry"
    [("coordinates", repr_list (repr_list repr_float) (coordinates x));
     ("type", repr_str (LineGeometry_type x))].

Record LineFeature := {
  LineFeature_type : string;
  geometry : LineGeometry;
  properties : gmap string json
}.

Definition LineFeature_fields (kw : gmap string json) : V LineFeature :=
  Build_LineFeature
    <$> required "type" v_str kw
    <*> required "geometry" (v_model LineGeometry_fields) kw
    <*> required "properties" v_dict kw.

Definition LineFeature_repr (x : LineFeature) : string :=
  repr_model "LineFeature"
    [("type", repr_str (LineFeature_type x));
     ("geometry", LineGeometry_repr (geometry x));
     ("properties", repr_dict (properties x))].

Record RailwayLineResult := {
  linie : Z;
  linienname : string;
  bpk_anfang : string;
  bpk_ende : string;
  km_anfang : Q;
  km_ende : Q;
  stationierung_anfang : Z;
  stationierung_ende : Z;
  tst : LineFeature;
  geo_point_2d : GeoPoint2D
}.

Definition RailwayLineResult_fields (kw : gmap string json) : V RailwayLineResult :=
  Build_RailwayLineResult
    <$> required "linie" v_int kw
    <*> required "linienname" v_str kw
    <*> required "bpk_anfang" v_str kw
    <*> required "bpk_ende" v_str kw
    <*> required "km_anfang" v_float kw
    <*> required "km_ende" v_float kw
    <*> required "stationierung_anfang" v_int kw
    <*> required "stationierung_ende" v_int kw
    <*> required "tst" (v_model LineFeature_fields) kw
    <*> required "geo_point_2d" (v_model GeoPoint2D_fields) kw.

Definition RailwayLineResult_repr (x : RailwayLineResult) : string :=
  repr_model "RailwayLineResult"
    [("linie", repr_int (linie x));
     ("linienname", repr_str (linienname x));
     ("bpk_anfang", repr_str (bpk_anfang x));
     ("bpk_ende", repr_str (bpk_ende x));
     ("km_anfang", repr_float (km_anfang x));
     ("km_ende", repr_float (km_ende x));
     ("stationierung_anfang", repr_int (stationierung_anfang x));
     ("stationierung_ende", repr_int (stationierung_ende x));
     ("tst", LineFeature_repr (tst x));
     ("geo_point_2d", GeoPoint2D_repr (geo_point_2d x))].

Record RailwayLineResponse := {
  total_count : Z;
  results : list RailwayLineResult
}.

Definition RailwayLineResponse_fields (kw : gmap string json) : V RailwayLineResponse :=
  Build_RailwayLineResponse
    <$> required "total_count" v_int kw
    <*> required "results" (v_list (v_model RailwayLineResult_fields)) kw.

Definition RailwayLineResponse_str (r : RailwayLineResponse) : string :=
  str_model
    [("total_count", repr_int (total_count r));
     ("results", repr_list RailwayLineResult_repr (results r))].

Definition fetch_railway_lines (params : RailwayLineParams) : M RailwayLineResponse :=
  let endpoint := ch_sbb.BASE_URL +:+ "/catalog/datasets/linie/records" in
  response ← httpx_get endpoint (RailwayLineParams_model_dump_exclude_none params);
  raise_for_status response;;
  data ← response_json response;
  lift (construct "RailwayLineResponse" RailwayLineResponse_fields data).

(** As in the rail-traffic handler, the arguments are unpacked as they
    come. *)
Definition handle_railway_lines (arguments : option (gmap string json))
  : M (list TextContent) :=
  try_log "Error fetching railway lines"
    (params ← lift (construct "RailwayLineParams" RailwayLineParams_fields
                      (as_kwargs arguments));
     railway_lines_response ← fetch_railway_lines params;
     mret [ {| type := "text"; text := RailwayLineResponse_str railway_lines_response |} ]).

End railway_line_information.
End ch_sbb_railway.

(** ** [ch_evcharge.py]: the handler *)

Module ch_evcharge_tool.
Section rendering.
Import ch_evcharge.

Variable repr_float : Q → string.

Definition Geodata_repr (x : Geodata) : string :=
  repr_model "Geodata"
    [("type", repr_str (Geodata_type x));
     ("coordinates", repr_list repr_float (coordinates x))].

Definition AdressProperties_repr (x : AdressProperties) : string :=
  repr_model "AdressProperties"
    [("PostalCode", repr_str (PostalCode x));
     ("City", repr_str (City x));
     ("Street", repr_str (Street x));
     ("Country", repr_str (Country x))].

Definition CharingFacilites_repr (x : CharingFacilites) : string :=
  repr_model "CharingFacilites"
    [("Power", repr_int (Power x));
     ("Voltage", repr_int (Voltage x));
     ("PowerType", repr_str (PowerType x))].

Definition StationProperties_repr (x : StationProperties) : string :=
  repr_model "StationProperties"
    [("featureType", repr_str (featureType x));
     ("id", repr_str (StationProperties_id x));
     ("EvseStatus", repr_str (EvseStatus x));
     ("Plugs", repr_str (Plugs x));
     ("AuthenticationModes", repr_list repr_str (AuthenticationModes x));
     ("AccessibilityLocation", repr_str (AccessibilityLocation x));
     ("Address", AdressProperties_repr (Address x));
     ("PaymentOptions", repr_list repr_str (PaymentOptions x));
     ("RenewableEnergy", repr_bool (RenewableEnergy x));
     ("ChargingFacilities", repr_list CharingFacilites_repr (ChargingFacilities x))].

Definition CharingStationResult_repr (x : CharingStationResult) : string :=
  repr_model "CharingStationResult"
    [("type", repr_str (Result_type x));
     ("id", repr_str (Result_id x));
     ("geometry", Geodata_repr (geometry x));
     ("properties", StationProperties_repr (properties x))].

Definition CharingStationResponse_str (x : CharingStationResponse) : string :=
  str_model
    [("type", repr_str (Response_type x));
     ("features", repr_list CharingStationResult_repr (features x))].

Definition handle_query_charing_station (arguments : option (gmap string json))
  : M (list TextContent) :=
  try_log "Error handling endpoint"
    (params ← lift (construct "ChargingStationParams" ChargingStationParams_fields
                      (or_empty arguments));
     response ← fetch_endpoint_data params;
     mret [ {| type := "text"; text := CharingStationResponse_str response |} ]).

End rendering.
End ch_evcharge_tool.

(** ** [glob_personal_data.py]: the handler *)

Module glob_personal_data_tool.
Section rendering.
Import glob_personal_data.

Variable personal_api_key : option string.
Variable repr_float : Q → string.

Definition OrganizationEntry_repr (x : OrganizationEntry) : string :=
  repr_model "OrganizationEntry"
    [("created_at", repr_option repr_str (created_at x));
     ("current", repr_option repr_bool (current x));
     ("degree", repr_option repr_str (degree x));
     ("description", repr_option repr_str (description x));
     ("emails", repr_option repr_str (emails x));
     ("end_date", repr_option repr_str (end_date x));
     ("grade_level", repr_option repr_str (grade_level x));
     ("kind", repr_option repr_str (kind x));
     ("major", repr_option repr_str (major x));
     ("organization_name", repr_option repr_str (OrganizationEntry_organization_name x));
     ("start_date", repr_option repr_str (start_date x));
     ("title", repr_option repr_str (OrganizationEntry_title x));
     ("updated_at", repr_option repr_str (updated_at x))].

Definition ContactEmail_repr (x : ContactEmail) : string :=
  repr_model "ContactEmail"
    [("email", repr_option repr_str (ContactEmail_email x));
     ("email_status", repr_option repr_str (ContactEmail_email_status x))].

Definition Contact_repr (x : Contact) : string :=
  repr_model "Contact"
    [("name", repr_option repr_str (Contact_name x));
     ("linkedin_url", repr_option repr_str (Contact_linkedin_url x));
     ("organization_name", repr_option repr_str (Contact_organization_name x));
     ("email", repr_option repr_str (Contact_email x));
     ("email_true_status", repr_option repr_str (email_true_status x));
     ("contact_emails", repr_option (repr_list ContactEmail_repr) (contact_emails x))].

Definition TechnologyItem_repr (x : TechnologyItem) : string :=
  repr_model "TechnologyItem"
    [("uid", repr_option repr_str (uid x));
     ("name", repr_option repr_str (TechnologyItem_name x));
     ("category", repr_option repr_str (category x))].

Definition Organization_repr (x : Organization) : string :=
  repr_model "Organization"
    [("name", repr_option repr_str (Organization_name x));
     ("website_url", repr_option repr_str (website_url x));
     ("linkedin_url", repr_option repr_str (Organization_linkedin_url x));
     ("keywords", repr_option (repr_list repr_str) (keywords x));
     ("estimated_num_employees", repr_option repr_int (estimated_num_employees x));
     ("city", repr_option repr_str (Organization_city x));
     ("state", repr_option repr_str (Organization_state x));
     ("country", repr_option repr_str (Organization_country x));
     ("annual_revenue", repr_option repr_int (annual_revenue x));
     ("technology_names", repr_option (repr_list repr_str) (technology_names x));
     ("current_technologies",
      repr_option (repr_list TechnologyItem_repr) (current_technologies x))].

Definition EndpointResult_repr (x : EndpointResult) : string :=
  repr_model "EndpointResult"
    [("id", repr_option repr_str (id x));
     ("first_name", repr_option repr_str (first_name x));
     ("last_name", repr_option repr_str (last_name x));
     ("name", repr_option repr_str (name x));
     ("linkedin_url", repr_option repr_str (linkedin_url x));
     ("title", repr_option repr_str (title x));
     ("email_status", repr_option repr_str (email_status x));
     ("extrapolated_email_confidence",
      repr_option repr_float (extrapolated_email_confidence x));
     ("headline", repr_option repr_str (headline x));
     ("email", repr_option repr_str (email x));
     ("employment_history",
      repr_option (repr_list OrganizationEntry_repr) (employment_history x));
     ("state", repr_option repr_str (state x));
     ("city", repr_option repr_str (city x));
     ("country", repr_option repr_str (country x));
     ("contact", repr_option Contact_repr (contact x));
     ("organization", repr_option Organization_repr (organization x));
     ("seniority", repr_option repr_str (seniority x))].

Definition EndpointResponse_str (x : EndpointResponse) : string :=
  str_model [("people", repr_option (repr_list EndpointResult_repr) (people x))].

Definition handle_endpoint (arguments : option (gmap string json))
  : M (list TextContent) :=
  try_log "Error handling endpoint"
    (params ← lift (construct "EndpointParams" EndpointParams_fields
                      (or_empty arguments));
     response ← fetch_endpoint_data personal_api_key params;
     mret [ {| type := "text"; text := EndpointResponse_str response |} ]).

End rendering.
End glob_personal_data_tool.

(** ** More vocabulary for the statements *)

(** The last character of the text is [c]. *)
Fixpoint ends_with (c : ascii) (s : string) : bool :=
  match s with
  | EmptyString => false
  | String a EmptyString => Ascii.eqb a c
  | String _ s' => ends_with c s'
  end.

(** The requests a run added to the log. *)
Definition new_requests (before after : World) : list Request :=
  drop (length (sent before)) (sent after).

(** The error-log lines a run added. *)
Definition new_errors (before after : World) : list (string * exn) :=
  drop (length (error_log before)) (error_log after).

(** A reply with the given status line and a JSON body. *)
Definition status_reply (status : Z) (data : json) : reply :=
  Reply {| status_code := status; body := Some data |}.

(** A successful reply whose body is not JSON. *)
Definition garbled_reply : reply :=
  Reply {| status_code := 200; body := None |}.

(** What every handler built on [try]/[log.error]/[raise] around one
    fetch keeps to, whatever the arguments and the upstream: a returned
    value is a single text item, came after exactly one request and left
    the error log alone; a raised exception was logged exactly once under
    the handler's prefix, after at most one request; nothing is printed. *)
Definition handler_contract (prefix : string) (h : M (list TextContent)) : Prop :=
  ∀ w,
    match h w with
    | (Return res, w') =>
        (∃ t, res = [ {| type := "text"; text := t |} ]) ∧
        error_log w' = error_log w ∧
        (∃ req, sent w' = sent w ++ [req]) ∧
        upstream w' = tail (upstream w) ∧
        stdout w' = stdout w
    | (Raise e, w') =>
        error_log w' = error_log w ++ [(prefix, e)] ∧
        ((sent w' = sent w ∧ upstream w' = upstream w) ∨
         (∃ req, sent w' = sent w ++ [req]) ∧ upstream w' = tail (upstream w)) ∧
        stdout w' = stdout w
    end.

(** The outcome of the shared tail of every single-request fetch
    (status check, JSON decoding, response model), by kind of reply. *)
Definition decode_reply {A} (title : string) (fields : gmap string json → V A)
    (replies : list reply) : Exc A :=
  match replies with
  | Reply r :: _ =>
      if (200 <=? status_code r)%Z && (status_code r <? 300)%Z then
        match body r with
        | Some data => construct title fields data
        | None => Raise JSONDecodeError
        end
      else Raise (HTTPStatusError (status_code r))
  | _ => Raise ConnectError
  end.

(** The [next] cursor carried by the first scripted reply, as
    [data.get("next")] reads it. *)
Definition next_cursor (replies : list reply) : json :=
  match replies with
  | Reply r :: _ =>
      match body r with
      | Some (JObj o) => dict_get o "next"
      | _ => JNull
      end
  | _ => JNull
  end.

(** One page whose cursor is the empty string, and one whose cursor is a
    number. *)
Definition page_empty_cursor : gmap string json :=
  {[ "data" := JArr [emissions_item 1 (7 # 2)]; "next" := JStr "" ]}.

Definition page_number_cursor : gmap string json :=
  {[ "data" := JArr [emissions_item 1 (7 # 2)]; "next" := JInt 2 ]}.

Definition world_of (replies : list reply) : World :=
  {| upstream := replies; sent := []; error_log := []; stdout := [] |}.

(** The people-search parameters built from [{"per_page": 5}]. *)
Definition people_five_per_page : glob_personal_data.EndpointParams :=
  {| glob_personal_data.person_titles := None;
     glob_personal_data.person_locations := None;
     glob_personal_data.person_seniorities := None;
     glob_personal_data.organization_locations := None;
     glob_personal_data.q_organization_domains := None;
     glob_personal_data.contact_email_status := None;
     glob_personal_data.organization_ids := None;
     glob_personal_data.organization_num_employees_ranges := None;
     glob_personal_data.q_keywords := None;
     glob_personal_data.page := Some 1%Z;
     glob_personal_data.per_page := Some 5%Z |}.

(** * What httpx does with the URL of a call

    [sent] records each call with the URL as the provider built it.
    Before the request leaves, [httpx.get(url)] parses [url]: a URL of
    more than 65536 characters, or one that holds an ASCII control
    character, is refused with [InvalidURL]; otherwise the query and the
    fragment are percent-encoded, every byte outside the safe set of the
    component becoming [%XX]. The properties that speak about the request
    on the wire are stated with [httpx_url]. *)

Fixpoint all_chars (ok : ascii → bool) (s : string) : bool :=
  match s with
  | EmptyString => true
  | String a s' => ok a && all_chars ok s'
  end.

(** [char.isascii() and not char.isprintable()]. *)
Definition is_control (a : ascii) : bool :=
  let n := nat_of_ascii a in
  (n <? 32)%nat || (n =? 127)%nat.

Definition not_control (a : ascii) : bool := negb (is_control a).

(** [len(url)] of a [str] held in UTF-8: the bytes that do not continue
    a character. *)
Fixpoint code_points (s : string) : Z :=
  match s with
  | EmptyString => 0
  | String a s' =>
      let n := nat_of_ascii a in
      ((if (n <? 128)%nat || (192 <=? n)%nat then 1 else 0) + code_points s')%Z
  end.

(** The characters httpx leaves as they are in a query: printable ASCII
    but the space, the double quote, [#], [<] and [>]. *)
Definition query_safe (a : ascii) : bool :=
  let n := nat_of_ascii a in
  (32 <? n)%nat && (n <? 127)%nat &&
  negb ((n =? 34)%nat || (n =? 35)%nat || (n =? 60)%nat || (n =? 62)%nat).

(** In a fragment: printable ASCII but the space, the double quote, [<],
    [>] and the backquote. *)
Definition fragment_safe (a : ascii) : bool :=
  let n := nat_of_ascii a in
  (32 <? n)%nat && (n <? 127)%nat &&
  negb ((n =? 34)%nat || (n =? 60)%nat || (n =? 62)%nat || (n =? 96)%nat).

Definition upper_hex_digit (n : nat) : ascii :=
  ascii_of_nat (if (n <? 10)%nat then 48 + n else 55 + n).

Definition percent_byte (a : ascii) : string :=
  let n := nat_of_ascii a in
  String "%" (String (upper_hex_digit (n / 16))
                     (String (upper_hex_digit (n mod 16)) EmptyString)).

(** [percent_encoded(string, safe)]: every byte of the UTF-8 text that is
    not safe is written [%XX]. *)
Fixpoint percent_encoded (safe : ascii → bool) (s : string) : string :=
  match s with
  | EmptyString => EmptyString
  | String a s' =>
      (if safe a then String a EmptyString else percent_byte a)
        +:+ percent_encoded safe s'
  end.

(** The text before the first [c], and the text after it when there is
    one. *)
Fixpoint cut (c : ascii) (s : string) : string * option string :=
  match s with
  | EmptyString => (EmptyString, None)
  | String a s' =>
      if Ascii.eqb a c then (EmptyString, Some s')
      else let '(x, y) := cut c s' in (String a x, y)
  end.

Fixpoint starts_with (p s : string) : bool :=
  match p, s with
  | EmptyString, _ => true
  | String a p', String b s' => Ascii.eqb a b && starts_with p' s'
  | String _ _, EmptyString => false
  end.

Fixpoint strip_prefix (p s : string) : option string :=
  match p, s with
  | EmptyString, _ => Some s
  | String a p', String b s' => if Ascii.eqb a b then strip_prefix p' s' else None
  | String _ _, EmptyString => None
  end.

(** [s.split(c)] for a one-character [c]. *)
Fixpoint split_on (c : ascii) (s : string) : list string :=
  match s with
  | EmptyString => [EmptyString]
  | String a s' =>
      if Ascii.eqb a c then EmptyString :: split_on c s'
      else match split_on c s' with
           | x :: l => String a x :: l
           | [] => [String a EmptyString]
           end
  end.

(** The part of a URL before the query that httpx sends as it stands:
    [http://] or [https://], a host name in lower case that starts with
    a letter, an explicit port only when it is not the default one, and
    a path without characters to encode and without [.] or [..]
    segments. The base URLs of the five providers are of this kind. *)
Definition is_lower (a : ascii) : bool :=
  let n := nat_of_ascii a in (97 <=? n)%nat && (n <=? 122)%nat.

Definition is_digit (a : ascii) : bool :=
  let n := nat_of_ascii a in (48 <=? n)%nat && (n <=? 57)%nat.

Definition is_upper (a : ascii) : bool :=
  let n := nat_of_ascii a in (65 <=? n)%nat && (n <=? 90)%nat.

Definition one_of (chars : string) (a : ascii) : bool := contains_char a chars.

Definition unreserved (a : ascii) : bool :=
  is_lower a || is_upper a || is_digit a || one_of "-._~" a.

Definition host_char (a : ascii) : bool := is_lower a || is_digit a || one_of "-." a.

Definition path_char (a : ascii) : bool := unreserved a || one_of "!$&'()*+,;=:@/" a.

Definition plain_host (h : string) : bool :=
  match h with
  | String a _ => is_lower a && all_chars host_char h
  | EmptyString => false
  end.

Definition plain_port (default_port : Z) (p : string) : bool :=
  match p with
  | String a _ =>
      all_chars is_digit p && negb (Ascii.eqb a "0") && (String.length p <=? 5)%nat &&
      (let v := (read_digits false 0 0 p).1.1 in
       (v <=? 65535)%Z && negb (v =? default_port)%Z)
  | EmptyString => false
  end.

Definition plain_path (path : string) : bool :=
  (String.eqb path "" || starts_with "/" path) &&
  all_chars path_char path &&
  forallb (λ seg, negb (String.eqb seg "." || String.eqb seg "..")) (split_on "/" path).

Definition plain_authority_path (default_port : Z) (rest : string) : bool :=
  let '(authority, path) := cut "/" rest in
  let '(host, port) := cut ":" authority in
  plain_host host &&
  from_option (plain_port default_port) true port &&
  plain_path (from_option (String "/") EmptyString path).

Definition plain_prefix (u : string) : bool :=
  match strip_prefix "http://" u, strip_prefix "https://" u with
  | Some rest, _ => plain_authority_path 80 rest
  | None, Some rest => plain_authority_path 443 rest
  | None, None => false
  end.

(** The URL the request of [httpx.get(u)] / [httpx.post(u)] leaves
    with. [None] stands for a URL that httpx refuses, or whose part
    before the query is not of the kind described above. *)
Definition httpx_url (u : string) : option string :=
  if (65536 <? code_points u)%Z || negb (all_chars not_control u) then None
  else
    let '(front, fragment) := cut "#" u in
    let '(prefix, query) := cut "?" front in
    if plain_prefix prefix then
      Some (prefix
              +:+ from_option (λ q, "?" +:+ percent_encoded query_safe q) "" query
              +:+ from_option (λ f, "#" +:+ percent_encoded fragment_safe f) "" fragment)
    else None.

(** Text that passes through a query unchanged in every respect:
    letters, digits and the punctuation that is neither encoded nor a
    delimiter of the fragment. *)
Definition url_plain_char (a : ascii) : bool :=
  unreserved a || one_of "!$&'()*+,;=:/?[]@" a.

Definition url_plain (s : string) : bool := all_chars url_plain_char s.

(** Such text of at most 20000 characters: short enough for the URLs
    the providers build around it to stay within the limit. *)
Definition plain_text (s : string) : bool :=
  url_plain s && (code_points s <=? 20000)%Z.

Definition plain_option (o : option string) : bool :=
  match o with
  | Some s => plain_text s
  | None => true
  end.

(** The years of the emissions parameters are plain text. *)
Definition plain_years (params : option glob_emissions.EndpointParams) : bool :=
  match params with
  | Some p =>
      plain_option (glob_emissions.start_year p) &&
      plain_option (glob_emissions.end_year p)
  | None => true
  end.

(** What a year adds to the first URL of the emissions fetch. *)
Definition year_part (name : string) (year : option string) : string :=
  match year with
  | Some y => if truthy (JStr y) then name +:+ "=" +:+ y +:+ "&" else ""
  | None => ""
  end.

(** The city name of the end-to-end scenario, in UTF-8: Z, U+00FC, rich. *)
Definition Zurich : string :=
  String "Z" (String (ascii_of_nat 195) (String (ascii_of_nat 188) "rich")).

(** * Text that [repr] is described for

    Characters up to U+00FF, in UTF-8: one byte below 128, or the lead
    byte [C2] or [C3] with its continuation byte. *)
Fixpoint latin1_text (s : string) : bool :=
  match s with
  | EmptyString => true
  | String a s' =>
      let n := nat_of_ascii a in
      if (n <? 128)%nat then latin1_text s'
      else
        match s' with
        | String b s'' =>
            let m := nat_of_ascii b in
            ((n =? 194)%nat || (n =? 195)%nat) && (128 <=? m)%nat && (m <=? 191)%nat &&
            latin1_text s''
        | EmptyString => false
        end
  end.

(** Every string a transit response holds. *)
Module transit_text.
Import ch_public_transit.

Definition of_option (o : option string) : list string :=
  match o with
  | Some s => [s]
  | None => []
  end.

Definition of_Location (x : Location) : list string :=
  [Location_id x; Location_name x].

Definition of_Stop (x : Stop) : list string :=
  of_Location (Stop_station x) ++ of_option (Stop_arrival x)
    ++ of_option (Stop_departure x).

Definition of_Departure (x : Departure) : list string :=
  of_Location (Departure_station x) ++ [Departure_departure x; Departure_platform x].

Definition of_Arrival (x : Arrival) : list string :=
  of_Location (Arrival_station x) ++ [Arrival_arrival x; Arrival_platform x].

Definition of_Route (x : Route) : list string :=
  [Route_name x; Route_category x; Route_number x; Route_operator x; Route_to x]
    ++ (Route_passList x ≫= of_Stop).

Definition of_TransitOption (x : TransitOption) : list string :=
  of_Route (journey x).

Definition of_PublicTransitResult (x : PublicTransitResult) : list string :=
  of_Departure (start x) ++ of_Arrival (Result_to x) ++ [duration x]
    ++ (sections x ≫= of_TransitOption).

Definition of_Public_TransitResponse (x : Public_TransitResponse) : list string :=
  connections x ≫= of_PublicTransitResult.

Definition latin1 (x : Public_TransitResponse) : bool :=
  forallb latin1_text (of_Public_TransitResponse x).

End transit_text.

(** * The query string of the people search, as the properties read it *)

Module people_query.
Import glob_personal_data people_fields.

(** One key of a list-valued field, and one single-valued key; the
    value has its spaces written [%20] and is otherwise as given. *)
Definition list_key (f : list_field) (item : string) : string :=
  key f +:+ "[]=" +:+ replace " " "%20" item.

Definition scalar_key (name value : string) : string :=
  name +:+ "=" +:+ replace " " "%20" value.

Definition scalar_opt (name : string) (value : option string) : list string :=
  match value with
  | Some v => [scalar_key name v]
  | None => []
  end.

(** The keys of a parameter object in field order: one [field[]=item]
    per item of each list, then the single-valued fields that are
    set. *)
Definition keys (p : EndpointParams) : list string :=
  (all_list_fields ≫= λ f, list_key f <$> default [] (get f p)) ++
  scalar_opt "q_keywords" (q_keywords p) ++
  scalar_opt "page" (str_int <$> page p) ++
  scalar_opt "per_page" (str_int <$> per_page p).

(** The query string the keys make up, each followed by [&]. *)
Definition expected (p : EndpointParams) : string :=
  concat_str ((λ k, k +:+ "&") <$> keys p).

(** The values a caller can put text into. *)
Definition text_values (p : EndpointParams) : list string :=
  (all_list_fields ≫= λ f, default [] (get f p)) ++
  match q_keywords p with
  | Some s => [s]
  | None => []
  end.

Definition no_ampersand (p : EndpointParams) : bool :=
  forallb (λ v, negb (contains_char "&" v)) (text_values p).

(** How many keys [field[]] a reader that splits the query string at
    [&] finds. *)
Definition count_key (f : list_field) (query_string : string) : nat :=
  length (filter (λ part, starts_with (key f +:+ "[]=") part = true)
                 (split_on "&" query_string)).

(** Parameters that set [person_titles] only. *)
Definition only_titles (titles : list string) : EndpointParams :=
  {| person_titles := Some titles;
     person_locations := None;
     person_seniorities := None;
     organization_locations := None;
     q_organization_domains := None;
     contact_email_status := None;
     organization_ids := None;
     organization_num_employees_ranges := None;
     q_keywords := None;
     page := Some 1%Z;
     per_page := None |}.

End people_query.

(** * The input-schema models, side by side *)

Module input_models.

Inductive model :=
  | Traffic
  | Railway
  | Transit
  | Emissions
  | People
  | Charging.

Definition instance (m : model) : Type :=
  match m with
  | Traffic => ch_sbb.TrafficInfoParams
  | Railway => ch_sbb_railway.RailwayLineParams
  | Transit => ch_public_transit.Public_TransitParams
  | Emissions => glob_emissions.EndpointParams
  | People => glob_personal_data.EndpointParams
  | Charging => ch_evcharge.ChargingStationParams
  end.

Definition title (m : model) : string :=
  match m with
  | Traffic => "TrafficInfoParams"
  | Railway => "RailwayLineParams"
  | Transit => "Public_TransitParams"
  | Emissions => "EndpointParams"
  | People => "EndpointParams"
  | Charging => "ChargingStationParams"
  end.

Definition fields (m : model) : gmap string json → V (instance m) :=
  match m with
  | Traffic => ch_sbb.TrafficInfoParams_fields
  | Railway => ch_sbb_railway.RailwayLineParams_fields
  | Transit => ch_public_transit.Public_TransitParams_fields
  | Emissions => glob_emissions.EndpointParams_fields
  | People => glob_personal_data.EndpointParams_fields
  | Charging => ch_evcharge.ChargingStationParams_fields
  end.

(** [Model] applied to [**arguments]. *)
Definition new (m : model) (arguments : gmap string json) : Exc (instance m) :=
  construct (title m) (fields m) (JObj arguments).

(** The declared type of a field. *)
Inductive shape :=
  | a_str
  | an_optional_str
  | an_int
  | an_optional_int
  | a_bool
  | an_optional_list_of_str.

Definition query_options : list (string * shape) :=
  [("select", an_optional_str); ("where", an_optional_str);
   ("group_by", an_optional_str); ("order_by", an_optional_str);
   ("limit", an_int); ("offset", an_int)].

(** The fields each class declares, under the key each is read from. *)
Definition declared (m : model) : list (string * shape) :=
  match m with
  | Traffic =>
      query_options ++
      [("refine", an_optional_str); ("exclude", an_optional_str);
       ("lang", an_optional_str); ("timezone", a_str);
       ("include_links", a_bool); ("include_app_metas", a_bool)]
  | Railway => query_options
  | Transit => [("origin", a_str); ("to", a_str)]
  | Emissions => [("start_year", an_optional_str); ("end_year", an_optional_str)]
  | People =>
      ((λ f, (people_fields.key f, an_optional_list_of_str))
         <$> people_fields.all_list_fields) ++
      [("q_keywords", an_optional_str); ("page", an_optional_int);
       ("per_page", an_optional_int)]
  | Charging => [("limit", an_int); ("test", a_str)]
  end.

(** The declared bounds [ge] and [le]. *)
Definition ranges (m : model) : list (string * Z * option Z) :=
  match m with
  | Traffic | Railway => [("limit", 1%Z, Some 100%Z); ("offset", 0%Z, None)]
  | _ => []
  end.

Definition within (m : model) : instance m → Prop :=
  match m with
  | Traffic => λ p, (1 ≤ ch_sbb.limit p ≤ 100)%Z ∧ (0 ≤ ch_sbb.offset p)%Z
  | Railway =>
      λ p, (1 ≤ ch_sbb_railway.limit p ≤ 100)%Z ∧ (0 ≤ ch_sbb_railway.offset p)%Z
  | _ => λ _, True
  end.

Definition is_str (j : json) : bool :=
  match j with
  | JStr _ => true
  | _ => false
  end.

(** A value of a JSON type that the declared type never takes: for a
    string field anything but a string, for an integer or boolean
    field [null], a list or an object, for a list field anything but a
    list and any list with an item that is not a string; [null] passes
    where the field is [Optional]. *)
Definition misshapen (t : shape) (j : json) : bool :=
  match t, j with
  | a_str, JStr _ => false
  | a_str, _ => true
  | an_optional_str, (JStr _ | JNull) => false
  | an_optional_str, _ => true
  | (an_int | a_bool), (JNull | JArr _ | JObj _) => true
  | (an_int | a_bool), _ => false
  | an_optional_int, (JArr _ | JObj _) => true
  | an_optional_int, _ => false
  | an_optional_list_of_str, JNull => false
  | an_optional_list_of_str, JArr l => negb (forallb is_str l)
  | an_optional_list_of_str, _ => true
  end.

End input_models.

(** Validation failed with an error located at field [k] or below it. *)
Definition fails_at {A} (k : string) (x : V A) : Prop :=
  ∃ errs e rest, x = Invalid errs ∧ e ∈ errs ∧ err_loc e = LField k :: rest.

(** The validator turns the value down. *)
Definition rejects {A} (v : validator A) (j : json) : Prop :=
  ∃ errs, v j = Invalid errs ∧ errs ≠ [].

(** * Properties *)

(** ** The monad and the transport *)

Section monad_facts.
Context {A B : Type}.

Lemma bind_unfold (m : M A) (f : A → M B) (w : World) :
  (m ≫= f) w = match m w with
               | (Return a, w') => f a w'
               | (Raise e, w') => (Raise e, w')
               end.
Proof. reflexivity. Qed.

Lemma stateless_ret (a : A) : stateless (mret a : M A).
Proof. intros w. reflexivity. Qed.

Lemma stateless_raise (e : exn) : stateless (raise e : M A).
Proof. intros w. reflexivity. Qed.

Lemma stateless_lift (x : Exc A) : stateless (lift x).
Proof. intros w. reflexivity. Qed.

Lemma stateless_bind (m : M A) (f : A → M B) :
  stateless m → (∀ a, stateless (f a)) → stateless (m ≫= f).
Proof.
  intros Hm Hf w. rewrite bind_unfold. specialize (Hm w).
  destruct (m w) as [[e|a] w']; simpl in *; subst; [reflexivity | apply Hf].
Qed.

(** A stateless computation is its result. *)
Lemma stateless_run (m : M A) (w : World) : stateless m → m w = ((m w).1, w).
Proof. intros Hm. specialize (Hm w). destruct (m w); simpl in *; congruence. Qed.
End monad_facts.

Lemma stateless_raise_for_status r : stateless (raise_for_status r).
Proof. unfold raise_for_status. destruct (_ && _); [apply stateless_ret | apply stateless_raise]. Qed.

Lemma stateless_response_json r : stateless (response_json r).
Proof. unfold response_json. destruct (body r); [apply stateless_ret | apply stateless_raise]. Qed.

Create HintDb stateless.
#[local] Hint Resolve stateless_ret stateless_raise stateless_lift
  stateless_raise_for_status stateless_response_json : stateless.

(** Status check, decoding and validation of a reply touch nothing. *)
Lemma stateless_decode {A} (title : string) (fields : gmap string json → V A) r :
  stateless (raise_for_status r;;
             data ← response_json r;
             lift (construct title fields data)).
Proof. apply stateless_bind; [|intros _; apply stateless_bind]; auto with stateless. Qed.

(** A well-formed reply decodes to whatever the model makes of it. *)
Lemma decode_ok_reply {A} (title : string) (fields : gmap string json → V A) data w :
  (raise_for_status {| status_code := 200; body := Some data |};;
   d ← response_json {| status_code := 200; body := Some data |};
   lift (construct title fields d)) w = (construct title fields data, w).
Proof. reflexivity. Qed.

(** Every request is recorded and uses up one scripted reply, whatever
    comes back. *)
Lemma send_world req w : (send req w).2 = after_request req w.
Proof. unfold send, after_request. destruct (upstream w) as [|[r|] rest]; reflexivity. Qed.

Lemma send_ok_reply req data rest w :
  upstream w = ok_reply data :: rest →
  send req w = (Return {| status_code := 200; body := Some data |}, after_request req w).
Proof. intros Hw. unfold send, after_request. rewrite Hw. reflexivity. Qed.

Lemma bind_world {A B} (m : M A) (k : A → M B) w :
  (∀ a, stateless (k a)) → ((m ≫= k) w).2 = (m w).2.
Proof.
  intros Hk. rewrite bind_unfold.
  destruct (m w) as [[e|a] w']; simpl; [done | apply Hk].
Qed.

Lemma send_then_world {A} req (k : Response → M A) w :
  (∀ r, stateless (k r)) → ((send req ≫= k) w).2 = after_request req w.
Proof. intros Hk. rewrite bind_world by done. apply send_world. Qed.

Lemma try_log_sent {A} prefix (m : M A) w :
  sent (try_log prefix m w).2 = sent (m w).2 ∧
  upstream (try_log prefix m w).2 = upstream (m w).2.
Proof. unfold try_log. destruct (m w) as [[e|a] w']; done. Qed.

Lemma try_log_return {A} prefix (m : M A) w a w' :
  m w = (Return a, w') → try_log prefix m w = (Return a, w').
Proof. intros Hm. unfold try_log. rewrite Hm. reflexivity. Qed.

Lemma try_log_raise {A} prefix (m : M A) w e w' :
  m w = (Raise e, w') → try_log prefix m w = (Raise e, after_error prefix e w').
Proof. intros Hm. unfold try_log. rewrite Hm. reflexivity. Qed.

(** ** Validation *)

Section validation_facts.
Context {A B : Type}.

Lemma v_ap_valid_inv (f : V (A → B)) (x : V A) (b : B) :
  f <*> x = Valid b → ∃ g a, f = Valid g ∧ x = Valid a ∧ b = g a.
Proof. destruct f, x; simpl; intros [= <-]; eauto. Qed.

Lemma fmap_valid_inv (g : A → B) (x : V A) (b : B) :
  g <$> x = Valid b → ∃ a, x = Valid a ∧ b = g a.
Proof. destruct x; simpl; intros [= <-]; eauto. Qed.

Lemma fails_with_ap_l e (f : V (A → B)) (x : V A) :
  fails_with e f → fails_with e (f <*> x).
Proof.
  intros (errs & -> & He). destruct x as [errs'|a]; simpl.
  - exists (errs ++ errs'). split; [done | set_solver].
  - exists errs. done.
Qed.

Lemma fails_with_ap_r e (f : V (A → B)) (x : V A) :
  fails_with e x → fails_with e (f <*> x).
Proof.
  intros (errs & -> & He). destruct f as [errs'|g]; simpl.
  - exists (errs' ++ errs). split; [done | set_solver].
  - exists errs. done.
Qed.

Lemma fails_with_fmap e (g : A → B) (x : V A) :
  fails_with e x → fails_with e (g <$> x).
Proof. intros (errs & -> & He). exists errs. done. Qed.

Lemma fails_with_at_loc e l (x : V A) :
  fails_with e x →
  fails_with {| err_loc := l :: err_loc e; err_type := err_type e |} (at_loc l x).
Proof.
  intros (errs & -> & He). eexists. split; [reflexivity|].
  apply list_elem_of_fmap. eauto.
Qed.

Lemma fails_with_invalid e (x : V A) : fails_with e x → is_invalid x.
Proof. intros (errs & -> & _). by exists errs. Qed.
End validation_facts.

Lemma construct_fails_with {A} title (fields : gmap string json → V A) kw e :
  fails_with e (fields kw) →
  ∃ errs, construct title fields (JObj kw) = Raise (ValidationError title errs) ∧ e ∈ errs.
Proof. intros (errs & Hf & He). exists errs. simpl. rewrite Hf. done. Qed.

Lemma construct_return_inv {A} title (fields : gmap string json → V A) kw a :
  construct title fields (JObj kw) = Return a ↔ fields kw = Valid a.
Proof. simpl. destruct (fields kw); split; congruence. Qed.

Lemma new_requests_one (req : Request) (w w' : World) :
  sent w' = sent w ++ [req] → new_requests w w' = [req].
Proof. intros H. unfold new_requests. rewrite H. by rewrite drop_app_length. Qed.

Lemma new_requests_none (w w' : World) : sent w' = sent w → new_requests w w' = [].
Proof. intros H. unfold new_requests. rewrite H. apply drop_all. Qed.


(** ** Input validation of the rail-traffic parameters *)

Section sbb_facts.
Import ch_sbb.

Lemma limit_out_of_range_fails (kw : gmap string json) (n : Z) :
  kw !! "limit" = Some (JInt n) → (n < 1 ∨ 100 < n)%Z →
  ∃ e, fails_with e (TrafficInfoParams_fields kw) ∧
       err_loc e = [LField "limit"] ∧
       (err_type e = greater_than_equal 1 ∨ err_type e = less_than_equal 100).
Proof.
  intros Hk Hn.
  assert (∃ t, (t = greater_than_equal 1 ∨ t = less_than_equal 100) ∧
               fails_with {| err_loc := []; err_type := t |}
                 (ge 1 (le 100 v_int) (JInt n))) as (t & Ht & Hf).
  { unfold ge, le, v_int, v_bind, fail_with.
    destruct (Z.leb_spec n 100).
    - destruct (Z.leb_spec 1 n); [lia|].
      eexists; split; [left; reflexivity|]. eexists; split; [reflexivity | constructor].
    - eexists; split; [right; reflexivity|]. eexists; split; [reflexivity | constructor]. }
  exists {| err_loc := [LField "limit"]; err_type := t |}. split; [|done].
  unfold TrafficInfoParams_fields.
  do 7 apply fails_with_ap_l. apply fails_with_ap_r.
  unfold with_default. rewrite Hk.
  apply (fails_with_at_loc _ (LField "limit")) in Hf. exact Hf.
Qed.

(** A successful construction read every field through its validator. *)
Lemma TrafficInfoParams_fields_valid (kw : gmap string json) (p : TrafficInfoParams) :
  TrafficInfoParams_fields kw = Valid p ↔
    with_default "select" (v_optional v_str) None kw = Valid (select p) ∧
    with_default "where" (v_optional v_str) None kw = Valid (where_ p) ∧
    with_default "group_by" (v_optional v_str) None kw = Valid (group_by p) ∧
    with_default "order_by" (v_optional v_str) None kw = Valid (order_by p) ∧
    with_default "limit" (ge 1 (le 100 v_int)) 10%Z kw = Valid (limit p) ∧
    with_default "offset" (ge 0 v_int) 0%Z kw = Valid (offset p) ∧
    with_default "refine" (v_optional v_str) None kw = Valid (refine_ p) ∧
    with_default "exclude" (v_optional v_str) None kw = Valid (exclude p) ∧
    with_default "lang" (v_optional v_str) None kw = Valid (lang p) ∧
    with_default "timezone" v_str "UTC" kw = Valid (timezone p) ∧
    with_default "include_links" v_bool false kw = Valid (include_links p) ∧
    with_default "include_app_metas" v_bool false kw = Valid (include_app_metas p).
Proof.
  unfold TrafficInfoParams_fields. split.
  - intros H.
    repeat (apply v_ap_valid_inv in H; destruct H as (? & ? & H & ? & ->)).
    apply fmap_valid_inv in H; destruct H as (? & ? & ->).
    simpl. repeat split; assumption.
  - intros (-> & -> & -> & -> & -> & -> & -> & -> & -> & -> & -> & ->).
    destruct p; reflexivity.
Qed.

Lemma ge_valid_inv lo v j z : ge lo v j = Valid z → v j = Valid z ∧ (lo ≤ z)%Z.
Proof.
  unfold ge, v_bind. destruct (v j) as [|z']; [done|].
  destruct (Z.leb_spec lo z'); intros [= <-]; done.
Qed.

Lemma le_valid_inv hi v j z : le hi v j = Valid z → v j = Valid z ∧ (z ≤ hi)%Z.
Proof.
  unfold le, v_bind. destruct (v j) as [|z']; [done|].
  destruct (Z.leb_spec z' hi); intros [= <-]; done.
Qed.

Lemma at_loc_valid_inv {A} l (v : V A) a : at_loc l v = Valid a → v = Valid a.
Proof. destruct v; simpl; congruence. Qed.

Lemma TrafficInfoParams_bounds (kw : gmap string json) (p : TrafficInfoParams) :
  TrafficInfoParams_fields kw = Valid p →
  (1 ≤ limit p ≤ 100)%Z ∧ (0 ≤ offset p)%Z.
Proof.
  intros H. apply TrafficInfoParams_fields_valid in H.
  destruct H as (_ & _ & _ & _ & Hl & Ho & _).
  unfold with_default in Hl, Ho. split.
  - destruct (kw !! "limit"); [|injection Hl as <-; lia].
    apply at_loc_valid_inv, ge_valid_inv in Hl. destruct Hl as [Hl ?].
    apply le_valid_inv in Hl. lia.
  - destruct (kw !! "offset"); [|injection Ho as <-; lia].
    apply at_loc_valid_inv, ge_valid_inv in Ho. lia.
Qed.

Lemma TrafficInfoParams_ignores_unknown (kw : gmap string json) k v :
  k ∉ TrafficInfoParams_names →
  TrafficInfoParams_fields (<[k:=v]> kw) = TrafficInfoParams_fields kw.
Proof.
  unfold TrafficInfoParams_names. rewrite !not_elem_of_cons.
  intros (? & ? & ? & ? & ? & ? & ? & ? & ? & ? & ? & ? & _).
  unfold TrafficInfoParams_fields, with_default.
  rewrite !lookup_insert_ne by done. reflexivity.
Qed.
End sbb_facts.

(** Every failed validation reports at least one error. *)
Section reports.
Context {A B : Type}.

Lemma reports_ap (f : V (A → B)) (x : V A) :
  (∀ errs, f = Invalid errs → errs ≠ []) → (∀ errs, x = Invalid errs → errs ≠ []) →
  ∀ errs, f <*> x = Invalid errs → errs ≠ [].
Proof.
  intros Hf Hx errs. destruct f as [e1|g], x as [e2|a]; simpl; intros [= <-]; auto.
  intros [H1 _]%app_eq_nil. by apply (Hf e1).
Qed.

Lemma reports_fmap (g : A → B) (x : V A) :
  (∀ errs, x = Invalid errs → errs ≠ []) → ∀ errs, g <$> x = Invalid errs → errs ≠ [].
Proof. intros Hx errs. destruct x; simpl; intros [= <-]; auto. Qed.

Lemma reports_at_loc l (x : V A) :
  (∀ errs, x = Invalid errs → errs ≠ []) → ∀ errs, at_loc l x = Invalid errs → errs ≠ [].
Proof.
  intros Hx errs. destruct x as [e|]; simpl; intros [= <-].
  intros H%fmap_nil_inv. by apply (Hx e).
Qed.

Lemma reports_from_option (o : option A) t :
  ∀ errs, from_option Valid (fail_with t) o = Invalid errs → errs ≠ [].
Proof. intros errs. destruct o; simpl; intros [= <-]; done. Qed.
End reports.

Lemma reports_v_str j errs : v_str j = Invalid errs → errs ≠ [].
Proof. destruct j; simpl; intros [= <-]; done. Qed.

Lemma reports_float_as_int q errs : float_as_int q = Invalid errs → errs ≠ [].
Proof. unfold float_as_int. repeat case_match; intros [= <-]; done. Qed.

Lemma reports_v_int j errs : v_int j = Invalid errs → errs ≠ [].
Proof.
  destruct j; simpl; try (intros [= <-]; done);
    [apply reports_float_as_int
    | case_match; [intros [= <-]; done | apply reports_from_option]].
Qed.

Lemma reports_v_bool j errs : v_bool j = Invalid errs → errs ≠ [].
Proof.
  destruct j as [| |z|q| | |]; simpl; try (intros [= <-]; done).
  - unfold int_as_bool. repeat case_match; intros [= <-]; done.
  - unfold int_as_bool. repeat case_match; intros [= <-]; done.
  - apply reports_from_option.
Qed.

Lemma reports_v_optional {A} (v : validator A) j :
  (∀ errs, v j = Invalid errs → errs ≠ []) →
  ∀ errs, v_optional v j = Invalid errs → errs ≠ [].
Proof. intros Hv errs. destruct j; simpl; try done; by apply reports_fmap. Qed.

Lemma reports_ge lo v j :
  (∀ errs, v j = Invalid errs → errs ≠ []) → ∀ errs, ge lo v j = Invalid errs → errs ≠ [].
Proof.
  intros Hv errs. unfold ge, v_bind. destruct (v j) as [e|z]; [intros [= <-]; eauto|].
  case_match; intros [= <-]; done.
Qed.

Lemma reports_le hi v j :
  (∀ errs, v j = Invalid errs → errs ≠ []) → ∀ errs, le hi v j = Invalid errs → errs ≠ [].
Proof.
  intros Hv errs. unfold le, v_bind. destruct (v j) as [e|z]; [intros [= <-]; eauto|].
  case_match; intros [= <-]; done.
Qed.

Lemma reports_with_default {A} key (v : validator A) d kw :
  (∀ j errs, v j = Invalid errs → errs ≠ []) →
  ∀ errs, with_default key v d kw = Invalid errs → errs ≠ [].
Proof.
  intros Hv errs. unfold with_default. destruct (kw !! key); [|done].
  apply reports_at_loc, Hv.
Qed.

Lemma TrafficInfoParams_reports kw errs :
  ch_sbb.TrafficInfoParams_fields kw = Invalid errs → errs ≠ [].
Proof.
  unfold ch_sbb.TrafficInfoParams_fields.
  repeat (apply reports_ap; [|apply reports_with_default; intros j;
    first [ apply reports_v_str | apply reports_v_bool
          | apply reports_v_optional, reports_v_str
          | apply reports_ge, reports_le, reports_v_int
          | apply reports_ge, reports_v_int ]]).
  apply reports_fmap, reports_with_default. intros j. apply reports_v_optional, reports_v_str.
Qed.

(** ** The rail-traffic handler *)

Section rail_traffic_handler.
Import ch_sbb.
Context {datetime : Type}.
Variable v_datetime : validator datetime.
Variable repr_datetime : datetime → string.

(** A handler call whose arguments do not build the parameter object
    ends there: the error is logged and raised again, nothing is sent. *)
Lemma handle_rail_traffic_info_invalid (arguments : option (gmap string json)) e w :
  construct "TrafficInfoParams" TrafficInfoParams_fields (as_kwargs arguments) = Raise e →
  handle_rail_traffic_info v_datetime repr_datetime arguments w =
    (Raise e, after_error "Error fetching rail traffic info" e w).
Proof.
  intros H. unfold handle_rail_traffic_info.
  apply try_log_raise. rewrite bind_unfold. unfold lift. rewrite H. reflexivity.
Qed.

(** With parameters in hand, the handler sends exactly the one request
    of its fetch function. *)
Lemma handle_rail_traffic_info_valid (arguments : option (gmap string json)) p w :
  construct "TrafficInfoParams" TrafficInfoParams_fields (as_kwargs arguments) = Return p →
  sent (handle_rail_traffic_info v_datetime repr_datetime arguments w).2 =
    sent w ++ [get_request
                 (BASE_URL +:+ "/catalog/datasets/rail-traffic-information/records")
                 (TrafficInfoParams_model_dump_exclude_none p)].
Proof.
  intros H. unfold handle_rail_traffic_info.
  rewrite (proj1 (try_log_sent _ _ _)).
  rewrite bind_unfold. unfold lift. rewrite H.
  rewrite bind_world by (intros; apply stateless_ret).
  unfold fetch_rail_traffic_info, httpx_get.
  rewrite send_then_world by (intros; apply stateless_decode).
  reflexivity.
Qed.
End rail_traffic_handler.

(** C3, at the input where the code departs from it. Called with no
    arguments, the rail-traffic handler raises [TypeError] (logged, then
    raised again) without building parameters or sending anything; the
    same handler called with the empty mapping builds the all-defaults
    parameters and sends its request, and the transit handler treats
    [None] exactly as the empty mapping. *)
Theorem rail_traffic_handler_None_is_not_empty
    {datetime : Type} (v_datetime : validator datetime)
    (repr_datetime : datetime → string) (w : World) :
  ch_sbb.handle_rail_traffic_info v_datetime repr_datetime None w =
    (Raise TypeError, after_error "Error fetching rail traffic info" TypeError w) ∧
  sent (ch_sbb.handle_rail_traffic_info v_datetime repr_datetime (Some ∅) w).2 =
    sent w ++ [get_request
                 (ch_sbb.BASE_URL +:+ "/catalog/datasets/rail-traffic-information/records")
                 [("limit", JInt 10); ("offset", JInt 0); ("timezone", JStr "UTC");
                  ("include_links", JBool false); ("include_app_metas", JBool false)]] ∧
  ch_public_transit.handle_transitdata None w =
    ch_public_transit.handle_transitdata (Some ∅) w.
Proof.
  split; [|split].
  - by apply handle_rail_traffic_info_invalid.
  - by rewrite (handle_rail_traffic_info_valid _ _ _ TrafficInfoParams_defaults).
  - reflexivity.
Qed.

(** C4. Whatever else the arguments hold, an integer [limit] below 1 or
    above 100 makes the rail-traffic handler raise a [ValidationError]
    that names [limit] with the violated bound; the error is logged, no
    request is sent and no scripted reply is consumed. *)
Theorem rail_traffic_limit_out_of_range_sends_nothing
    {datetime : Type} (v_datetime : validator datetime)
    (repr_datetime : datetime → string)
    (kw : gmap string json) (n : Z) (w : World) :
  kw !! "limit" = Some (JInt n) → (n < 1 ∨ 100 < n)%Z →
  ∃ errs e w',
    ch_sbb.handle_rail_traffic_info v_datetime repr_datetime (Some kw) w =
      (Raise (ValidationError "TrafficInfoParams" errs), w') ∧
    sent w' = sent w ∧ upstream w' = upstream w ∧
    e ∈ errs ∧ err_loc e = [LField "limit"] ∧
    (err_type e = greater_than_equal 1 ∨ err_type e = less_than_equal 100).
Proof.
  intros Hk Hn.
  destruct (limit_out_of_range_fails kw n Hk Hn) as (e & Hf & Hloc & Hty).
  apply (construct_fails_with "TrafficInfoParams") in Hf as (errs & Hc & He).
  exists errs, e,
    (after_error "Error fetching rail traffic info"
       (ValidationError "TrafficInfoParams" errs) w).
  split; [|done].
  by apply handle_rail_traffic_info_invalid.
Qed.

Lemma rail_traffic_limit_out_of_range_sends_nothing_witness :
  ∃ errs e w',
    ch_sbb.handle_rail_traffic_info v_str repr_str
      (Some {[ "limit" := JInt 0; "lang" := JStr "de" ]})
      {| upstream := [ok_reply JNull]; sent := []; error_log := []; stdout := [] |} =
      (Raise (ValidationError "TrafficInfoParams" errs), w') ∧
    sent w' = [] ∧ upstream w' = [ok_reply JNull] ∧
    e ∈ errs ∧ err_loc e = [LField "limit"] ∧
    (err_type e = greater_than_equal 1 ∨ err_type e = less_than_equal 100).
Proof.
  apply (rail_traffic_limit_out_of_range_sends_nothing v_str repr_str
           {[ "limit" := JInt 0; "lang" := JStr "de" ]} 0%Z).
  - vm_compute. reflexivity.
  - left. lia.
Defined.

(** ** The EV-charging request *)

(** C10. The request of the EV-charging fetch does not depend on
    [limit]: two parameter objects with the same [test] give the same
    run, and the one request sent is the base URL, the fixed
    [maxFeatures=10] fragment and [test] as it is. *)
Theorem evcharge_limit_does_not_reach_the_request (l1 l2 : Z) (t : string) (w : World) :
  ch_evcharge.fetch_endpoint_data {| ch_evcharge.limit := l1; ch_evcharge.test := t |} w =
  ch_evcharge.fetch_endpoint_data {| ch_evcharge.limit := l2; ch_evcharge.test := t |} w ∧
  sent (ch_evcharge.fetch_endpoint_data
          {| ch_evcharge.limit := l1; ch_evcharge.test := t |} w).2 =
    sent w ++ [get_request
                 (ch_evcharge.BASE_URL +:+
                    "%3Aevse&maxFeatures=10&outputFormat=application%2Fjson" +:+ t) []].
Proof.
  split; [reflexivity|].
  unfold ch_evcharge.fetch_endpoint_data, httpx_get.
  rewrite send_then_world by (intros; apply stateless_decode).
  reflexivity.
Qed.

(** ** Strings *)

Lemma append_nil_l (b : string) : "" +:+ b = b.
Proof. reflexivity. Qed.

Lemma append_cons (x : ascii) (a b : string) : String x a +:+ b = String x (a +:+ b).
Proof. reflexivity. Qed.

Lemma string_app_assoc (a b c : string) : (a +:+ b) +:+ c = a +:+ (b +:+ c).
Proof.
  induction a as [|x a IH]; [done|].
  by rewrite !append_cons, IH.
Qed.

Lemma string_app_nil_r (a : string) : a +:+ "" = a.
Proof. induction a as [|x a IH]; [done|]. by rewrite append_cons, IH. Qed.

Lemma no_space_app (a b : string) : no_space (a +:+ b) ↔ no_space a ∧ no_space b.
Proof.
  unfold no_space. induction a as [|x a IH].
  - rewrite append_nil_l. simpl. tauto.
  - rewrite append_cons. simpl. rewrite !orb_false_iff, IH. tauto.
Qed.

Lemma no_space_replace (s : string) : no_space (replace " " "%20" s).
Proof.
  unfold no_space. induction s as [|x s IH]; simpl; [done|].
  destruct (Ascii.eqb x " ") eqn:E.
  - change (no_space ("%20" +:+ replace " " "%20" s)).
    apply no_space_app. done.
  - simpl. by rewrite E.
Qed.

Lemma no_space_rstrip c (s : string) : no_space s → no_space (rstrip c s).
Proof.
  unfold no_space. induction s as [|x s IH]; simpl; [done|].
  intros [Hx Hs]%orb_false_iff. specialize (IH Hs).
  destruct (rstrip c s); [destruct (Ascii.eqb x c)|]; simpl in *; rewrite ?Hx; done.
Qed.

(** ** The people-search query string *)

Section people_facts.
Import glob_personal_data people_fields.

(** The loop only ever appends: what it adds does not depend on what
    was there. *)
Lemma fold_append_app (seg : string → string) (items : list string) (acc : string) :
  fold_left (λ query_string item, query_string +:+ seg item) items acc
  = acc +:+ concat_str (seg <$> items).
Proof.
  revert acc. induction items as [|item items IH]; intros acc; simpl.
  - by rewrite string_app_nil_r.
  - rewrite IH. by rewrite string_app_assoc.
Qed.

Lemma fold_items_app (key : string) (items : list string) (acc : string) :
  fold_left (λ query_string item,
               query_string +:+ (key +:+ "[]=" +:+ replace " " "%20" item +:+ "&"))
            items acc
  = acc +:+ concat_str ((λ item, key +:+ "[]=" +:+ replace " " "%20" item +:+ "&")
                          <$> items).
Proof.
  apply (fold_append_app (λ item, key +:+ "[]=" +:+ replace " " "%20" item +:+ "&")).
Qed.

Lemma add_param_app (acc : string) (kv : string * dumped) :
  add_param acc kv = acc +:+ add_param "" kv.
Proof.
  destruct kv as [key [items|s|z]]; simpl; [|done..].
  by rewrite (fold_items_app _ _ acc), (fold_items_app _ _ "").
Qed.

Lemma fold_add_param_app (l : list (string * dumped)) (acc : string) :
  fold_left add_param l acc = acc +:+ fold_left add_param l "".
Proof.
  revert acc. induction l as [|kv l IH]; intros acc; simpl.
  - by rewrite string_app_nil_r.
  - rewrite (IH (add_param acc kv)), (IH (add_param "" kv)).
    by rewrite (add_param_app acc), string_app_assoc.
Qed.

Lemma fold_add_param_concat (l1 l2 : list (string * dumped)) :
  fold_left add_param (l1 ++ l2) "" =
  fold_left add_param l1 "" +:+ fold_left add_param l2 "".
Proof. by rewrite fold_left_app, fold_add_param_app. Qed.

Lemma fold_add_param_list_field (key : string) (o : option (list string)) :
  fold_left add_param (dump_field key DList o) "" =
  concat_str ((λ item, key +:+ "[]=" +:+ replace " " "%20" item +:+ "&")
                <$> default [] o).
Proof. destruct o as [items|]; simpl; [|done]. by rewrite fold_items_app. Qed.

Lemma no_space_concat_str (l : list string) : Forall no_space l → no_space (concat_str l).
Proof.
  induction 1 as [|s l Hs Hl IH]; simpl; [done|]. by apply no_space_app.
Qed.

Lemma no_space_add_param (kv : string * dumped) :
  no_space kv.1 → no_space (add_param "" kv).
Proof.
  destruct kv as [key [items|s|z]]; simpl; intros Hk.
  - rewrite fold_items_app. simpl. apply no_space_concat_str.
    apply Forall_fmap, Forall_forall. intros item _. simpl.
    repeat (apply no_space_app; split); try done. apply no_space_replace.
  - repeat (apply no_space_app; split); try done. apply no_space_replace.
  - repeat (apply no_space_app; split); try done. apply no_space_replace.
Qed.

Lemma no_space_fold_add_param (l : list (string * dumped)) :
  Forall (λ kv, no_space kv.1) l → no_space (fold_left add_param l "").
Proof.
  induction 1 as [|kv l Hkv Hl IH]; simpl; [done|].
  rewrite fold_add_param_app. apply no_space_app. split; [|done].
  by apply no_space_add_param.
Qed.

Lemma no_space_dump_field {A} (key : string) (wrap : A → dumped) (o : option A) :
  no_space key → Forall (λ kv, no_space kv.1) (dump_field key wrap o).
Proof. intros Hk. destruct o; simpl; [by repeat constructor | constructor]. Qed.

Lemma no_space_query_string (p : EndpointParams) : no_space (query_string p).
Proof.
  unfold query_string. apply no_space_fold_add_param.
  unfold EndpointParams_model_dump_exclude_none.
  repeat (apply Forall_app; split); by apply no_space_dump_field.
Qed.

Lemma no_space_endpoint (p : EndpointParams) : no_space (endpoint p).
Proof.
  unfold endpoint. destruct (truthy _); [|done].
  repeat (apply no_space_app; split); try done.
  apply no_space_rstrip, no_space_query_string.
Qed.

Lemma httpx_post_with_key (api_key : string) (p : EndpointParams) :
  httpx_post (endpoint p) (headers (Some api_key)) = send (people_request api_key p).
Proof. reflexivity. Qed.

Lemma fetch_endpoint_data_world (api_key : string) (p : EndpointParams) (w : World) :
  (fetch_endpoint_data (Some api_key) p w).2 = after_request (people_request api_key p) w.
Proof.
  unfold fetch_endpoint_data. rewrite httpx_post_with_key.
  rewrite send_then_world by (intros; apply stateless_decode).
  reflexivity.
Qed.
End people_facts.

(** ** Characters, cutting and splitting *)

Lemma all_chars_app (ok : ascii → bool) (a b : string) :
  all_chars ok (a +:+ b) = all_chars ok a && all_chars ok b.
Proof.
  induction a as [|x a IH]; [done|].
  rewrite append_cons. simpl. by rewrite IH, andb_assoc.
Qed.

Lemma all_chars_impl (ok ok' : ascii → bool) (s : string) :
  (∀ a, ok a = true → ok' a = true) → all_chars ok s = true → all_chars ok' s = true.
Proof.
  intros H. induction s as [|x s IH]; simpl; [done|].
  intros [Hx Hs]%andb_true_iff. by rewrite (H x Hx), IH.
Qed.

Lemma all_chars_without (ok : ascii → bool) (c : ascii) (s : string) :
  ok c = false → all_chars ok s = true → contains_char c s = false.
Proof.
  intros Hc. induction s as [|x s IH]; simpl; [done|].
  intros [Hx Hs]%andb_true_iff. rewrite (IH Hs), orb_false_r.
  destruct (Ascii.eqb_spec x c) as [->|]; [congruence | done].
Qed.

Lemma contains_char_app (c : ascii) (a b : string) :
  contains_char c (a +:+ b) = contains_char c a || contains_char c b.
Proof.
  induction a as [|x a IH]; [done|].
  rewrite append_cons. simpl. by rewrite IH, orb_assoc.
Qed.

Lemma contains_char_replace (c old : ascii) (new s : string) :
  contains_char c new = false → contains_char c s = false →
  contains_char c (replace old new s) = false.
Proof.
  intros Hnew. induction s as [|x s IH]; simpl; [done|].
  intros [Hx Hs]%orb_false_iff. destruct (Ascii.eqb x old).
  - rewrite contains_char_app, Hnew. by apply IH.
  - simpl. rewrite Hx. by apply IH.
Qed.

Lemma cut_absent (c : ascii) (s : string) :
  contains_char c s = false → cut c s = (s, None).
Proof.
  induction s as [|x s IH]; simpl; [done|].
  intros [Hx Hs]%orb_false_iff. by rewrite Hx, IH.
Qed.

Lemma cut_app (c : ascii) (a b : string) :
  contains_char c a = false → cut c (a +:+ String c b) = (a, Some b).
Proof.
  induction a as [|x a IH].
  - intros _. rewrite append_nil_l. simpl. by rewrite Ascii.eqb_refl.
  - rewrite append_cons. simpl. intros [Hx Ha]%orb_false_iff. by rewrite Hx, IH.
Qed.

Lemma split_on_app (c : ascii) (a b : string) :
  contains_char c a = false → split_on c (a +:+ String c b) = a :: split_on c b.
Proof.
  induction a as [|x a IH].
  - intros _. rewrite append_nil_l. simpl. by rewrite Ascii.eqb_refl.
  - rewrite append_cons. simpl. intros [Hx Ha]%orb_false_iff. by rewrite Hx, IH.
Qed.

Lemma concat_str_app (l1 l2 : list string) :
  concat_str (l1 ++ l2) = concat_str l1 +:+ concat_str l2.
Proof.
  induction l1 as [|s l1 IH]; simpl; [done|]. by rewrite IH, string_app_assoc.
Qed.

(** A text made of parts that each end in [c] and hold no other [c]
    splits back into the parts. *)
Lemma split_on_parts (c : ascii) (parts : list string) :
  Forall (λ part, contains_char c part = false) parts →
  split_on c (concat_str ((λ part, part +:+ String c "") <$> parts)) = parts ++ [""].
Proof.
  induction 1 as [|part parts Hpart _ IH]; [done|].
  rewrite fmap_cons. simpl concat_str.
  rewrite string_app_assoc, append_cons, append_nil_l.
  by rewrite split_on_app, IH.
Qed.

Lemma percent_encoded_safe (safe : ascii → bool) (s : string) :
  all_chars safe s = true → percent_encoded safe s = s.
Proof.
  induction s as [|x s IH]; simpl; [done|].
  intros [Hx Hs]%andb_true_iff. by rewrite Hx, IH.
Qed.

Lemma code_points_app (a b : string) :
  code_points (a +:+ b) = (code_points a + code_points b)%Z.
Proof.
  induction a as [|x a IH]; [done|].
  rewrite append_cons. simpl. rewrite IH. lia.
Qed.

Lemma url_plain_app (a b : string) : url_plain (a +:+ b) = url_plain a && url_plain b.
Proof. apply all_chars_app. Qed.

Lemma url_plain_query_safe (s : string) :
  url_plain s = true → all_chars query_safe s = true.
Proof.
  apply all_chars_impl. intros a.
  destruct a as [[] [] [] [] [] [] [] []]; vm_compute; congruence.
Qed.

Lemma url_plain_not_control (s : string) :
  url_plain s = true → all_chars not_control s = true.
Proof.
  apply all_chars_impl. intros a.
  destruct a as [[] [] [] [] [] [] [] []]; vm_compute; congruence.
Qed.

(** The digits of a number. *)
Lemma pretty_N_go_chars (ok : ascii → bool) (x : N) (s : string) :
  (∀ d, ok (pretty_N_char d) = true) → all_chars ok s = true →
  all_chars ok (pretty_N_go x s) = true.
Proof.
  intros Hok. revert s. induction (N.lt_wf_0 x) as [x _ IH]; intros s Hs.
  assert (x = 0 ∨ 0 < x)%N as [->|?] by lia.
  - by rewrite pretty_N_go_0.
  - rewrite pretty_N_go_step by done. apply IH.
    + by apply N.div_lt.
    + simpl. by rewrite Hok, Hs.
Qed.

Lemma str_int_chars (ok : ascii → bool) (z : Z) :
  (∀ d, ok (pretty_N_char d) = true) → ok "-"%char = true →
  all_chars ok (str_int z) = true.
Proof.
  intros Hok Hdash.
  assert (∀ x : positive, all_chars ok (pretty x) = true) as Hpos.
  { intros x. unfold pretty, pretty_positive, pretty, pretty_N.
    destruct (decide _); [done|]. by apply pretty_N_go_chars. }
  unfold str_int, pretty, pretty_Z. destruct z as [|x|x]; [|apply Hpos|].
  - specialize (Hok 0%N). simpl in *. by rewrite Hok.
  - change (all_chars ok (String "-" (pretty x)) = true). simpl.
    by rewrite Hdash, Hpos.
Qed.

Lemma str_int_without (c : ascii) (z : Z) :
  is_digit c = false → c ≠ "-"%char → contains_char c (str_int z) = false.
Proof.
  intros Hc Hd.
  apply (all_chars_without (λ a, is_digit a || Ascii.eqb a "-")).
  - rewrite Hc. simpl. by apply Ascii.eqb_neq.
  - apply str_int_chars; [|done].
    intros d. unfold pretty_N_char. by repeat case_match.
Qed.

Lemma replace_absent (old : ascii) (new s : string) :
  contains_char old s = false → replace old new s = s.
Proof.
  induction s as [|x s IH]; simpl; [done|].
  intros [Hx Hs]%orb_false_iff. by rewrite Hx, IH.
Qed.

(** ** URLs that httpx sends as they are *)

Lemma query_safe_not_control (s : string) :
  all_chars query_safe s = true → all_chars not_control s = true.
Proof.
  apply all_chars_impl. intros a.
  destruct a as [[] [] [] [] [] [] [] []]; vm_compute; congruence.
Qed.

Lemma httpx_url_query (prefix q : string) :
  plain_prefix prefix = true →
  contains_char "?" prefix = false → contains_char "#" prefix = false →
  all_chars not_control prefix = true →
  all_chars query_safe q = true →
  (code_points prefix + 1 + code_points q ≤ 65536)%Z →
  httpx_url (prefix +:+ "?" +:+ q) = Some (prefix +:+ "?" +:+ q).
Proof.
  intros Hp Hq Hf Hc Hs Hlen. unfold httpx_url.
  change ("?" +:+ q) with (String "?" q).
  rewrite code_points_app, all_chars_app, Hc.
  change (code_points (String "?" q)) with (1 + code_points q)%Z.
  change (all_chars not_control (String "?" q)) with (all_chars not_control q).
  rewrite (query_safe_not_control q Hs).
  destruct (Z.ltb_spec 65536 (code_points prefix + (1 + code_points q))); [lia|].
  simpl orb. cbv iota.
  rewrite (cut_absent "#").
  - rewrite cut_app by done. rewrite Hp. simpl from_option.
    by rewrite percent_encoded_safe, string_app_nil_r.
  - rewrite contains_char_app, Hf. simpl.
    by apply (all_chars_without query_safe).
Qed.

Lemma plain_text_query_safe (s : string) :
  plain_text s = true → all_chars query_safe s = true.
Proof. intros [H _]%andb_true_iff. by apply url_plain_query_safe. Qed.

Lemma plain_text_short (s : string) :
  plain_text s = true → (code_points s ≤ 20000)%Z.
Proof. intros [_ H]%andb_true_iff. by apply Z.leb_le. Qed.

Lemma code_points_nonneg (s : string) : (0 ≤ code_points s)%Z.
Proof. induction s as [|a s IH]; simpl; [done|]. case_match; lia. Qed.

(** What [rstrip] leaves of text that follows a part it cannot touch. *)
Lemma rstrip_app_keep (c : ascii) (a t : string) :
  a ≠ "" → ends_with c a = false → rstrip c (a +:+ t) = a +:+ rstrip c t.
Proof.
  induction a as [|x a IH]; [done|]. intros _ He. rewrite append_cons.
  destruct a as [|y a'].
  - rewrite !append_nil_l. simpl in He. simpl. rewrite He.
    by destruct (rstrip c t).
  - change (ends_with c (String x (String y a'))) with (ends_with c (String y a')) in He.
    change (rstrip c (String x (String y a' +:+ t))) with
      (match rstrip c (String y a' +:+ t) with
       | EmptyString => if Ascii.eqb x c then EmptyString else String x EmptyString
       | r => String x r
       end).
    rewrite IH by done. by rewrite append_cons.
Qed.

Lemma all_chars_rstrip (ok : ascii → bool) (c : ascii) (s : string) :
  all_chars ok s = true → all_chars ok (rstrip c s) = true.
Proof.
  induction s as [|x s IH]; simpl; [done|].
  intros [Hx Hs]%andb_true_iff. specialize (IH Hs).
  destruct (rstrip c s); [destruct (Ascii.eqb x c)|]; simpl in *; by rewrite ?Hx.
Qed.

Lemma code_points_cons (x : ascii) (s : string) :
  code_points (String x s) = (code_points (String x "") + code_points s)%Z.
Proof. simpl. lia. Qed.

Lemma code_points_rstrip (c : ascii) (s : string) :
  (code_points (rstrip c s) ≤ code_points s)%Z.
Proof.
  induction s as [|x s IH]; [done|].
  pose proof (code_points_nonneg s). pose proof (code_points_nonneg (String x "")).
  rewrite (code_points_cons x s). simpl rstrip.
  destruct (rstrip c s) as [|y r].
  - destruct (Ascii.eqb x c); [change (code_points "") with 0%Z|]; lia.
  - rewrite (code_points_cons x (String y r)). lia.
Qed.

Section people_list_fields.
Import glob_personal_data people_fields.

Lemma get_without_eq (f : list_field) (p : EndpointParams) : get f (without f p) = None.
Proof. destruct f; reflexivity. Qed.

Lemma get_without_ne (f g : list_field) (p : EndpointParams) :
  g ≠ f → get g (without f p) = get g p.
Proof. destruct f, g; intros Hne; try done; reflexivity. Qed.

(** The dump, seen as the list-valued fields in order followed by the
    three scalar fields. *)
Lemma model_dump_by_fields (p : EndpointParams) :
  EndpointParams_model_dump_exclude_none p =
    (all_list_fields ≫= λ g, dump_field (key g) DList (get g p)) ++
    (dump_field "q_keywords" DStr (q_keywords p) ++
     dump_field "page" DInt (page p) ++
     dump_field "per_page" DInt (per_page p)).
Proof.
  unfold EndpointParams_model_dump_exclude_none, all_list_fields. simpl.
  rewrite app_nil_r, <- !app_assoc. reflexivity.
Qed.

Lemma render_list_fields_without (f : list_field) (p : EndpointParams)
    (fs : list list_field) :
  f ∉ fs →
  (fs ≫= λ g, dump_field (key g) DList (get g (without f p))) =
  (fs ≫= λ g, dump_field (key g) DList (get g p)).
Proof.
  induction fs as [|g fs IH]; [done|].
  rewrite not_elem_of_cons. intros [Hne Hfs].
  rewrite !bind_cons, IH by done. rewrite get_without_ne by done. reflexivity.
Qed.

Lemma query_string_split (p : EndpointParams) (f : list_field) :
  ∃ before after,
    query_string (without f p) = before +:+ after ∧
    query_string p = before +:+ concat_str (keys_of f (default [] (get f p))) +:+ after.
Proof.
  assert (NoDup all_list_fields) as Hnd by compute_done.
  assert (f ∈ all_list_fields) as Hin by (destruct f; compute_done).
  apply list_elem_of_split in Hin as (fs1 & fs2 & Hsplit).
  rewrite Hsplit in Hnd. apply NoDup_app in Hnd as (_ & Hfs1 & Hnd).
  apply NoDup_cons in Hnd as [Hfs2 _].
  assert (f ∉ fs1) as Hfs1' by (intros ?; eapply Hfs1; [done | constructor]).
  exists (fold_left add_param (fs1 ≫= λ g, dump_field (key g) DList (get g p)) "").
  exists (fold_left add_param
            ((fs2 ≫= λ g, dump_field (key g) DList (get g p)) ++
             (dump_field "q_keywords" DStr (q_keywords p) ++
              dump_field "page" DInt (page p) ++
              dump_field "per_page" DInt (per_page p))) "").
  unfold query_string. rewrite !model_dump_by_fields, Hsplit.
  rewrite !bind_app, !bind_cons.
  rewrite !render_list_fields_without by done.
  rewrite get_without_eq. simpl dump_field at 2. rewrite app_nil_l.
  rewrite <- !app_assoc.
  split.
  - rewrite fold_add_param_concat. reflexivity.
  - rewrite fold_add_param_concat.
    rewrite (fold_add_param_concat (dump_field _ _ _)).
    rewrite fold_add_param_list_field. reflexivity.
Qed.

Lemma query_string_keywords (p : EndpointParams) :
  ∃ before after,
    query_string p =
      before +:+
      match q_keywords p with
      | Some s => "q_keywords=" +:+ replace " " "%20" s +:+ "&"
      | None => ""
      end +:+ after.
Proof.
  exists (fold_left add_param
            (all_list_fields ≫= λ g, dump_field (key g) DList (get g p)) "").
  exists (fold_left add_param
            (dump_field "page" DInt (page p) ++ dump_field "per_page" DInt (per_page p)) "").
  unfold query_string. rewrite model_dump_by_fields.
  rewrite fold_add_param_concat, (fold_add_param_concat (dump_field _ _ _)).
  destruct (q_keywords p); reflexivity.
Qed.
End people_list_fields.

(** ** The query string, key by key *)

Section people_query_facts.
Import glob_personal_data people_fields people_query.

Lemma list_fields_expected (p : EndpointParams) (fs : list list_field) :
  fold_left add_param (fs ≫= λ g, dump_field (key g) DList (get g p)) "" =
  concat_str ((λ k, k +:+ "&") <$> (fs ≫= λ f, list_key f <$> default [] (get f p))).
Proof.
  induction fs as [|f fs IH]; [done|].
  rewrite !bind_cons, fold_add_param_concat, fmap_app, concat_str_app, IH.
  f_equal. rewrite fold_add_param_list_field, <- list_fmap_compose.
  f_equal. apply list_fmap_ext. intros _ item _. simpl. unfold list_key.
  by rewrite !string_app_assoc.
Qed.

Lemma scalar_expected {A} (name : string) (wrap : A → dumped) (text : A → string)
    (o : option A) :
  (∀ a, add_param "" (name, wrap a) = scalar_key name (text a) +:+ "&") →
  fold_left add_param (dump_field name wrap o) "" =
  concat_str ((λ k, k +:+ "&") <$> scalar_opt name (text <$> o)).
Proof.
  intros H. destruct o as [a|]; [|done].
  change (add_param "" (name, wrap a) = (scalar_key name (text a) +:+ "&") +:+ "").
  by rewrite H, string_app_nil_r.
Qed.

Lemma query_string_expected (p : EndpointParams) : query_string p = expected p.
Proof.
  unfold query_string, expected, keys.
  rewrite model_dump_by_fields, !fold_add_param_concat, !fmap_app, !concat_str_app.
  rewrite list_fields_expected.
  rewrite (scalar_expected "q_keywords" DStr (λ s, s)), (scalar_expected "page" DInt str_int),
    (scalar_expected "per_page" DInt str_int).
  - by destruct (q_keywords p).
  - intros z. simpl. unfold scalar_key. by rewrite !string_app_assoc.
  - intros z. simpl. unfold scalar_key. by rewrite !string_app_assoc.
  - intros z. simpl. unfold scalar_key. by rewrite !string_app_assoc.
Qed.

Lemma key_without_ampersand (f : list_field) : contains_char "&" (key f) = false.
Proof. by destruct f. Qed.

Lemma key_in (k : string) (p : EndpointParams) :
  k ∈ keys p →
  (∃ f item, item ∈ text_values p ∧ k = list_key f item) ∨
  (∃ s, s ∈ text_values p ∧ k = scalar_key "q_keywords" s) ∨
  (∃ z, k = scalar_key "page" (str_int z) ∨ k = scalar_key "per_page" (str_int z)).
Proof.
  unfold keys, text_values. rewrite !elem_of_app.
  intros [Hk|[Hk|[Hk|Hk]]].
  - left. apply list_elem_of_bind in Hk as (f & Hk & Hf).
    apply list_elem_of_fmap in Hk as (item & -> & Hitem).
    exists f, item. split; [|done].
    apply elem_of_app. left. apply list_elem_of_bind. eauto.
  - right. left. destruct (q_keywords p) as [s|]; [|by apply elem_of_nil in Hk].
    apply list_elem_of_singleton in Hk as ->. exists s. split; [|done].
    apply elem_of_app. right. constructor.
  - right. right. destruct (page p) as [z|]; [|by apply elem_of_nil in Hk].
    apply list_elem_of_singleton in Hk as ->. eauto.
  - right. right. destruct (per_page p) as [z|]; [|by apply elem_of_nil in Hk].
    apply list_elem_of_singleton in Hk as ->. eauto.
Qed.

Lemma keys_without_ampersand (p : EndpointParams) :
  no_ampersand p = true → Forall (λ k, contains_char "&" k = false) (keys p).
Proof.
  unfold no_ampersand. rewrite forallb_forall. intros Hp.
  assert (∀ v, v ∈ text_values p →
            contains_char "&" (replace " " "%20" v) = false) as Hv.
  { intros v Hin%list_elem_of_In%Hp. apply contains_char_replace; [done|].
    by apply negb_true_iff. }
  assert (∀ z, contains_char "&" (replace " " "%20" (str_int z)) = false) as Hz.
  { intros z. apply contains_char_replace; [done|]. by apply str_int_without. }
  apply Forall_forall.
  intros k [(f & item & Hin & ->)|[(s & Hin & ->)|(z & [->| ->])]]%key_in.
  - unfold list_key. rewrite !contains_char_app, key_without_ampersand. simpl. by apply Hv.
  - unfold scalar_key. rewrite !contains_char_app. simpl. by apply Hv.
  - unfold scalar_key. rewrite !contains_char_app. simpl. apply Hz.
  - unfold scalar_key. rewrite !contains_char_app. simpl. apply Hz.
Qed.

(** Which keys belong to field [f]. *)
Lemma list_key_starts_with (f g : list_field) (item : string) :
  starts_with (key f +:+ "[]=") (list_key g item) = bool_decide (f = g).
Proof. destruct f, g; vm_compute; reflexivity. Qed.

Lemma scalar_key_starts_with (f : list_field) (name value : string) :
  name ∈ ["q_keywords"; "page"; "per_page"] →
  starts_with (key f +:+ "[]=") (scalar_key name value) = false.
Proof.
  rewrite !elem_of_cons, elem_of_nil.
  intros [->|[->|[->|[]]]]; destruct f; vm_compute; reflexivity.
Qed.

Lemma filter_list_keys (f g : list_field) (items : list string) :
  filter (λ part, starts_with (key f +:+ "[]=") part = true) (list_key g <$> items) =
  if bool_decide (f = g) then list_key g <$> items else [].
Proof.
  induction items as [|item items IH]; [by destruct (bool_decide _)|].
  rewrite fmap_cons. destruct (bool_decide (f = g)) eqn:E.
  - rewrite filter_cons_True by (by rewrite list_key_starts_with). by rewrite IH.
  - rewrite filter_cons_False by (by rewrite list_key_starts_with, E). done.
Qed.

Lemma filter_scalar_opt (f : list_field) (name : string) (value : option string) :
  name ∈ ["q_keywords"; "page"; "per_page"] →
  filter (λ part, starts_with (key f +:+ "[]=") part = true) (scalar_opt name value) = [].
Proof.
  intros Hname. destruct value as [v|]; [|done]. simpl.
  by rewrite filter_cons_False by (by rewrite scalar_key_starts_with).
Qed.

Lemma count_key_expected (p : EndpointParams) (f : list_field) :
  no_ampersand p = true → count_key f (expected p) = length (default [] (get f p)).
Proof.
  intros Hp. unfold count_key, expected.
  rewrite (split_on_parts "&") by by apply keys_without_ampersand.
  rewrite filter_app.
  rewrite (filter_cons_False _ "") by (by destruct f).
  rewrite filter_nil, app_nil_r. unfold keys.
  rewrite !filter_app, !filter_scalar_opt, !app_nil_r by (repeat constructor).
  unfold all_list_fields. rewrite !bind_cons.
  rewrite !filter_app, !filter_list_keys.
  destruct f;
    repeat (rewrite bool_decide_eq_true_2 by done
            || rewrite bool_decide_eq_false_2 by done);
    simpl; rewrite ?app_nil_r; by rewrite length_fmap.
Qed.
End people_query_facts.

(** C7. The query string of the people search is a function of the
    parameter object alone, and it is the text the object's keys make
    up: one [field[]=item&] per list item and one [name=value&] per
    single value that is set, in field order, with every space of a
    value, list items included, written [%20]; no space is left in it.
    Fetching in any two worlds, or twice in a row, makes the same
    requests, and a request made carries the URL built from that query
    string. *)
Theorem people_search_query_is_reproducible
    (api_key : string) (p : glob_personal_data.EndpointParams) (w1 w2 : World) :
  let fetch := glob_personal_data.fetch_endpoint_data (Some api_key) p in
  glob_personal_data.query_string p = people_query.expected p ∧
  no_space (glob_personal_data.query_string p) ∧
  new_requests w1 (fetch w1).2 = new_requests w2 (fetch w2).2 ∧
  new_requests (fetch w1).2 (fetch (fetch w1).2).2 = new_requests w1 (fetch w1).2 ∧
  ∀ req, req ∈ new_requests w1 (fetch w1).2 →
    url req =
      (if String.eqb (glob_personal_data.query_string p) ""
       then glob_personal_data.BASE_URL
       else glob_personal_data.BASE_URL +:+
              ("?" +:+ rstrip "&" (glob_personal_data.query_string p))).
Proof.
  intros fetch. subst fetch.
  assert (∀ w, new_requests w (glob_personal_data.fetch_endpoint_data (Some api_key) p w).2
               = [people_request api_key p]) as Hnew.
  { intros w. rewrite fetch_endpoint_data_world. by apply new_requests_one. }
  rewrite !Hnew.
  split; [apply query_string_expected|]. split; [apply no_space_query_string|].
  split; [done|]. split; [done|].
  intros req ->%list_elem_of_singleton. simpl.
  unfold glob_personal_data.endpoint, truthy. destruct (String.eqb _ _); reflexivity.
Qed.




(** C9 (as amended). The people-search fetch sends exactly one POST. Its
    URL is the base URL followed, when the query string is not empty, by
    [?] and the query string without its trailing [&]; the call carries
    the four static headers and no body. With no API key configured the
    call raises before anything is sent. *)
Theorem people_search_query_goes_in_the_url
    (api_key : string) (p : glob_personal_data.EndpointParams) (w : World) :
  sent (glob_personal_data.fetch_endpoint_data (Some api_key) p w).2 =
    sent w ++ [people_request api_key p] ∧
  method (people_request api_key p) = POST ∧
  content (people_request api_key p) = None ∧
  params (people_request api_key p) = [] ∧
  url (people_request api_key p) =
    (if String.eqb (glob_personal_data.query_string p) ""
     then glob_personal_data.BASE_URL
     else glob_personal_data.BASE_URL +:+
            ("?" +:+ rstrip "&" (glob_personal_data.query_string p))) ∧
  glob_personal_data.fetch_endpoint_data None p w = (Raise TypeError, w).
Proof.
  rewrite fetch_endpoint_data_world. repeat split.
  simpl. unfold glob_personal_data.endpoint, truthy.
  destruct (String.eqb _ _); reflexivity.
Qed.

(** C9 (as stated) fails: for a search by one job title the single POST
    has the rendered parameters in its URL and carries no body. *)
Lemma people_search_request_has_no_body :
  sent (glob_personal_data.fetch_endpoint_data (Some "secret")
          {| glob_personal_data.person_titles := Some ["software engineer"];
             glob_personal_data.person_locations := None;
             glob_personal_data.person_seniorities := None;
             glob_personal_data.organization_locations := None;
             glob_personal_data.q_organization_domains := None;
             glob_personal_data.contact_email_status := None;
             glob_personal_data.organization_ids := None;
             glob_personal_data.organization_num_employees_ranges := None;
             glob_personal_data.q_keywords := None;
             glob_personal_data.page := Some 1%Z;
             glob_personal_data.per_page := None |}
          {| upstream := [ok_reply (JObj {[ "people" := JNull ]})];
             sent := []; error_log := []; stdout := [] |}).2 =
  [ {| method := POST;
       url := "https://api.apollo.io/api/v1/mixed_people/search?person_titles[]=software%20engineer&page=1";
       params := [];
       headers := [("accept", "application/json"); ("Cache-Control", "no-cache");
                   ("Content-Type", "application/json"); ("x-api-key", "secret")];
       content := None |} ].
Proof. vm_compute. reflexivity. Qed.

(** ** The transit response schema *)

Lemma lookup_kw_nil (k : string) : (list_to_map [] : gmap string json) !! k = None.
Proof. apply lookup_empty. Qed.

Lemma lookup_kw_here (k : string) (v : json) (l : list (string * json)) :
  (list_to_map ((k, v) :: l) : gmap string json) !! k = Some v.
Proof. apply lookup_insert_eq. Qed.

Lemma lookup_kw_next (k k' : string) (v : json) (l : list (string * json)) :
  k ≠ k' → (list_to_map ((k', v) :: l) : gmap string json) !! k
          = (list_to_map l : gmap string json) !! k.
Proof. intros Hne. by apply lookup_insert_ne. Qed.

Ltac kw_lookup :=
  repeat first [ rewrite lookup_kw_here
               | rewrite lookup_kw_next by done
               | rewrite lookup_kw_nil ].

Lemma v_items_fmap_valid {A} (v : validator A) (to_json : A → json) (l : list A) (i : nat) :
  (∀ x, v (to_json x) = Valid x) → v_items v i (to_json <$> l) = Valid l.
Proof.
  intros Hv. revert i. induction l as [|x l IH]; intros i; [done|].
  rewrite fmap_cons. simpl. by rewrite Hv, IH.
Qed.

Lemma v_items_fails_with {A} (v : validator A) (l : list json) (n i : nat) j e :
  l !! i = Some j → fails_with e (v j) →
  fails_with {| err_loc := LIndex (n + i) :: err_loc e; err_type := err_type e |}
             (v_items v n l).
Proof.
  revert n i. induction l as [|j' l IH]; intros n i Hi Hf; [done|].
  simpl. destruct i as [|i]; simpl in Hi.
  - injection Hi as ->. apply fails_with_ap_l, fails_with_fmap.
    rewrite Nat.add_0_r. by apply fails_with_at_loc.
  - apply fails_with_ap_r. replace (n + S i)%nat with (S n + i)%nat by lia.
    by apply IH.
Qed.

Lemma required_missing {A} (key : string) (v : validator A) (kw : gmap string json) :
  kw !! key = None →
  required key v kw = Invalid [ {| err_loc := [LField key]; err_type := missing |} ].
Proof. intros H. unfold required. by rewrite H. Qed.

Lemma required_fails_with {A} (key : string) (v : validator A) (kw : gmap string json) j e :
  kw !! key = Some j → fails_with e (v j) →
  fails_with {| err_loc := LField key :: err_loc e; err_type := err_type e |}
             (required key v kw).
Proof. intros H Hf. unfold required. rewrite H. by apply fails_with_at_loc. Qed.

Section transit_facts.
Import ch_public_transit transit_json.

Lemma Location_round_trip (x : Location) :
  v_model Location_fields (of_Location x) = Valid x.
Proof.
  unfold of_Location, v_model, Location_fields, required. kw_lookup.
  destruct x; reflexivity.
Qed.

Lemma Stop_round_trip (exclude_none : bool) (x : Stop) :
  v_model Stop_fields (of_Stop exclude_none x) = Valid x.
Proof.
  unfold of_Stop, v_model, Stop_fields, required, with_default.
  destruct x as [st [a|] [d|] [n|]], exclude_none; simpl app;
    kw_lookup; rewrite Location_round_trip; reflexivity.
Qed.

Lemma Departure_round_trip (x : Departure) :
  v_model Departure_fields (of_Departure x) = Valid x.
Proof.
  unfold of_Departure, v_model, Departure_fields, required. kw_lookup.
  rewrite Location_round_trip. destruct x; reflexivity.
Qed.

Lemma Arrival_round_trip (x : Arrival) :
  v_model Arrival_fields (of_Arrival x) = Valid x.
Proof.
  unfold of_Arrival, v_model, Arrival_fields, required. kw_lookup.
  rewrite Location_round_trip. destruct x; reflexivity.
Qed.

Lemma Route_round_trip (exclude_none : bool) (x : Route) :
  v_model Route_fields (of_Route exclude_none x) = Valid x.
Proof.
  unfold of_Route, v_model, Route_fields, required. kw_lookup.
  unfold v_list. rewrite (v_items_fmap_valid _ _ _ _ (Stop_round_trip exclude_none)).
  destruct x; reflexivity.
Qed.

Lemma TransitOption_round_trip (exclude_none : bool) (x : TransitOption) :
  v_model TransitOption_fields (of_TransitOption exclude_none x) = Valid x.
Proof.
  unfold of_TransitOption, v_model, TransitOption_fields, required. kw_lookup.
  rewrite Route_round_trip. destruct x; reflexivity.
Qed.

Lemma PublicTransitResult_round_trip (exclude_none : bool) (x : PublicTransitResult) :
  v_model PublicTransitResult_fields (of_PublicTransitResult exclude_none x) = Valid x.
Proof.
  unfold of_PublicTransitResult, v_model, PublicTransitResult_fields, required. kw_lookup.
  unfold v_list.
  rewrite (v_items_fmap_valid _ _ _ _ (TransitOption_round_trip exclude_none)).
  rewrite Departure_round_trip, Arrival_round_trip.
  destruct x; reflexivity.
Qed.

Lemma Public_TransitResponse_round_trip (exclude_none : bool) (x : Public_TransitResponse) :
  construct "Public_TransitResponse" Public_TransitResponse_fields
    (of_Public_TransitResponse exclude_none x) = Return x.
Proof.
  unfold of_Public_TransitResponse, construct, Public_TransitResponse_fields, required.
  kw_lookup. unfold v_list.
  rewrite (v_items_fmap_valid _ _ _ _ (PublicTransitResult_round_trip exclude_none)).
  destruct x; reflexivity.
Qed.

Lemma PublicTransitResult_missing_key (o : gmap string json) (k : string) :
  k ∈ required_keys → o !! k = None →
  fails_with {| err_loc := [LField k]; err_type := missing |}
             (v_model PublicTransitResult_fields (JObj o)).
Proof.
  unfold required_keys. rewrite !elem_of_cons, elem_of_nil.
  intros Hk Ho. unfold v_model, PublicTransitResult_fields.
  assert (∀ A (v : validator A),
            fails_with {| err_loc := [LField k]; err_type := missing |} (required k v o))
    as Hreq.
  { intros A v. rewrite required_missing by done. eexists. split; [done | constructor]. }
  destruct Hk as [->|[->|[->|[->|[->|[]]]]]].
  - do 4 apply fails_with_ap_l. apply fails_with_fmap, Hreq.
  - do 3 apply fails_with_ap_l. apply fails_with_ap_r, Hreq.
  - do 2 apply fails_with_ap_l. apply fails_with_ap_r, Hreq.
  - do 1 apply fails_with_ap_l. apply fails_with_ap_r, Hreq.
  - apply fails_with_ap_r, Hreq.
Qed.

Lemma connections_entry_missing_key (items : list json) (i : nat)
    (o : gmap string json) (k : string) :
  items !! i = Some (JObj o) → k ∈ required_keys → o !! k = None →
  ∃ errs,
    construct "Public_TransitResponse" Public_TransitResponse_fields
      (JObj {[ "connections" := JArr items ]})
    = Raise (ValidationError "Public_TransitResponse" errs) ∧
    {| err_loc := [LField "connections"; LIndex i; LField k]; err_type := missing |}
      ∈ errs.
Proof.
  intros Hi Hk Ho. apply construct_fails_with.
  unfold Public_TransitResponse_fields. apply fails_with_fmap.
  apply (required_fails_with _ _ _ (JArr items)
           {| err_loc := [LIndex i; LField k]; err_type := missing |});
    [apply lookup_singleton_eq|].
  unfold v_list.
  apply (v_items_fails_with _ _ 0 i (JObj o)
           {| err_loc := [LField k]; err_type := missing |}); [done|].
  by apply PublicTransitResult_missing_key.
Qed.

Lemma fetch_transit_data_ok_reply (p : Public_TransitParams) (data : json)
    (rest : list reply) (w : World) :
  upstream w = ok_reply data :: rest →
  fetch_transit_data p w =
    (construct "Public_TransitResponse" Public_TransitResponse_fields data,
     after_request
       (get_request (BASE_URL +:+ "from=" +:+ origin p +:+ "&to=" +:+ fmt_opt_str (to p)) [])
       w).
Proof.
  intros Hw. unfold fetch_transit_data, httpx_get.
  rewrite bind_unfold. fold (get_request
    (BASE_URL +:+ "from=" +:+ origin p +:+ "&to=" +:+ fmt_opt_str (to p)) []).
  rewrite (send_ok_reply _ data rest) by done.
  apply decode_ok_reply.
Qed.
End transit_facts.

(** A response that parses has every required field, at every depth. *)

Lemma required_valid_inv {A} (key : string) (v : validator A) (kw : gmap string json) a :
  required key v kw = Valid a → ∃ j, kw !! key = Some j ∧ v j = Valid a.
Proof.
  unfold required. destruct (kw !! key) as [j|]; [|done].
  intros H%at_loc_valid_inv. eauto.
Qed.

Lemma v_items_valid_each {A} (v : validator A) (check : json → bool) (l : list json)
    (i : nat) (xs : list A) :
  (∀ j a, v j = Valid a → check j = true) →
  v_items v i l = Valid xs → forallb check l = true.
Proof.
  intros Hv. revert i xs. induction l as [|j l IH]; intros i xs; [done|].
  simpl. intros (g & tl & Hhd & Htl & _)%v_ap_valid_inv.
  apply fmap_valid_inv in Hhd as (a & Ha%at_loc_valid_inv & _).
  by rewrite (Hv j a Ha), (IH _ _ Htl).
Qed.

Lemma v_list_valid_each {A} (v : validator A) (check : json → bool) (j : json)
    (xs : list A) :
  (∀ j a, v j = Valid a → check j = true) →
  v_list v j = Valid xs → each check j = true.
Proof.
  intros Hv. destruct j; try done. simpl. by apply v_items_valid_each.
Qed.

Ltac invert_fields H :=
  repeat (apply v_ap_valid_inv in H; destruct H as (? & ? & H & ? & _));
  apply fmap_valid_inv in H; destruct H as (? & H & _);
  repeat match goal with
         | R : required _ _ _ = Valid _ |- _ =>
             apply required_valid_inv in R; destruct R as (? & ? & ?)
         end.

Ltac keyed_lookups :=
  unfold keyed, has_key; cbn [forallb fst snd];
  repeat match goal with
         | L : ?kw !! _ = Some _ |- _ => rewrite L; clear L
         end;
  cbn [andb].

Ltac close_keyed :=
  keyed_lookups;
  repeat match goal with
         | L : _ = true |- _ => rewrite L; clear L
         end;
  reflexivity.

Section transit_required_facts.
Import ch_public_transit.

Lemma Location_required j a :
  v_model Location_fields j = Valid a → transit_required.Location j = true.
Proof.
  destruct j; try done. unfold v_model, Location_fields. intros H.
  invert_fields H. unfold transit_required.Location. close_keyed.
Qed.

Lemma Stop_required j a :
  v_model Stop_fields j = Valid a → transit_required.Stop j = true.
Proof.
  destruct j; try done. unfold v_model, Stop_fields. intros H.
  invert_fields H. unfold transit_required.Stop.
  match goal with L : v_model Location_fields _ = _ |- _ =>
    apply Location_required in L end.
  close_keyed.
Qed.

Lemma Departure_required j a :
  v_model Departure_fields j = Valid a → transit_required.Departure j = true.
Proof.
  destruct j; try done. unfold v_model, Departure_fields. intros H.
  invert_fields H. unfold transit_required.Departure.
  match goal with L : v_model Location_fields _ = _ |- _ =>
    apply Location_required in L end.
  close_keyed.
Qed.

Lemma Arrival_required j a :
  v_model Arrival_fields j = Valid a → transit_required.Arrival j = true.
Proof.
  destruct j; try done. unfold v_model, Arrival_fields. intros H.
  invert_fields H. unfold transit_required.Arrival.
  match goal with L : v_model Location_fields _ = _ |- _ =>
    apply Location_required in L end.
  close_keyed.
Qed.

Lemma Route_required j a :
  v_model Route_fields j = Valid a → transit_required.Route j = true.
Proof.
  destruct j; try done. unfold v_model, Route_fields. intros H.
  invert_fields H. unfold transit_required.Route.
  match goal with L : v_list (v_model Stop_fields) _ = _ |- _ =>
    apply (v_list_valid_each _ transit_required.Stop) in L; [|apply Stop_required] end.
  close_keyed.
Qed.

Lemma TransitOption_required j a :
  v_model TransitOption_fields j = Valid a → transit_required.TransitOption j = true.
Proof.
  destruct j; try done. unfold v_model, TransitOption_fields. intros H.
  invert_fields H. unfold transit_required.TransitOption.
  match goal with L : v_model Route_fields _ = _ |- _ =>
    apply Route_required in L end.
  close_keyed.
Qed.

Lemma PublicTransitResult_required j a :
  v_model PublicTransitResult_fields j = Valid a →
  transit_required.PublicTransitResult j = true.
Proof.
  destruct j; try done. unfold v_model, PublicTransitResult_fields. intros H.
  invert_fields H. unfold transit_required.PublicTransitResult.
  match goal with L : v_model Departure_fields _ = _ |- _ =>
    apply Departure_required in L end.
  match goal with L : v_model Arrival_fields _ = _ |- _ =>
    apply Arrival_required in L end.
  match goal with L : v_list (v_model TransitOption_fields) _ = _ |- _ =>
    apply (v_list_valid_each _ transit_required.TransitOption) in L;
      [|apply TransitOption_required] end.
  close_keyed.
Qed.

Lemma Public_TransitResponse_required (kw : gmap string json) a :
  Public_TransitResponse_fields kw = Valid a →
  transit_required.Public_TransitResponse (JObj kw) = true.
Proof.
  unfold Public_TransitResponse_fields. intros H.
  invert_fields H. unfold transit_required.Public_TransitResponse.
  match goal with L : v_list (v_model PublicTransitResult_fields) _ = _ |- _ =>
    apply (v_list_valid_each _ transit_required.PublicTransitResult) in L;
      [|apply PublicTransitResult_required] end.
  close_keyed.
Qed.

Lemma Public_TransitResponse_incomplete (kw : gmap string json) :
  transit_required.Public_TransitResponse (JObj kw) = false →
  ∃ errs,
    construct "Public_TransitResponse" Public_TransitResponse_fields (JObj kw)
    = Raise (ValidationError "Public_TransitResponse" errs).
Proof.
  intros Hinc. simpl. destruct (Public_TransitResponse_fields kw) as [errs|a] eqn:E.
  - by exists errs.
  - apply Public_TransitResponse_required in E. congruence.
Qed.
End transit_required_facts.

Lemma or_empty_Some (kw : gmap string json) : or_empty (Some kw) = JObj kw.
Proof.
  unfold or_empty, truthy. destruct (bool_decide (size kw = 0)) eqn:E; [|done].
  apply bool_decide_eq_true in E. apply map_size_empty_inv in E. by subst.
Qed.

(** C6. A JSON document that matches the transit response schema exactly
    (optional values written [null] or left out) parses to the object it
    was written from, directly and through [fetch_transit_data]; a
    document in which some object, at any depth, lacks a key its model
    requires makes the response model raise a [ValidationError], which
    the fetch passes on; for [connections] and for the keys of a
    connection entry the error is shown to name the missing field. *)
Theorem transit_response_round_trip
    (exclude_none : bool) (r : ch_public_transit.Public_TransitResponse)
    (p : ch_public_transit.Public_TransitParams) (rest : list reply) (w : World) :
  let parse := construct "Public_TransitResponse"
                 ch_public_transit.Public_TransitResponse_fields in
  parse (transit_json.of_Public_TransitResponse exclude_none r) = Return r ∧
  (upstream w = ok_reply (transit_json.of_Public_TransitResponse exclude_none r) :: rest →
   (ch_public_transit.fetch_transit_data p w).1 = Return r) ∧
  (∀ kw, kw !! "connections" = None →
     parse (JObj kw) =
       Raise (ValidationError "Public_TransitResponse"
                [ {| err_loc := [LField "connections"]; err_type := missing |} ]) ∧
     (upstream w = ok_reply (JObj kw) :: rest →
      (ch_public_transit.fetch_transit_data p w).1 =
        Raise (ValidationError "Public_TransitResponse"
                 [ {| err_loc := [LField "connections"]; err_type := missing |} ]))) ∧
  (∀ items i o k,
     items !! i = Some (JObj o) → k ∈ transit_json.required_keys → o !! k = None →
     ∃ errs,
       parse (JObj {[ "connections" := JArr items ]}) =
         Raise (ValidationError "Public_TransitResponse" errs) ∧
       {| err_loc := [LField "connections"; LIndex i; LField k]; err_type := missing |}
         ∈ errs) ∧
  (∀ kw, transit_required.Public_TransitResponse (JObj kw) = false →
     ∃ errs,
       parse (JObj kw) = Raise (ValidationError "Public_TransitResponse" errs) ∧
       (upstream w = ok_reply (JObj kw) :: rest →
        (ch_public_transit.fetch_transit_data p w).1 =
          Raise (ValidationError "Public_TransitResponse" errs))).
Proof.
  intros parse. subst parse.
  assert (∀ kw : gmap string json, kw !! "connections" = None →
            construct "Public_TransitResponse"
              ch_public_transit.Public_TransitResponse_fields (JObj kw) =
            Raise (ValidationError "Public_TransitResponse"
                     [ {| err_loc := [LField "connections"]; err_type := missing |} ]))
    as Hmissing.
  { intros kw Hkw. simpl. unfold ch_public_transit.Public_TransitResponse_fields.
    by rewrite required_missing. }
  split; [apply Public_TransitResponse_round_trip|].
  split; [|split; [|split]].
  - intros Hw. rewrite (fetch_transit_data_ok_reply _ _ rest) by done.
    apply Public_TransitResponse_round_trip.
  - intros kw Hkw. split; [by apply Hmissing|].
    intros Hw. rewrite (fetch_transit_data_ok_reply _ _ rest) by done.
    by apply Hmissing.
  - apply connections_entry_missing_key.
  - intros kw Hkw. destruct (Public_TransitResponse_incomplete kw Hkw) as [errs Herrs].
    exists errs. split; [done|].
    intros Hw. by rewrite (fetch_transit_data_ok_reply _ (JObj kw) rest).
Qed.

Lemma transit_response_round_trip_witness :
  (ch_public_transit.fetch_transit_data
     {| ch_public_transit.origin := "Bern"; ch_public_transit.to := Some "Basel" |}
     {| upstream := [ok_reply (transit_json.of_Public_TransitResponse true sample_response)];
        sent := []; error_log := []; stdout := [] |}).1 = Return sample_response ∧
  construct "Public_TransitResponse" ch_public_transit.Public_TransitResponse_fields
    (JObj {[ "results" := JArr [] ]}) =
  Raise (ValidationError "Public_TransitResponse"
           [ {| err_loc := [LField "connections"]; err_type := missing |} ]) ∧
  ∃ errs,
    (ch_public_transit.fetch_transit_data
       {| ch_public_transit.origin := "Bern"; ch_public_transit.to := Some "Basel" |}
       {| upstream := [ok_reply (JObj sample_without_station_name)];
          sent := []; error_log := []; stdout := [] |}).1
    = Raise (ValidationError "Public_TransitResponse" errs).
Proof.
  split; [|split].
  - apply (proj1 (proj2 (transit_response_round_trip true sample_response
                           {| ch_public_transit.origin := "Bern";
                              ch_public_transit.to := Some "Basel" |} []
                           {| upstream := [ok_reply (transit_json.of_Public_TransitResponse
                                                       true sample_response)];
                              sent := []; error_log := []; stdout := [] |}))).
    reflexivity.
  - apply (proj1 (proj2 (proj2 (transit_response_round_trip true sample_response
                           {| ch_public_transit.origin := "Bern";
                              ch_public_transit.to := Some "Basel" |} [] empty_world)))).
    vm_compute. reflexivity.
  - destruct (proj2 (proj2 (proj2 (proj2 (transit_response_round_trip true sample_response
                {| ch_public_transit.origin := "Bern";
                   ch_public_transit.to := Some "Basel" |} []
                {| upstream := [ok_reply (JObj sample_without_station_name)];
                   sent := []; error_log := []; stdout := [] |}))))
               sample_without_station_name) as (errs & _ & Hfetch).
    + vm_compute. reflexivity.
    + exists errs. apply Hfetch. reflexivity.
Defined.

(** ** The transit handler, end to end *)

Section transit_handler.
Import ch_public_transit.

Lemma Public_TransitParams_origin_to (o t : string) :
  construct "Public_TransitParams" Public_TransitParams_fields
    (JObj {[ "origin" := JStr o; "to" := JStr t ]})
  = Return {| origin := o; to := Some t |}.
Proof.
  simpl. unfold Public_TransitParams_fields, required, with_default.
  rewrite lookup_insert_eq.
  rewrite lookup_insert_ne by done. rewrite lookup_singleton_eq.
  reflexivity.
Qed.

Lemma handle_transitdata_ok_reply (kw : gmap string json) (p : Public_TransitParams)
    (data : json) (r : Public_TransitResponse) (rest : list reply) (w : World) :
  construct "Public_TransitParams" Public_TransitParams_fields (JObj kw) = Return p →
  upstream w = ok_reply data :: rest →
  construct "Public_TransitResponse" Public_TransitResponse_fields data = Return r →
  handle_transitdata (Some kw) w =
    (Return [ {| type := "text"; text := Public_TransitResponse_str r |} ],
     after_request
       (get_request (BASE_URL +:+ "from=" +:+ origin p +:+ "&to=" +:+ fmt_opt_str (to p)) [])
       w).
Proof.
  intros Hp Hw Hr. unfold handle_transitdata. apply try_log_return.
  rewrite or_empty_Some, bind_unfold. unfold lift. rewrite Hp.
  rewrite bind_unfold, (fetch_transit_data_ok_reply _ data rest) by done.
  rewrite Hr. reflexivity.
Qed.
End transit_handler.



(** ** The paged emissions fetch *)

Section emissions_facts.
Import glob_emissions.

Lemma rstrip_head (a c : ascii) (s : string) :
  Ascii.eqb a c = false → rstrip c (String a s) = String a (rstrip c s).
Proof. intros H. simpl. rewrite H. by destruct (rstrip c s). Qed.

Lemma first_endpoint_truthy (params : option EndpointParams) :
  truthy (JStr (first_endpoint params)) = true.
Proof.
  unfold first_endpoint. destruct params as [p|]; [|reflexivity].
  set (e := match end_year p with Some _ => _ | None => _ end).
  assert (∃ s, e = String "h" s) as [s ->].
  { subst e. destruct (start_year p) as [y|], (end_year p) as [y'|];
      repeat case_match; eexists; reflexivity. }
  by rewrite rstrip_head.
Qed.

Lemma fetch_pages_stop (fuel : nat) (endpoint : json) all_data (w : World) :
  truthy endpoint = false →
  fetch_pages (S fuel) endpoint all_data w = Some (Return all_data, w).
Proof. intros H. simpl. by rewrite H. Qed.

Lemma fetch_pages_step (fuel : nat) (endpoint : json) all_data (w : World)
    all_data' endpoint' w' :
  truthy endpoint = true →
  fetch_page endpoint all_data w = (Return (all_data', endpoint'), w') →
  fetch_pages (S fuel) endpoint all_data w = fetch_pages fuel endpoint' all_data' w'.
Proof. intros H Hp. simpl. by rewrite H, Hp. Qed.

(** One well-formed page: its fields are appended as one pair, the
    cursor is read from the same document. *)
Lemma fetch_page_ok_reply (u : string) all_data (o : gmap string json)
    (r : EndpointResponse) (rest : list reply) (w : World) :
  upstream w = ok_reply (JObj o) :: rest →
  EndpointResponse_fields o = Valid r →
  fetch_page (JStr u) all_data w =
    (Return (all_data ++ [("data", data r)], dict_get o "next"),
     after_request (get_request u []) w).
Proof.
  intros Hw Hr. unfold fetch_page, httpx_get. fold (get_request u []).
  rewrite bind_unfold, (send_ok_reply _ (JObj o) rest) by done.
  unfold mbind, M_bind, raise_for_status, response_json, lift, construct, mret, M_ret.
  simpl. rewrite Hr. reflexivity.
Qed.

(** Each turn of the loop uses up a scripted reply, so a script of [n]
    replies is over after at most [n] turns: more fuel than replies is
    always enough. *)
Lemma fetch_page_consumes (endpoint : json) all_data (w : World) x w' :
  fetch_page endpoint all_data w = (Return x, w') →
  S (length (upstream w')) = length (upstream w).
Proof.
  unfold fetch_page. rewrite bind_unfold.
  destruct endpoint as [| | | |u| |]; try discriminate.
  unfold httpx_get. pose proof (send_world (get_request u []) w) as Hs.
  fold (get_request u []).
  destruct (send (get_request u []) w) as [[e|r] w1] eqn:Hsend; [discriminate|].
  simpl in Hs. subst w1.
  assert (upstream w ≠ []) as Hne.
  { unfold send in Hsend. destruct (upstream w) as [|[?|] ?]; done. }
  match goal with |- ?m ?w0 = _ → _ =>
    assert (stateless m) as Hst; [|rewrite (stateless_run m w0 Hst)] end.
  { apply stateless_bind; [apply stateless_raise_for_status | intros _].
    apply stateless_bind; [apply stateless_response_json | intros d].
    apply stateless_bind; [apply stateless_lift | intros; apply stateless_ret]. }
  intros [= _ <-]. simpl. destruct (upstream w); simpl; [done | lia].
Qed.

Lemma fetch_pages_terminates (fuel : nat) (endpoint : json) all_data (w : World) :
  length (upstream w) < fuel → is_Some (fetch_pages fuel endpoint all_data w).
Proof.
  revert endpoint all_data w. induction fuel as [|fuel IH]; intros e acc w Hlen; [lia|].
  simpl. destruct (truthy e); [|done].
  destruct (fetch_page e acc w) as [[ex|[acc' e']] w'] eqn:Hp; [done|].
  apply IH. apply fetch_page_consumes in Hp. lia.
Qed.
End emissions_facts.

(** C1, what the code does on three pages. Against three well-formed
    pages of which the first two carry a non-empty [next] cursor and the
    third has none, the emissions fetch ends (any fuel from 4 on is
    enough), sends exactly three GETs (the built URL, then the two
    cursors) and validates each page once. Its result has one entry per
    page, the pair of the field name [data] and that page's items: it is
    not the list of the pages' items one after the other. *)
Theorem emissions_fetch_three_pages
    (params : option glob_emissions.EndpointParams)
    (o1 o2 o3 : gmap string json) (n1 n2 : string)
    (r1 r2 r3 : glob_emissions.EndpointResponse)
    (rest : list reply) (w : World) (fuel : nat) :
  upstream w = ok_reply (JObj o1) :: ok_reply (JObj o2) :: ok_reply (JObj o3) :: rest →
  glob_emissions.EndpointResponse_fields o1 = Valid r1 →
  glob_emissions.EndpointResponse_fields o2 = Valid r2 →
  glob_emissions.EndpointResponse_fields o3 = Valid r3 →
  o1 !! "next" = Some (JStr n1) → n1 ≠ "" →
  o2 !! "next" = Some (JStr n2) → n2 ≠ "" →
  o3 !! "next" = None →
  4 ≤ fuel →
  ∃ w',
    glob_emissions.fetch_endpoint_data fuel params w =
      Some (Return [("data", glob_emissions.data r1);
                    ("data", glob_emissions.data r2);
                    ("data", glob_emissions.data r3)], w') ∧
    sent w' = sent w ++ [get_request (glob_emissions.first_endpoint params) [];
                         get_request n1 []; get_request n2 []] ∧
    upstream w' = rest ∧
    stdout w' = stdout w ++ ["3"].
Proof.
  intros Hw H1 H2 H3 Hn1 Hne1 Hn2 Hne2 Hn3 Hfuel.
  destruct fuel as [|[|[|[|fuel]]]]; try lia.
  assert (∀ n, n ≠ "" → truthy (JStr n) = true) as Htruthy.
  { intros n Hn. simpl. destruct (String.eqb_spec n ""); done. }
  unfold glob_emissions.fetch_endpoint_data.
  set (w1 := after_request (get_request (glob_emissions.first_endpoint params) []) w).
  set (w2 := after_request (get_request n1 []) w1).
  set (w3 := after_request (get_request n2 []) w2).
  rewrite (fetch_pages_step _ _ _ w [("data", glob_emissions.data r1)] (JStr n1) w1);
    [|apply first_endpoint_truthy|].
  2:{ rewrite (fetch_page_ok_reply _ _ o1 r1 (ok_reply (JObj o2) :: ok_reply (JObj o3) :: rest))
        by done.
      unfold dict_get. by rewrite Hn1. }
  rewrite (fetch_pages_step _ _ _ w1
             [("data", glob_emissions.data r1); ("data", glob_emissions.data r2)]
             (JStr n2) w2); [|by apply Htruthy|].
  2:{ rewrite (fetch_page_ok_reply _ _ o2 r2 (ok_reply (JObj o3) :: rest)).
      - unfold dict_get. by rewrite Hn2.
      - subst w1. simpl. by rewrite Hw.
      - done. }
  rewrite (fetch_pages_step _ _ _ w2
             [("data", glob_emissions.data r1); ("data", glob_emissions.data r2);
              ("data", glob_emissions.data r3)]
             JNull w3); [|by apply Htruthy|].
  2:{ rewrite (fetch_page_ok_reply _ _ o3 r3 rest).
      - unfold dict_get. by rewrite Hn3.
      - subst w2 w1. simpl. by rewrite Hw.
      - done. }
  rewrite fetch_pages_stop by done.
  eexists. split; [reflexivity|].
  subst w3 w2 w1. simpl. rewrite Hw. simpl.
  split; [by rewrite <- !app_assoc | done].
Qed.

Lemma emissions_fetch_three_pages_witness :
  ∃ w',
    glob_emissions.fetch_endpoint_data 4
      (Some {| glob_emissions.start_year := Some "2009";
               glob_emissions.end_year := Some "2010" |}) three_pages =
      Some (Return [("data", [emissions_result 1 (7 # 2); emissions_result 2 (5 # 1)]);
                    ("data", [emissions_result 3 (1 # 4)]);
                    ("data", [emissions_result 4 (9 # 1)])], w') ∧
    sent w' = [get_request
                 "https://www.climatewatchdata.org/api/v1/data/historical_emissions?regions=EUU&&start_year=2009&end_year=2010" [];
               get_request
                 "https://www.climatewatchdata.org/api/v1/data/historical_emissions?page=2" [];
               get_request
                 "https://www.climatewatchdata.org/api/v1/data/historical_emissions?page=3" []] ∧
    upstream w' = [] ∧
    stdout w' = ["3"].
Proof.
  apply (emissions_fetch_three_pages
           (Some {| glob_emissions.start_year := Some "2009";
                    glob_emissions.end_year := Some "2010" |})
           page_1 page_2 page_3
           "https://www.climatewatchdata.org/api/v1/data/historical_emissions?page=2"
           "https://www.climatewatchdata.org/api/v1/data/historical_emissions?page=3"
           {| glob_emissions.data := [emissions_result 1 (7 # 2); emissions_result 2 (5 # 1)] |}
           {| glob_emissions.data := [emissions_result 3 (1 # 4)] |}
           {| glob_emissions.data := [emissions_result 4 (9 # 1)] |}
           [] three_pages 4).
  - reflexivity.
  - vm_compute. reflexivity.
  - vm_compute. reflexivity.
  - vm_compute. reflexivity.
  - vm_compute. reflexivity.
  - discriminate.
  - vm_compute. reflexivity.
  - discriminate.
  - vm_compute. reflexivity.
  - lia.
Defined.

(** * Further properties of the providers *)

(** ** The shape shared by the single-request fetches and their handlers *)

Lemma fetch_shape {A} (req : Request) (title : string)
    (fields : gmap string json → V A) (w : World) :
  (response ← send req;
   raise_for_status response;;
   data ← response_json response;
   lift (construct title fields data)) w
  = (decode_reply title fields (upstream w), after_request req w).
Proof.
  rewrite bind_unfold. unfold send, after_request, decode_reply.
  destruct (upstream w) as [|[r|] rest]; [reflexivity| |reflexivity].
  rewrite bind_unfold. unfold raise_for_status, raise.
  destruct (_ && _); [|reflexivity].
  change ((mret () : M ()) ?w) with (Return (), w). cbv beta iota.
  rewrite bind_unfold. unfold response_json.
  destruct (body r); reflexivity.
Qed.

Lemma handler_shape {P R} (prefix : string) (c : Exc P) (fetch : P → M R)
    (render : R → string) (w : World) :
  try_log prefix
    (params ← lift c;
     response ← fetch params;
     mret [ {| type := "text"; text := render response |} ]) w
  = match c with
    | Raise e => (Raise e, after_error prefix e w)
    | Return p =>
        match fetch p w with
        | (Return r, w') => (Return [ {| type := "text"; text := render r |} ], w')
        | (Raise e, w') => (Raise e, after_error prefix e w')
        end
    end.
Proof.
  unfold try_log. rewrite bind_unfold. unfold lift.
  destruct c as [e|p]; [reflexivity|].
  rewrite bind_unfold. destruct (fetch p w) as [[e|r] w']; reflexivity.
Qed.

Lemma handler_contract_intro {P R} (prefix : string) (c : Exc P) (fetch : P → M R)
    (render : R → string) :
  (∀ p w, (∃ e, fetch p w = (Raise e, w)) ∨
          (∃ req, (fetch p w).2 = after_request req w)) →
  handler_contract prefix
    (try_log prefix
       (params ← lift c;
        response ← fetch params;
        mret [ {| type := "text"; text := render response |} ])).
Proof.
  intros Hfetch w. rewrite handler_shape. destruct c as [e|p].
  - simpl. split; [done|]. split; [by left | done].
  - destruct (Hfetch p w) as [[e He]|[req Hreq]].
    + rewrite He. simpl. split; [done|]. split; [by left | done].
    + destruct (fetch p w) as [[e|r] w']; simpl in Hreq; subst w'; simpl.
      * split; [done|]. split; [right; eauto | done].
      * split; [eauto|]. split; [done|]. split; [eauto | done].
Qed.

Lemma or_empty_default (arguments : option (gmap string json)) :
  or_empty arguments = JObj (default ∅ arguments).
Proof. destruct arguments as [kw|]; [apply or_empty_Some | reflexivity]. Qed.

Lemma with_default_fails_with {A} (key : string) (v : validator A) (d : A)
    (kw : gmap string json) j e :
  kw !! key = Some j → fails_with e (v j) →
  fails_with {| err_loc := LField key :: err_loc e; err_type := err_type e |}
             (with_default key v d kw).
Proof. intros H Hf. unfold with_default. rewrite H. by apply fails_with_at_loc. Qed.

Lemma fail_with_fails {A} (t : error_type) :
  fails_with {| err_loc := []; err_type := t |} (fail_with t : V A).
Proof. eexists. split; [reflexivity | constructor]. Qed.

(** ** The transit provider *)

Section transit_extras.
Import ch_public_transit.

Lemma fetch_transit_data_shape (p : Public_TransitParams) (w : World) :
  fetch_transit_data p w =
    (decode_reply "Public_TransitResponse" Public_TransitResponse_fields (upstream w),
     after_request
       (get_request (BASE_URL +:+ "from=" +:+ origin p +:+ "&to=" +:+ fmt_opt_str (to p)) [])
       w).
Proof. unfold fetch_transit_data, httpx_get. apply fetch_shape. Qed.

Lemma handle_transitdata_shape (arguments : option (gmap string json)) (w : World) :
  handle_transitdata arguments w =
    match construct "Public_TransitParams" Public_TransitParams_fields
            (JObj (default ∅ arguments)) with
    | Raise e => (Raise e, after_error "Error handling endpoint" e w)
    | Return p =>
        match fetch_transit_data p w with
        | (Return r, w') =>
            (Return [ {| type := "text"; text := Public_TransitResponse_str r |} ], w')
        | (Raise e, w') => (Raise e, after_error "Error handling endpoint" e w')
        end
    end.
Proof.
  unfold handle_transitdata. rewrite or_empty_default.
  apply (handler_shape "Error handling endpoint" _ fetch_transit_data
           Public_TransitResponse_str).
Qed.

(** httpx sends the URL of the fetch as it is when both values are
    plain text. *)
Lemma transit_url_plain (o t : string) :
  plain_text o = true → plain_text t = true →
  httpx_url (BASE_URL +:+ "from=" +:+ o +:+ "&to=" +:+ t)
  = Some (BASE_URL +:+ "from=" +:+ o +:+ "&to=" +:+ t).
Proof.
  intros Ho Ht.
  change (BASE_URL +:+ "from=" +:+ o +:+ "&to=" +:+ t) with
    ("http://transport.opendata.ch/v1/connections" +:+ "?"
       +:+ ("from=" +:+ o +:+ "&to=" +:+ t)).
  pose proof (plain_text_short o Ho). pose proof (plain_text_short t Ht).
  apply httpx_url_query; try (vm_compute; reflexivity).
  - rewrite !all_chars_app, !plain_text_query_safe by done. reflexivity.
  - rewrite !code_points_app.
    change (code_points "http://transport.opendata.ch/v1/connections") with 43%Z.
    change (code_points "from=") with 5%Z. change (code_points "&to=") with 4%Z. lia.
Qed.
End transit_extras.

(** X1. Without an [origin] (no arguments at all, an empty mapping, or a
    mapping that lacks the key) the transit handler raises a
    [ValidationError] that reports [origin] as missing; the error is
    logged and nothing is sent. *)
Theorem transit_handler_needs_origin
    (arguments : option (gmap string json)) (w : World) :
  default ∅ arguments !! "origin" = None →
  ∃ errs w',
    ch_public_transit.handle_transitdata arguments w =
      (Raise (ValidationError "Public_TransitParams" errs), w') ∧
    {| err_loc := [LField "origin"]; err_type := missing |} ∈ errs ∧
    sent w' = sent w ∧ upstream w' = upstream w ∧
    error_log w' = error_log w ++
      [("Error handling endpoint", ValidationError "Public_TransitParams" errs)].
Proof.
  intros Ho. rewrite handle_transitdata_shape.
  destruct (construct_fails_with "Public_TransitParams"
              ch_public_transit.Public_TransitParams_fields (default ∅ arguments)
              {| err_loc := [LField "origin"]; err_type := missing |})
    as (errs & Hc & He).
  { unfold ch_public_transit.Public_TransitParams_fields.
    apply fails_with_ap_l, fails_with_fmap. rewrite required_missing by done.
    eexists. split; [reflexivity | constructor]. }
  rewrite Hc. eexists errs, _. split; [reflexivity|]. done.
Qed.

Lemma transit_handler_needs_origin_witness :
  ∃ errs w',
    ch_public_transit.handle_transitdata (Some {[ "to" := JStr "Basel" ]}) three_pages =
      (Raise (ValidationError "Public_TransitParams" errs), w') ∧
    {| err_loc := [LField "origin"]; err_type := missing |} ∈ errs ∧
    sent w' = sent three_pages ∧ upstream w' = upstream three_pages ∧
    error_log w' = error_log three_pages ++
      [("Error handling endpoint", ValidationError "Public_TransitParams" errs)].
Proof.
  apply (transit_handler_needs_origin (Some {[ "to" := JStr "Basel" ]}) three_pages).
  vm_compute. reflexivity.
Defined.

(** X2. When [to] is left out and the origin is plain text, the handler
    still makes its one call, and the destination in the URL is the text
    [None]; httpx sends that URL as it is. *)
Theorem transit_destination_omitted
    (kw : gmap string json) (o : string) (w : World) :
  kw !! "origin" = Some (JStr o) → kw !! "to" = None → plain_text o = true →
  new_requests w (ch_public_transit.handle_transitdata (Some kw) w).2 =
    [get_request (ch_public_transit.BASE_URL +:+ "from=" +:+ o +:+ "&to=None") []] ∧
  httpx_url (ch_public_transit.BASE_URL +:+ "from=" +:+ o +:+ "&to=None") =
    Some (ch_public_transit.BASE_URL +:+ "from=" +:+ o +:+ "&to=None").
Proof.
  intros Ho Ht Hplain. split; [|by apply (transit_url_plain o "None")].
  rewrite handle_transitdata_shape. simpl default.
  assert (construct "Public_TransitParams" ch_public_transit.Public_TransitParams_fields
            (JObj kw) = Return {| ch_public_transit.origin := o;
                                  ch_public_transit.to := None |}) as ->.
  { simpl. unfold ch_public_transit.Public_TransitParams_fields, required, with_default.
    by rewrite Ho, Ht. }
  rewrite fetch_transit_data_shape.
  apply new_requests_one.
  destruct (decode_reply _ _ _); reflexivity.
Qed.

Lemma transit_destination_omitted_witness :
  new_requests empty_world
    (ch_public_transit.handle_transitdata (Some {[ "origin" := JStr "Bern" ]})
       empty_world).2 =
    [get_request (ch_public_transit.BASE_URL +:+ "from=" +:+ "Bern" +:+ "&to=None") []] ∧
  httpx_url (ch_public_transit.BASE_URL +:+ "from=" +:+ "Bern" +:+ "&to=None") =
    Some (ch_public_transit.BASE_URL +:+ "from=" +:+ "Bern" +:+ "&to=None").
Proof.
  apply (transit_destination_omitted {[ "origin" := JStr "Bern" ]} "Bern" empty_world).
  - vm_compute. reflexivity.
  - vm_compute. reflexivity.
  - vm_compute. reflexivity.
Defined.

(** X3. A [to] that is present but not a string ([null] included) is
    rejected: the handler raises a [ValidationError] located at [to] and
    sends nothing. *)
Theorem transit_destination_must_be_text
    (kw : gmap string json) (j : json) (w : World) :
  kw !! "to" = Some j → (∀ s, j ≠ JStr s) →
  ∃ errs w',
    ch_public_transit.handle_transitdata (Some kw) w =
      (Raise (ValidationError "Public_TransitParams" errs), w') ∧
    {| err_loc := [LField "to"]; err_type := string_type |} ∈ errs ∧
    sent w' = sent w ∧ upstream w' = upstream w.
Proof.
  intros Ht Hj. rewrite handle_transitdata_shape. simpl default.
  destruct (construct_fails_with "Public_TransitParams"
              ch_public_transit.Public_TransitParams_fields kw
              {| err_loc := [LField "to"]; err_type := string_type |})
    as (errs & Hc & He).
  { unfold ch_public_transit.Public_TransitParams_fields.
    apply fails_with_ap_r.
    apply (with_default_fails_with _ _ _ _ j {| err_loc := []; err_type := string_type |});
      [done|].
    apply fails_with_fmap. destruct j; try apply fail_with_fails. by destruct (Hj s). }
  rewrite Hc. eexists errs, _. split; [reflexivity|]. done.
Qed.

Lemma transit_destination_must_be_text_witness :
  ∃ errs w',
    ch_public_transit.handle_transitdata
      (Some {[ "origin" := JStr "Bern"; "to" := JNull ]}) three_pages =
      (Raise (ValidationError "Public_TransitParams" errs), w') ∧
    {| err_loc := [LField "to"]; err_type := string_type |} ∈ errs ∧
    sent w' = sent three_pages ∧ upstream w' = upstream three_pages.
Proof.
  apply (transit_destination_must_be_text
           {[ "origin" := JStr "Bern"; "to" := JNull ]} JNull three_pages).
  - vm_compute. reflexivity.
  - discriminate.
Defined.

(** X4. The transit handler keeps the handler contract for every
    argument mapping and every upstream. *)
Theorem transit_handler_contract (arguments : option (gmap string json)) :
  handler_contract "Error handling endpoint"
    (ch_public_transit.handle_transitdata arguments).
Proof.
  apply (handler_contract_intro "Error handling endpoint").
  intros p w. right. rewrite fetch_transit_data_shape. eauto.
Qed.

(** X5. For plain-text values [fetch_transit_data] makes exactly one
    call, a GET that httpx sends as it is, and what it returns is decided
    by the first scripted reply: a status outside 2xx raises
    [HTTPStatusError] with that status, a body that is not JSON raises
    [JSONDecodeError], a JSON body that is not an object raises
    [TypeError], and no reply raises [ConnectError]. *)
Theorem fetch_transit_data_by_reply
    (p : ch_public_transit.Public_TransitParams) (w : World) :
  plain_text (ch_public_transit.origin p) = true →
  plain_option (ch_public_transit.to p) = true →
  let u := ch_public_transit.BASE_URL +:+ "from=" +:+ ch_public_transit.origin p
             +:+ "&to=" +:+ fmt_opt_str (ch_public_transit.to p) in
  (ch_public_transit.fetch_transit_data p w).2 = after_request (get_request u []) w ∧
  httpx_url u = Some u ∧
  (∀ status data rest,
     upstream w = status_reply status data :: rest → (status < 200 ∨ 300 ≤ status)%Z →
     (ch_public_transit.fetch_transit_data p w).1 = Raise (HTTPStatusError status)) ∧
  (∀ rest, upstream w = garbled_reply :: rest →
     (ch_public_transit.fetch_transit_data p w).1 = Raise JSONDecodeError) ∧
  (∀ data rest, upstream w = ok_reply data :: rest → (∀ o, data ≠ JObj o) →
     (ch_public_transit.fetch_transit_data p w).1 = Raise TypeError) ∧
  (upstream w = [] ∨ (∃ rest, upstream w = NoReply :: rest) →
     (ch_public_transit.fetch_transit_data p w).1 = Raise ConnectError).
Proof.
  intros Ho Ht u. subst u.
  rewrite fetch_transit_data_shape. simpl. split; [done|]. split.
  { apply transit_url_plain; [done|]. by destruct (ch_public_transit.to p). }
  repeat split.
  - intros status data rest -> Hs. simpl.
    destruct (Z.leb_spec 200 status), (Z.ltb_spec status 300); simpl; try done; lia.
  - by intros rest ->.
  - intros data rest -> Hd. simpl. destruct data; try done. by destruct (Hd o).
  - by intros [->|[rest ->]].
Qed.

Lemma fetch_transit_data_by_reply_witness :
  (ch_public_transit.fetch_transit_data
     {| ch_public_transit.origin := "Bern"; ch_public_transit.to := Some "Basel" |}
     {| upstream := [status_reply 429 (JObj ∅)]; sent := []; error_log := [];
        stdout := [] |}).1 = Raise (HTTPStatusError 429).
Proof.
  apply (proj1 (proj2 (proj2 (fetch_transit_data_by_reply
           {| ch_public_transit.origin := "Bern"; ch_public_transit.to := Some "Basel" |}
           {| upstream := [status_reply 429 (JObj ∅)]; sent := []; error_log := [];
              stdout := [] |}
           ltac:(vm_compute; reflexivity) ltac:(vm_compute; reflexivity))))
           429%Z (JObj ∅) []).
  - reflexivity.
  - right. lia.
Defined.

Lemma required_insert_ne {A} (key k : string) (v : validator A) (j : json)
    (kw : gmap string json) :
  k ≠ key → required key v (<[k:=j]> kw) = required key v kw.
Proof. intros Hne. unfold required. by rewrite lookup_insert_ne. Qed.

Lemma with_default_insert_ne {A} (key k : string) (v : validator A) (d : A) (j : json)
    (kw : gmap string json) :
  k ≠ key → with_default key v d (<[k:=j]> kw) = with_default key v d kw.
Proof. intros Hne. unfold with_default. by rewrite lookup_insert_ne. Qed.

Ltac ignore_unknown :=
  rewrite ?not_elem_of_cons; intros;
  repeat match goal with H : _ ∧ _ |- _ => destruct H end;
  rewrite ?required_insert_ne, ?with_default_insert_ne by done;
  reflexivity.

(** X6. The transit models read only the keys they declare: adding any
    other key to the mapping a model is built from changes nothing, for
    the parameters, the response and every model nested in it. *)
Theorem transit_models_ignore_unknown_keys (k : string) (v : json) (kw : gmap string json) :
  (k ∉ ["origin"; "to"] →
   ch_public_transit.Public_TransitParams_fields (<[k:=v]> kw)
   = ch_public_transit.Public_TransitParams_fields kw) ∧
  (k ∉ ["id"; "name"] →
   ch_public_transit.Location_fields (<[k:=v]> kw) = ch_public_transit.Location_fields kw) ∧
  (k ∉ ["station"; "arrival"; "departure"; "delay"] →
   ch_public_transit.Stop_fields (<[k:=v]> kw) = ch_public_transit.Stop_fields kw) ∧
  (k ∉ ["station"; "departure"; "platform"] →
   ch_public_transit.Departure_fields (<[k:=v]> kw) = ch_public_transit.Departure_fields kw) ∧
  (k ∉ ["station"; "arrival"; "platform"] →
   ch_public_transit.Arrival_fields (<[k:=v]> kw) = ch_public_transit.Arrival_fields kw) ∧
  (k ∉ ["name"; "category"; "number"; "operator"; "to"; "passList"] →
   ch_public_transit.Route_fields (<[k:=v]> kw) = ch_public_transit.Route_fields kw) ∧
  (k ∉ ["journey"] →
   ch_public_transit.TransitOption_fields (<[k:=v]> kw)
   = ch_public_transit.TransitOption_fields kw) ∧
  (k ∉ ["from"; "to"; "duration"; "transfers"; "sections"] →
   ch_public_transit.PublicTransitResult_fields (<[k:=v]> kw)
   = ch_public_transit.PublicTransitResult_fields kw) ∧
  (k ∉ ["connections"] →
   ch_public_transit.Public_TransitResponse_fields (<[k:=v]> kw)
   = ch_public_transit.Public_TransitResponse_fields kw).
Proof.
  unfold ch_public_transit.Public_TransitParams_fields, ch_public_transit.Location_fields,
    ch_public_transit.Stop_fields, ch_public_transit.Departure_fields,
    ch_public_transit.Arrival_fields, ch_public_transit.Route_fields,
    ch_public_transit.TransitOption_fields, ch_public_transit.PublicTransitResult_fields,
    ch_public_transit.Public_TransitResponse_fields.
  repeat split; ignore_unknown.
Qed.

Lemma transit_models_ignore_unknown_keys_witness :
  ch_public_transit.Public_TransitResponse_fields
    (<["total" := JInt 1]> {[ "connections" := JArr [] ]})
  = ch_public_transit.Public_TransitResponse_fields {[ "connections" := JArr [] ]}.
Proof.
  apply (proj2 (proj2 (proj2 (proj2 (proj2 (proj2 (proj2 (proj2
           (transit_models_ignore_unknown_keys "total" (JInt 1)
              {[ "connections" := JArr [] ]}))))))))).
  compute_done.
Defined.

(** ** The SBB provider *)

Lemma lookup_dump_opt_here (key : string) (o : option string) (rest : list (string * json)) :
  (list_to_map (ch_sbb.dump_opt key o ++ rest) : gmap string json) !! key =
  match o with
  | Some s => Some (JStr s)
  | None => (list_to_map rest : gmap string json) !! key
  end.
Proof. destruct o; simpl; [apply lookup_insert_eq | done]. Qed.

Lemma lookup_dump_opt_next (key k : string) (o : option string)
    (rest : list (string * json)) :
  k ≠ key →
  (list_to_map (ch_sbb.dump_opt key o ++ rest) : gmap string json) !! k =
  (list_to_map rest : gmap string json) !! k.
Proof. intros Hne. destruct o; simpl; [by rewrite lookup_insert_ne | done]. Qed.

Lemma lookup_kw_app_cons (k : string) (e : string * json) (l rest : list (string * json)) :
  (list_to_map ((e :: l) ++ rest) : gmap string json) !! k =
  (list_to_map (e :: l ++ rest) : gmap string json) !! k.
Proof. reflexivity. Qed.

Ltac dump_lookup :=
  repeat first [ rewrite lookup_dump_opt_here
               | rewrite lookup_dump_opt_next by done
               | rewrite lookup_kw_app_cons
               | rewrite lookup_kw_here
               | rewrite lookup_kw_next by done
               | rewrite lookup_kw_nil
               | rewrite app_nil_l
               | rewrite app_nil_r ].

Lemma bounded_limit_valid (n : Z) :
  (1 ≤ n ≤ 100)%Z → ge 1 (le 100 v_int) (JInt n) = Valid n.
Proof.
  intros Hn. unfold ge, le, v_int, v_bind.
  rewrite (proj2 (Z.leb_le n 100)) by lia. by rewrite (proj2 (Z.leb_le 1 n)) by lia.
Qed.

Lemma bounded_offset_valid (n : Z) : (0 ≤ n)%Z → ge 0 v_int (JInt n) = Valid n.
Proof. intros Hn. unfold ge, v_int, v_bind. by rewrite (proj2 (Z.leb_le 0 n)) by lia. Qed.

Lemma negative_offset_fails (n : Z) :
  (n < 0)%Z →
  fails_with {| err_loc := []; err_type := greater_than_equal 0 |} (ge 0 v_int (JInt n)).
Proof.
  intros Hn. unfold ge, v_int, v_bind. destruct (Z.leb_spec 0 n); [lia|].
  apply fail_with_fails.
Qed.

(** X7. Dumping rail-traffic parameters that respect the bounds and
    building the model again from the dump gives the same parameters
    back: [model_dump(exclude_none=True)] loses nothing. *)
Theorem TrafficInfoParams_dump_round_trip (p : ch_sbb.TrafficInfoParams) :
  (1 ≤ ch_sbb.limit p ≤ 100)%Z → (0 ≤ ch_sbb.offset p)%Z →
  construct "TrafficInfoParams" ch_sbb.TrafficInfoParams_fields
    (JObj (list_to_map (ch_sbb.TrafficInfoParams_model_dump_exclude_none p)))
  = Return p.
Proof.
  intros Hl Ho. apply construct_return_inv, TrafficInfoParams_fields_valid.
  unfold ch_sbb.TrafficInfoParams_model_dump_exclude_none, with_default.
  repeat split; dump_lookup.
  - by destruct (ch_sbb.select p).
  - by destruct (ch_sbb.where_ p).
  - by destruct (ch_sbb.group_by p).
  - by destruct (ch_sbb.order_by p).
  - simpl. by rewrite bounded_limit_valid.
  - simpl. by rewrite bounded_offset_valid.
  - by destruct (ch_sbb.refine_ p).
  - by destruct (ch_sbb.exclude p).
  - by destruct (ch_sbb.lang p).
  - done.
  - done.
  - done.
Qed.

Lemma TrafficInfoParams_dump_round_trip_witness :
  construct "TrafficInfoParams" ch_sbb.TrafficInfoParams_fields
    (JObj (list_to_map (ch_sbb.TrafficInfoParams_model_dump_exclude_none
                          TrafficInfoParams_defaults)))
  = Return TrafficInfoParams_defaults.
Proof.
  apply (TrafficInfoParams_dump_round_trip TrafficInfoParams_defaults).
  - simpl. lia.
  - simpl. lia.
Defined.

Lemma dump_opt_no_null (key k : string) (o : option string) :
  (k, JNull) ∉ ch_sbb.dump_opt key o.
Proof.
  destruct o; simpl; [|apply not_elem_of_nil].
  rewrite not_elem_of_cons. split; [congruence | apply not_elem_of_nil].
Qed.

Section rail_traffic_extras.
Import ch_sbb.
Context {datetime : Type}.
Variable v_datetime : validator datetime.
Variable repr_datetime : datetime → string.

Lemma fetch_rail_traffic_info_shape (p : TrafficInfoParams) (w : World) :
  fetch_rail_traffic_info v_datetime p w =
    (decode_reply "TrafficInfoResponse" (TrafficInfoResponse_fields v_datetime)
       (upstream w),
     after_request
       (get_request (BASE_URL +:+ "/catalog/datasets/rail-traffic-information/records")
          (TrafficInfoParams_model_dump_exclude_none p)) w).
Proof. unfold fetch_rail_traffic_info, httpx_get. apply fetch_shape. Qed.

Lemma handle_rail_traffic_info_shape (arguments : option (gmap string json)) (w : World) :
  handle_rail_traffic_info v_datetime repr_datetime arguments w =
    match construct "TrafficInfoParams" TrafficInfoParams_fields (as_kwargs arguments) with
    | Raise e => (Raise e, after_error "Error fetching rail traffic info" e w)
    | Return p =>
        match fetch_rail_traffic_info v_datetime p w with
        | (Return r, w') =>
            (Return [ {| type := "text";
                         text := TrafficInfoResponse_str repr_datetime r |} ], w')
        | (Raise e, w') => (Raise e, after_error "Error fetching rail traffic info" e w')
        end
    end.
Proof.
  apply (handler_shape "Error fetching rail traffic info" _
           (fetch_rail_traffic_info v_datetime) (TrafficInfoResponse_str repr_datetime)).
Qed.

Lemma TrafficInfoParams_dump_no_null (p : TrafficInfoParams) (k : string) :
  (k, JNull) ∉ TrafficInfoParams_model_dump_exclude_none p.
Proof.
  unfold TrafficInfoParams_model_dump_exclude_none.
  rewrite !not_elem_of_app, !not_elem_of_cons.
  repeat split; try apply dump_opt_no_null; try congruence; apply not_elem_of_nil.
Qed.

Lemma TrafficInfoParams_dump_limit_offset (p : TrafficInfoParams) :
  ("limit", JInt (limit p)) ∈ TrafficInfoParams_model_dump_exclude_none p ∧
  ("offset", JInt (offset p)) ∈ TrafficInfoParams_model_dump_exclude_none p.
Proof.
  unfold TrafficInfoParams_model_dump_exclude_none.
  rewrite !elem_of_app, !elem_of_cons. split.
  - do 4 right. left. by left.
  - do 4 right. left. right. by left.
Qed.
End rail_traffic_extras.

(** X8. Whatever the arguments, a request that the rail-traffic handler
    sends is a GET to the records URL of the dataset whose query
    parameters carry a [limit] between 1 and 100 and an [offset] of at
    least 0, and no parameter with a null value. *)
Theorem rail_traffic_requests_are_bounded
    {datetime : Type} (v_datetime : validator datetime)
    (repr_datetime : datetime → string)
    (arguments : option (gmap string json)) (w : World) (req : Request) :
  req ∈ new_requests w
          (ch_sbb.handle_rail_traffic_info v_datetime repr_datetime arguments w).2 →
  method req = GET ∧
  url req = ch_sbb.BASE_URL +:+ "/catalog/datasets/rail-traffic-information/records" ∧
  (∃ n m, ("limit", JInt n) ∈ params req ∧ (1 ≤ n ≤ 100)%Z ∧
          ("offset", JInt m) ∈ params req ∧ (0 ≤ m)%Z) ∧
  (∀ k, (k, JNull) ∉ params req).
Proof.
  rewrite handle_rail_traffic_info_shape.
  destruct (construct _ _ _) as [e|p] eqn:Hc.
  - rewrite new_requests_none by done. by intros ?%elem_of_nil.
  - rewrite fetch_rail_traffic_info_shape.
    rewrite (new_requests_one
               (get_request
                  (ch_sbb.BASE_URL +:+ "/catalog/datasets/rail-traffic-information/records")
                  (ch_sbb.TrafficInfoParams_model_dump_exclude_none p)))
      by (destruct (decode_reply _ _ _); reflexivity).
    intros ->%list_elem_of_singleton. simpl.
    split; [done|]. split; [done|]. split.
    + destruct arguments as [kw|]; [|done].
      apply construct_return_inv, TrafficInfoParams_bounds in Hc.
      destruct (TrafficInfoParams_dump_limit_offset p).
      exists (ch_sbb.limit p), (ch_sbb.offset p). tauto.
    + apply TrafficInfoParams_dump_no_null.
Qed.

Lemma rail_traffic_requests_are_bounded_witness :
  method (get_request
            (ch_sbb.BASE_URL +:+ "/catalog/datasets/rail-traffic-information/records")
            [("limit", JInt 5); ("offset", JInt 0); ("lang", JStr "de");
             ("timezone", JStr "UTC"); ("include_links", JBool false);
             ("include_app_metas", JBool false)]) = GET ∧
  url (get_request
         (ch_sbb.BASE_URL +:+ "/catalog/datasets/rail-traffic-information/records")
         [("limit", JInt 5); ("offset", JInt 0); ("lang", JStr "de");
          ("timezone", JStr "UTC"); ("include_links", JBool false);
          ("include_app_metas", JBool false)])
  = ch_sbb.BASE_URL +:+ "/catalog/datasets/rail-traffic-information/records" ∧
  (∃ n m,
     ("limit", JInt n) ∈ [("limit", JInt 5); ("offset", JInt 0); ("lang", JStr "de");
                          ("timezone", JStr "UTC"); ("include_links", JBool false);
                          ("include_app_metas", JBool false)] ∧ (1 ≤ n ≤ 100)%Z ∧
     ("offset", JInt m) ∈ [("limit", JInt 5); ("offset", JInt 0); ("lang", JStr "de");
                           ("timezone", JStr "UTC"); ("include_links", JBool false);
                           ("include_app_metas", JBool false)] ∧ (0 ≤ m)%Z) ∧
  (∀ k, (k, JNull) ∉ [("limit", JInt 5); ("offset", JInt 0); ("lang", JStr "de");
                      ("timezone", JStr "UTC"); ("include_links", JBool false);
                      ("include_app_metas", JBool false)]).
Proof.
  apply (rail_traffic_requests_are_bounded v_str repr_str
           (Some {[ "limit" := JInt 5; "lang" := JStr "de" ]}) empty_world).
  vm_compute. constructor.
Defined.

(** X9. A negative integer [offset] makes the rail-traffic handler raise
    a [ValidationError] located at [offset]; nothing is sent. *)
Theorem rail_traffic_offset_negative_sends_nothing
    {datetime : Type} (v_datetime : validator datetime)
    (repr_datetime : datetime → string)
    (kw : gmap string json) (n : Z) (w : World) :
  kw !! "offset" = Some (JInt n) → (n < 0)%Z →
  ∃ errs w',
    ch_sbb.handle_rail_traffic_info v_datetime repr_datetime (Some kw) w =
      (Raise (ValidationError "TrafficInfoParams" errs), w') ∧
    {| err_loc := [LField "offset"]; err_type := greater_than_equal 0 |} ∈ errs ∧
    sent w' = sent w ∧ upstream w' = upstream w.
Proof.
  intros Hk Hn. rewrite handle_rail_traffic_info_shape.
  destruct (construct_fails_with "TrafficInfoParams" ch_sbb.TrafficInfoParams_fields kw
              {| err_loc := [LField "offset"]; err_type := greater_than_equal 0 |})
    as (errs & Hc & He).
  { unfold ch_sbb.TrafficInfoParams_fields.
    do 6 apply fails_with_ap_l. apply fails_with_ap_r.
    apply (with_default_fails_with _ _ _ _ (JInt n)
             {| err_loc := []; err_type := greater_than_equal 0 |}); [done|].
    by apply negative_offset_fails. }
  simpl as_kwargs. rewrite Hc. eexists errs, _. split; [reflexivity | done].
Qed.

Lemma rail_traffic_offset_negative_sends_nothing_witness :
  ∃ errs w',
    ch_sbb.handle_rail_traffic_info v_str repr_str (Some {[ "offset" := JInt (-1) ]})
      three_pages =
      (Raise (ValidationError "TrafficInfoParams" errs), w') ∧
    {| err_loc := [LField "offset"]; err_type := greater_than_equal 0 |} ∈ errs ∧
    sent w' = sent three_pages ∧ upstream w' = upstream three_pages.
Proof.
  apply (rail_traffic_offset_negative_sends_nothing v_str repr_str
           {[ "offset" := JInt (-1) ]} (-1)%Z three_pages).
  - vm_compute. reflexivity.
  - lia.
Defined.

(** X10. The rail-traffic handler keeps the handler contract for every
    argument mapping, [None] included, and every upstream. *)
Theorem rail_traffic_handler_contract
    {datetime : Type} (v_datetime : validator datetime)
    (repr_datetime : datetime → string) (arguments : option (gmap string json)) :
  handler_contract "Error fetching rail traffic info"
    (ch_sbb.handle_rail_traffic_info v_datetime repr_datetime arguments).
Proof.
  apply (handler_contract_intro "Error fetching rail traffic info").
  intros p w. right. rewrite fetch_rail_traffic_info_shape. eauto.
Qed.

Lemma out_of_range_limit_fails (n : Z) :
  (n < 1 ∨ 100 < n)%Z →
  ∃ t, (t = greater_than_equal 1 ∨ t = less_than_equal 100) ∧
       fails_with {| err_loc := []; err_type := t |} (ge 1 (le 100 v_int) (JInt n)).
Proof.
  intros Hn. unfold ge, le, v_int, v_bind.
  destruct (Z.leb_spec n 100).
  - destruct (Z.leb_spec 1 n); [lia|].
    eexists; split; [left; reflexivity | apply fail_with_fails].
  - eexists; split; [right; reflexivity | apply fail_with_fails].
Qed.

Section railway_extras.
Import ch_sbb_railway.
Variable repr_float : Q → string.
Variable repr_dict : gmap string json → string.

Lemma fetch_railway_lines_shape (p : RailwayLineParams) (w : World) :
  fetch_railway_lines p w =
    (decode_reply "RailwayLineResponse" RailwayLineResponse_fields (upstream w),
     after_request
       (get_request (ch_sbb.BASE_URL +:+ "/catalog/datasets/linie/records")
          (RailwayLineParams_model_dump_exclude_none p)) w).
Proof. unfold fetch_railway_lines, httpx_get. apply fetch_shape. Qed.

Lemma handle_railway_lines_shape (arguments : option (gmap string json)) (w : World) :
  handle_railway_lines repr_float repr_dict arguments w =
    match construct "RailwayLineParams" RailwayLineParams_fields (as_kwargs arguments) with
    | Raise e => (Raise e, after_error "Error fetching railway lines" e w)
    | Return p =>
        match fetch_railway_lines p w with
        | (Return r, w') =>
            (Return [ {| type := "text";
                         text := RailwayLineResponse_str repr_float repr_dict r |} ], w')
        | (Raise e, w') => (Raise e, after_error "Error fetching railway lines" e w')
        end
    end.
Proof.
  apply (handler_shape "Error fetching railway lines" _ fetch_railway_lines
           (RailwayLineResponse_str repr_float repr_dict)).
Qed.

Lemma RailwayLineParams_bounds (kw : gmap string json) (p : RailwayLineParams) :
  RailwayLineParams_fields kw = Valid p →
  (1 ≤ limit p ≤ 100)%Z ∧ (0 ≤ offset p)%Z.
Proof.
  unfold RailwayLineParams_fields. intros H.
  apply v_ap_valid_inv in H; destruct H as (? & o & H & Ho & ->).
  apply v_ap_valid_inv in H; destruct H as (? & l & H & Hl & ->).
  repeat (apply v_ap_valid_inv in H; destruct H as (? & ? & H & ? & ->)).
  apply fmap_valid_inv in H; destruct H as (? & ? & ->). simpl.
  unfold with_default in Hl, Ho. split.
  - destruct (kw !! "limit"); [|injection Hl as <-; lia].
    apply at_loc_valid_inv, ge_valid_inv in Hl. destruct Hl as [Hl ?].
    apply le_valid_inv in Hl. lia.
  - destruct (kw !! "offset"); [|injection Ho as <-; lia].
    apply at_loc_valid_inv, ge_valid_inv in Ho. lia.
Qed.

Lemma RailwayLineParams_dump_no_null (p : RailwayLineParams) (k : string) :
  (k, JNull) ∉ RailwayLineParams_model_dump_exclude_none p.
Proof.
  unfold RailwayLineParams_model_dump_exclude_none.
  rewrite !not_elem_of_app, !not_elem_of_cons.
  repeat split; try apply dump_opt_no_null; try congruence; apply not_elem_of_nil.
Qed.

Lemma RailwayLineParams_dump_limit_offset (p : RailwayLineParams) :
  ("limit", JInt (limit p)) ∈ RailwayLineParams_model_dump_exclude_none p ∧
  ("offset", JInt (offset p)) ∈ RailwayLineParams_model_dump_exclude_none p.
Proof.
  unfold RailwayLineParams_model_dump_exclude_none.
  rewrite !elem_of_app, !elem_of_cons. split.
  - do 4 right. by left.
  - do 4 right. right. by left.
Qed.
End railway_extras.

(** X11. The railway-lines handler has the same missing guard as the
    rail-traffic handler: called with no arguments it raises [TypeError]
    (logged, nothing sent), while with the empty mapping it sends a GET
    for the [linie] records with the default [limit] and [offset]. *)
Theorem railway_lines_handler_None_is_not_empty
    (repr_float : Q → string) (repr_dict : gmap string json → string) (w : World) :
  ch_sbb_railway.handle_railway_lines repr_float repr_dict None w =
    (Raise TypeError, after_error "Error fetching railway lines" TypeError w) ∧
  sent (ch_sbb_railway.handle_railway_lines repr_float repr_dict (Some ∅) w).2 =
    sent w ++ [get_request (ch_sbb.BASE_URL +:+ "/catalog/datasets/linie/records")
                 [("limit", JInt 10); ("offset", JInt 0)]].
Proof.
  rewrite !handle_railway_lines_shape. split; [reflexivity|].
  change (construct _ _ (as_kwargs (Some ∅))) with
    (Return {| ch_sbb_railway.select := None; ch_sbb_railway.where_ := None;
               ch_sbb_railway.group_by := None; ch_sbb_railway.order_by := None;
               ch_sbb_railway.limit := 10; ch_sbb_railway.offset := 0 |}).
  cbv beta iota. rewrite fetch_railway_lines_shape.
  destruct (decode_reply _ _ _); reflexivity.
Qed.

(** X12. An integer [limit] outside 1..100 or a negative integer [offset]
    makes the railway-lines handler raise a [ValidationError] located at
    that field; nothing is sent. *)
Theorem railway_lines_bounds_checked_before_sending
    (repr_float : Q → string) (repr_dict : gmap string json → string)
    (kw : gmap string json) (field : string) (n : Z) (w : World) :
  (field = "limit" ∧ kw !! "limit" = Some (JInt n) ∧ (n < 1 ∨ 100 < n)%Z) ∨
  (field = "offset" ∧ kw !! "offset" = Some (JInt n) ∧ (n < 0)%Z) →
  ∃ errs e w',
    ch_sbb_railway.handle_railway_lines repr_float repr_dict (Some kw) w =
      (Raise (ValidationError "RailwayLineParams" errs), w') ∧
    e ∈ errs ∧ err_loc e = [LField field] ∧
    sent w' = sent w ∧ upstream w' = upstream w.
Proof.
  intros H. rewrite handle_railway_lines_shape. simpl as_kwargs.
  assert (∃ e, fails_with e (ch_sbb_railway.RailwayLineParams_fields kw) ∧
               err_loc e = [LField field]) as (e & Hf & Hloc).
  { unfold ch_sbb_railway.RailwayLineParams_fields.
    destruct H as [(-> & Hk & Hn)|(-> & Hk & Hn)].
    - destruct (out_of_range_limit_fails n Hn) as (t & _ & Ht).
      exists {| err_loc := [LField "limit"]; err_type := t |}. split; [|done].
      apply fails_with_ap_l, fails_with_ap_r.
      by apply (with_default_fails_with _ _ _ _ (JInt n) {| err_loc := []; err_type := t |}).
    - exists {| err_loc := [LField "offset"]; err_type := greater_than_equal 0 |}.
      split; [|done]. apply fails_with_ap_r.
      apply (with_default_fails_with _ _ _ _ (JInt n)
               {| err_loc := []; err_type := greater_than_equal 0 |}); [done|].
      by apply negative_offset_fails. }
  apply (construct_fails_with "RailwayLineParams") in Hf as (errs & Hc & He).
  rewrite Hc. eexists errs, e, _. split; [reflexivity | done].
Qed.

Lemma railway_lines_bounds_checked_before_sending_witness :
  ∃ errs e w',
    ch_sbb_railway.handle_railway_lines (λ _, "0.0") (λ _, "{}")
      (Some {[ "limit" := JInt 500 ]}) three_pages =
      (Raise (ValidationError "RailwayLineParams" errs), w') ∧
    e ∈ errs ∧ err_loc e = [LField "limit"] ∧
    sent w' = sent three_pages ∧ upstream w' = upstream three_pages.
Proof.
  apply (railway_lines_bounds_checked_before_sending (λ _, "0.0") (λ _, "{}")
           {[ "limit" := JInt 500 ]} "limit" 500%Z three_pages).
  left. split; [reflexivity|]. split; [vm_compute; reflexivity | right; lia].
Defined.

(** X13. Whatever the arguments, a request that the railway-lines handler
    sends is a GET to the [linie] records URL whose query parameters
    carry a [limit] between 1 and 100 and an [offset] of at least 0, and
    no parameter with a null value. *)
Theorem railway_lines_requests_are_bounded
    (repr_float : Q → string) (repr_dict : gmap string json → string)
    (arguments : option (gmap string json)) (w : World) (req : Request) :
  req ∈ new_requests w
          (ch_sbb_railway.handle_railway_lines repr_float repr_dict arguments w).2 →
  method req = GET ∧
  url req = ch_sbb.BASE_URL +:+ "/catalog/datasets/linie/records" ∧
  (∃ n m, ("limit", JInt n) ∈ params req ∧ (1 ≤ n ≤ 100)%Z ∧
          ("offset", JInt m) ∈ params req ∧ (0 ≤ m)%Z) ∧
  (∀ k, (k, JNull) ∉ params req).
Proof.
  rewrite handle_railway_lines_shape.
  destruct (construct _ _ _) as [e|p] eqn:Hc.
  - rewrite new_requests_none by done. by intros ?%elem_of_nil.
  - rewrite fetch_railway_lines_shape.
    rewrite (new_requests_one
               (get_request (ch_sbb.BASE_URL +:+ "/catalog/datasets/linie/records")
                  (ch_sbb_railway.RailwayLineParams_model_dump_exclude_none p)))
      by (destruct (decode_reply _ _ _); reflexivity).
    intros ->%list_elem_of_singleton. simpl.
    split; [done|]. split; [done|]. split.
    + destruct arguments as [kw|]; [|done].
      apply construct_return_inv, RailwayLineParams_bounds in Hc.
      destruct (RailwayLineParams_dump_limit_offset p).
      exists (ch_sbb_railway.limit p), (ch_sbb_railway.offset p). tauto.
    + apply RailwayLineParams_dump_no_null.
Qed.

Lemma railway_lines_requests_are_bounded_witness :
  method (get_request (ch_sbb.BASE_URL +:+ "/catalog/datasets/linie/records")
            [("select", JStr "linie,linienname"); ("limit", JInt 3); ("offset", JInt 0)])
  = GET ∧
  url (get_request (ch_sbb.BASE_URL +:+ "/catalog/datasets/linie/records")
         [("select", JStr "linie,linienname"); ("limit", JInt 3); ("offset", JInt 0)])
  = ch_sbb.BASE_URL +:+ "/catalog/datasets/linie/records" ∧
  (∃ n m,
     ("limit", JInt n) ∈ [("select", JStr "linie,linienname"); ("limit", JInt 3);
                          ("offset", JInt 0)] ∧ (1 ≤ n ≤ 100)%Z ∧
     ("offset", JInt m) ∈ [("select", JStr "linie,linienname"); ("limit", JInt 3);
                           ("offset", JInt 0)] ∧ (0 ≤ m)%Z) ∧
  (∀ k, (k, JNull) ∉ [("select", JStr "linie,linienname"); ("limit", JInt 3);
                      ("offset", JInt 0)]).
Proof.
  apply (railway_lines_requests_are_bounded (λ _, "0.0") (λ _, "{}")
           (Some {[ "limit" := JInt 3; "select" := JStr "linie,linienname" ]}) empty_world).
  vm_compute. constructor.
Defined.

(** X14. The railway-lines handler keeps the handler contract for every
    argument mapping, [None] included, and every upstream. *)
Theorem railway_lines_handler_contract
    (repr_float : Q → string) (repr_dict : gmap string json → string)
    (arguments : option (gmap string json)) :
  handler_contract "Error fetching railway lines"
    (ch_sbb_railway.handle_railway_lines repr_float repr_dict arguments).
Proof.
  apply (handler_contract_intro "Error fetching railway lines").
  intros p w. right. rewrite fetch_railway_lines_shape. eauto.
Qed.

(** ** The emissions provider *)

Lemma ends_with_rstrip (c : ascii) (s : string) : ends_with c (rstrip c s) = false.
Proof.
  induction s as [|a s IH]; [done|]. simpl.
  destruct (rstrip c s) as [|b r] eqn:E.
  - destruct (Ascii.eqb a c) eqn:Ea; [done|]. simpl. done.
  - change (ends_with c (String a (String b r))) with (ends_with c (String b r)). done.
Qed.

Lemma rstrip_keeps (c : ascii) (s : string) :
  s ≠ "" → ends_with c s = false → rstrip c s = s.
Proof.
  induction s as [|a s IH]; [done|]. intros _ He.
  destruct s as [|b s'].
  - simpl in *. by rewrite He.
  - change (ends_with c (String a (String b s'))) with (ends_with c (String b s')) in He.
    change (rstrip c (String a (String b s'))) with
      (match rstrip c (String b s') with
       | EmptyString => if Ascii.eqb a c then EmptyString else String a EmptyString
       | r => String a r
       end).
    by rewrite IH.
Qed.

Lemma ends_with_app (c : ascii) (a s : string) :
  s ≠ "" → ends_with c (a +:+ s) = ends_with c s.
Proof.
  intros Hs. induction a as [|x a IH]; [done|].
  rewrite append_cons. destruct (a +:+ s) as [|y r] eqn:E.
  - destruct a; [by rewrite append_nil_l in E | by rewrite append_cons in E].
  - change (ends_with c (String x (String y r))) with (ends_with c (String y r)). done.
Qed.

Lemma app_not_empty (a s : string) : s ≠ "" → a +:+ s ≠ "".
Proof. intros Hs. destruct a; [by rewrite append_nil_l | by rewrite append_cons]. Qed.

Lemma rstrip_app_char (c : ascii) (s : string) :
  rstrip c (s +:+ String c EmptyString) = rstrip c s.
Proof.
  induction s as [|a s IH].
  - rewrite append_nil_l. simpl. by rewrite Ascii.eqb_refl.
  - rewrite append_cons. simpl. by rewrite IH.
Qed.

(** X15. For every parameter object the first URL of the emissions
    fetch has no trailing [&], and a year given as the empty string is
    left out exactly like a year that is absent. *)
Theorem emissions_first_endpoint_edges (p : glob_emissions.EndpointParams) :
  ends_with "&" (glob_emissions.first_endpoint (Some p)) = false ∧
  glob_emissions.first_endpoint
    (Some {| glob_emissions.start_year := Some "";
             glob_emissions.end_year := glob_emissions.end_year p |})
  = glob_emissions.first_endpoint
      (Some {| glob_emissions.start_year := None;
               glob_emissions.end_year := glob_emissions.end_year p |}) ∧
  glob_emissions.first_endpoint
    (Some {| glob_emissions.start_year := glob_emissions.start_year p;
             glob_emissions.end_year := Some "" |})
  = glob_emissions.first_endpoint
      (Some {| glob_emissions.start_year := glob_emissions.start_year p;
               glob_emissions.end_year := None |}).
Proof.
  split; [apply ends_with_rstrip|]. split; reflexivity.
Qed.

(** X16. With both years given (non-empty, the end year not ending in
    [&]) the first URL is the base URL, whose own trailing [&] is
    followed by a second [&], then [start_year=..&end_year=..]. *)
Theorem emissions_first_endpoint_both_years (s e : string) :
  s ≠ "" → e ≠ "" → ends_with "&" e = false →
  glob_emissions.first_endpoint
    (Some {| glob_emissions.start_year := Some s; glob_emissions.end_year := Some e |})
  = glob_emissions.BASE_URL +:+ "&" +:+ "start_year=" +:+ s +:+ "&" +:+ "end_year=" +:+ e.
Proof.
  intros Hs He Hamp. unfold glob_emissions.first_endpoint.
  cbn [glob_emissions.start_year glob_emissions.end_year truthy].
  destruct (String.eqb_spec s ""); [done|]. destruct (String.eqb_spec e ""); [done|].
  cbn [negb].
  rewrite <- !string_app_assoc.
  rewrite rstrip_app_char.
  rewrite rstrip_keeps; [done | by apply app_not_empty | by rewrite ends_with_app].
Qed.

Lemma emissions_first_endpoint_both_years_witness :
  glob_emissions.first_endpoint
    (Some {| glob_emissions.start_year := Some "2009";
             glob_emissions.end_year := Some "2010" |})
  = glob_emissions.BASE_URL +:+ "&" +:+ "start_year=" +:+ "2009" +:+ "&" +:+ "end_year="
      +:+ "2010".
Proof.
  apply (emissions_first_endpoint_both_years "2009" "2010"); [discriminate..|reflexivity].
Defined.

Section emissions_loop.
Import glob_emissions.

(** What one turn of the loop can do. *)
Lemma fetch_page_shape (u : string) all_data (w : World) :
  fetch_page (JStr u) all_data w =
    match decode_reply "EndpointResponse" EndpointResponse_fields (upstream w) with
    | Return page =>
        (Return (all_data ++ [("data", data page)], next_cursor (upstream w)),
         after_request (get_request u []) w)
    | Raise e => (Raise e, after_request (get_request u []) w)
    end.
Proof.
  unfold fetch_page. rewrite bind_unfold.
  unfold httpx_get, send, decode_reply, next_cursor. fold (get_request u []).
  unfold after_request.
  destruct (upstream w) as [|[[status bdy]|] rest]; [reflexivity| |reflexivity].
  unfold mbind, M_bind, raise_for_status, response_json, lift, raise, mret, M_ret.
  cbn [status_code body upstream sent error_log stdout tail].
  destruct ((200 <=? status)%Z && (status <? 300)%Z); [|reflexivity].
  destruct bdy as [data|]; [|reflexivity].
  destruct data; reflexivity.
Qed.

Lemma fetch_page_not_a_string (endpoint : json) all_data (w : World) :
  (∀ u, endpoint ≠ JStr u) → fetch_page endpoint all_data w = (Raise TypeError, w).
Proof.
  intros Hne. unfold fetch_page. rewrite bind_unfold.
  destruct endpoint; try reflexivity. by destruct (Hne s).
Qed.

Lemma fetch_page_return_inv (endpoint : json) all_data (w : World) all_data' e' w' :
  fetch_page endpoint all_data w = (Return (all_data', e'), w') →
  ∃ u pairs,
    endpoint = JStr u ∧ all_data' = all_data ++ pairs ∧ length pairs = 1 ∧
    Forall (λ x, x.1 = "data") pairs ∧
    w' = after_request (get_request u []) w.
Proof.
  destruct endpoint as [| | | |u| |];
    try (rewrite fetch_page_not_a_string by done; done).
  rewrite fetch_page_shape.
  destruct (decode_reply _ _ _) as [e|page]; [done|].
  intros [= <- <- <-]. exists u, [("data", data page)].
  repeat split; by repeat constructor.
Qed.

Lemma fetch_page_raise_inv (endpoint : json) all_data (w : World) e w' :
  fetch_page endpoint all_data w = (Raise e, w') →
  w' = w ∨ ∃ u, w' = after_request (get_request u []) w.
Proof.
  destruct endpoint as [| | | |u| |];
    try (rewrite fetch_page_not_a_string by done; intros [= _ <-]; by left).
  rewrite fetch_page_shape. right. exists u.
  destruct (decode_reply _ _ _); by injection H as _ <-.
Qed.

(** More fuel never changes a result that was reached. *)
Lemma fetch_pages_more_fuel (fuel k : nat) (endpoint : json) all_data (w : World) x :
  fetch_pages fuel endpoint all_data w = Some x →
  fetch_pages (fuel + k) endpoint all_data w = Some x.
Proof.
  revert endpoint all_data w. induction fuel as [|fuel IH]; intros e acc w; [done|].
  simpl. destruct (truthy e); [|done].
  destruct (fetch_page e acc w) as [[ex|[acc' e']] w']; [done|]. apply IH.
Qed.

(** The loop invariant: each page taken adds one pair and one request;
    nothing else in the world moves. *)
Lemma fetch_pages_invariant (fuel : nat) (endpoint : json) all_data (w : World) out w' :
  fetch_pages fuel endpoint all_data w = Some (out, w') →
  ∃ reqs,
    sent w' = sent w ++ reqs ∧
    Forall (λ r, method r = GET ∧ params r = [] ∧ content r = None) reqs ∧
    stdout w' = stdout w ∧ error_log w' = error_log w ∧
    match out with
    | Return res =>
        ∃ pairs, res = all_data ++ pairs ∧ length pairs = length reqs ∧
                 Forall (λ x, x.1 = "data") pairs
    | Raise _ => True
    end.
Proof.
  revert endpoint all_data w. induction fuel as [|fuel IH]; intros e acc w; [done|].
  simpl. destruct (truthy e).
  - destruct (fetch_page e acc w) as [[ex|[acc' e']] w1] eqn:Hp.
    + intros [= <- <-]. apply fetch_page_raise_inv in Hp as [->|[u ->]].
      * exists []. rewrite app_nil_r. by repeat split.
      * exists [get_request u []]. by repeat split; repeat constructor.
    + intros H. apply IH in H as (reqs & Hs & Hr & Ho & He & Hout).
      apply fetch_page_return_inv in Hp as (u & pairs & -> & -> & Hlen & Hall & ->).
      exists (get_request u [] :: reqs). simpl in *.
      rewrite Hs, <- app_assoc. split; [done|].
      split; [by repeat constructor|]. split; [done|]. split; [done|].
      destruct out as [|res]; [done|].
      destruct Hout as (pairs' & -> & Hlen' & Hall').
      exists (pairs ++ pairs'). rewrite <- app_assoc. split; [done|].
      split; [rewrite length_app; simpl; lia | by apply Forall_app].
  - intros [= <- <-]. exists []. rewrite app_nil_r. repeat split; try done.
    exists []. by rewrite app_nil_r.
Qed.
End emissions_loop.

Section emissions_fetch_facts.
Import glob_emissions.

Lemma fetch_endpoint_data_first_page (fuel : nat) (params : option EndpointParams)
    (w : World) :
  fetch_endpoint_data (S fuel) params w =
    match decode_reply "EndpointResponse" EndpointResponse_fields (upstream w) with
    | Return page =>
        match fetch_pages fuel (next_cursor (upstream w)) [("data", data page)]
                (after_request (get_request (first_endpoint params) []) w) with
        | Some (Return all_data, w') =>
            Some ((print (str_int (Z.of_nat (length all_data)));; mret all_data) w')
        | r => r
        end
    | Raise e => Some (Raise e, after_request (get_request (first_endpoint params) []) w)
    end.
Proof.
  unfold fetch_endpoint_data. simpl fetch_pages.
  change (negb (String.eqb (first_endpoint params) ""))
    with (truthy (JStr (first_endpoint params))).
  rewrite first_endpoint_truthy, fetch_page_shape.
  destruct (decode_reply _ _ _); reflexivity.
Qed.

Lemma decode_ok_object (o : gmap string json) (r : EndpointResponse) (rest : list reply) :
  EndpointResponse_fields o = Valid r →
  decode_reply "EndpointResponse" EndpointResponse_fields (ok_reply (JObj o) :: rest)
  = Return r.
Proof. intros H. simpl. by rewrite H. Qed.
End emissions_fetch_facts.

(** X17. A page whose [next] is falsy (absent, [null], the empty string,
    zero, [false], an empty list) is the last one: the emissions fetch
    returns after that one GET with the one entry of that page and
    prints [1]. *)
Theorem emissions_fetch_stops_on_falsy_cursor
    (params : option glob_emissions.EndpointParams) (o : gmap string json)
    (r : glob_emissions.EndpointResponse) (rest : list reply) (w : World) (fuel : nat) :
  upstream w = ok_reply (JObj o) :: rest →
  glob_emissions.EndpointResponse_fields o = Valid r →
  truthy (dict_get o "next") = false →
  2 ≤ fuel →
  ∃ w',
    glob_emissions.fetch_endpoint_data fuel params w =
      Some (Return [("data", glob_emissions.data r)], w') ∧
    sent w' = sent w ++ [get_request (glob_emissions.first_endpoint params) []] ∧
    upstream w' = rest ∧
    stdout w' = stdout w ++ ["1"].
Proof.
  intros Hw Hr Hnext Hfuel. destruct fuel as [|[|fuel]]; try lia.
  rewrite fetch_endpoint_data_first_page, Hw, (decode_ok_object o r) by done.
  rewrite fetch_pages_stop by done.
  eexists. split; [reflexivity|]. simpl. by rewrite Hw.
Qed.

Lemma emissions_fetch_stops_on_falsy_cursor_witness :
  ∃ w',
    glob_emissions.fetch_endpoint_data 2 None
      (world_of [ok_reply (JObj page_empty_cursor); ok_reply (JObj page_2)]) =
      Some (Return [("data", [emissions_result 1 (7 # 2)])], w') ∧
    sent w' = [] ++ [get_request (glob_emissions.first_endpoint None) []] ∧
    upstream w' = [ok_reply (JObj page_2)] ∧
    stdout w' = [] ++ ["1"].
Proof.
  apply (emissions_fetch_stops_on_falsy_cursor None page_empty_cursor
           {| glob_emissions.data := [emissions_result 1 (7 # 2)] |}
           [ok_reply (JObj page_2)]
           (world_of [ok_reply (JObj page_empty_cursor); ok_reply (JObj page_2)]) 2).
  - reflexivity.
  - vm_compute. reflexivity.
  - vm_compute. reflexivity.
  - lia.
Defined.

(** X18. Against a finite script of replies the emissions fetch always
    ends: with more fuel than scripted replies it returns, and any
    further fuel gives the same outcome. *)
Theorem emissions_fetch_terminates
    (fuel : nat) (params : option glob_emissions.EndpointParams) (w : World) :
  length (upstream w) < fuel →
  ∃ x, glob_emissions.fetch_endpoint_data fuel params w = Some x ∧
       ∀ k, glob_emissions.fetch_endpoint_data (fuel + k) params w = Some x.
Proof.
  intros Hfuel. unfold glob_emissions.fetch_endpoint_data.
  destruct (fetch_pages_terminates fuel (JStr (glob_emissions.first_endpoint params)) [] w
              Hfuel) as [[out w'] Hx].
  setoid_rewrite (fetch_pages_more_fuel _ _ _ _ _ _ Hx). rewrite Hx.
  destruct out as [e|all_data]; eauto.
Qed.

Lemma emissions_fetch_terminates_witness :
  ∃ x, glob_emissions.fetch_endpoint_data 4 None three_pages = Some x ∧
       ∀ k, glob_emissions.fetch_endpoint_data (4 + k) None three_pages = Some x.
Proof.
  apply (emissions_fetch_terminates 4 None three_pages). simpl. lia.
Defined.

(** X19. When the emissions fetch returns, its result has one entry per
    request it sent (at least one), every entry is named [data], the
    first request went to the built URL, the number of entries is the
    one line printed, and nothing was logged. *)
Theorem emissions_fetch_one_entry_per_request
    (fuel : nat) (params : option glob_emissions.EndpointParams) (w w' : World)
    (res : list (string * list glob_emissions.EndpointResult)) :
  glob_emissions.fetch_endpoint_data fuel params w = Some (Return res, w') →
  1 ≤ length res ∧
  length (new_requests w w') = length res ∧
  Forall (λ x, x.1 = "data") res ∧
  (∃ reqs, new_requests w w' =
             get_request (glob_emissions.first_endpoint params) [] :: reqs) ∧
  stdout w' = stdout w ++ [str_int (Z.of_nat (length res))] ∧
  error_log w' = error_log w.
Proof.
  destruct fuel as [|fuel]; [done|].
  rewrite fetch_endpoint_data_first_page.
  destruct (decode_reply _ _ _) as [e|page]; [done|].
  destruct (glob_emissions.fetch_pages _ _ _ _) as [[[e|all_data] w1]|] eqn:Hp; [done| |done].
  intros [= <- <-].
  apply fetch_pages_invariant in Hp as (reqs & Hs & Hr & Ho & He & pairs & -> & Hlen & Hall).
  simpl in *. unfold new_requests. cbn [sent].
  rewrite Hs, <- app_assoc, drop_app_length, Ho, He. simpl.
  split; [lia|]. split; [lia|]. split; [by constructor|]. split; [eauto | done].
Qed.

Lemma emissions_fetch_one_entry_per_request_witness :
  1 ≤ length [("data", [emissions_result 4 (9 # 1)])] ∧
  length (new_requests (world_of [ok_reply (JObj page_3)])
            {| upstream := []; sent := [get_request glob_emissions.BASE_URL []];
               error_log := []; stdout := ["1"] |})
  = length [("data", [emissions_result 4 (9 # 1)])] ∧
  Forall (λ x : string * list glob_emissions.EndpointResult, x.1 = "data")
    [("data", [emissions_result 4 (9 # 1)])] ∧
  (∃ reqs, new_requests (world_of [ok_reply (JObj page_3)])
             {| upstream := []; sent := [get_request glob_emissions.BASE_URL []];
                error_log := []; stdout := ["1"] |}
           = get_request (glob_emissions.first_endpoint None) [] :: reqs) ∧
  stdout {| upstream := []; sent := [get_request glob_emissions.BASE_URL []];
            error_log := []; stdout := ["1"] |}
  = stdout (world_of [ok_reply (JObj page_3)]) ++
      [str_int (Z.of_nat (length [("data", [emissions_result 4 (9 # 1)])]))] ∧
  error_log {| upstream := []; sent := [get_request glob_emissions.BASE_URL []];
               error_log := []; stdout := ["1"] |}
  = error_log (world_of [ok_reply (JObj page_3)]).
Proof.
  apply (emissions_fetch_one_entry_per_request 2 None).
  vm_compute. reflexivity.
Defined.
(** ** The first URL of the emissions fetch, on the wire *)

Section emissions_url.
Import glob_emissions.

Lemma first_endpoint_parts (p : EndpointParams) :
  first_endpoint (Some p) =
  rstrip "&"
    ("https://www.climatewatchdata.org/api/v1/data/historical_emissions?regions=EUU"
       +:+ ("&&" +:+ year_part "start_year" (start_year p)
                 +:+ year_part "end_year" (end_year p))).
Proof.
  unfold first_endpoint, year_part.
  destruct (start_year p) as [y|], (end_year p) as [y'|];
    repeat (destruct (truthy (JStr _)));
    f_equal; unfold BASE_URL; rewrite ?string_app_assoc; reflexivity.
Qed.

Lemma year_part_safe (name : string) (year : option string) :
  all_chars query_safe name = true → plain_option year = true →
  all_chars query_safe (year_part name year) = true ∧
  (code_points (year_part name year) ≤ code_points name + 20002)%Z.
Proof.
  intros Hname Hyear. pose proof (code_points_nonneg name).
  unfold year_part. destruct year as [y|]; [|split; [done | simpl; lia]].
  simpl in Hyear. pose proof (plain_text_short y Hyear).
  destruct (truthy (JStr y)); [|split; [done | simpl; lia]].
  split.
  - by rewrite !all_chars_app, Hname, (plain_text_query_safe y).
  - rewrite !code_points_app. change (code_points "=") with 1%Z.
    change (code_points "&") with 1%Z. lia.
Qed.

(** With plain-text years httpx sends the first URL as it is. *)
Lemma first_endpoint_plain (params : option EndpointParams) :
  plain_years params = true →
  httpx_url (first_endpoint params) = Some (first_endpoint params).
Proof.
  destruct params as [p|]; [|intros _; vm_compute; reflexivity].
  cbn [plain_years]. intros [Hs He]%andb_true_iff.
  destruct (year_part_safe "start_year" (start_year p)) as [Hs1 Hs2]; [done..|].
  destruct (year_part_safe "end_year" (end_year p)) as [He1 He2]; [done..|].
  rewrite first_endpoint_parts, rstrip_app_keep by done.
  set (t := rstrip "&" _).
  assert (all_chars query_safe t = true) as Ht1.
  { apply all_chars_rstrip. by rewrite !all_chars_app, Hs1, He1. }
  assert (code_points t ≤ 40100)%Z as Ht2.
  { subst t. etrans; [apply code_points_rstrip|].
    rewrite !code_points_app. change (code_points "&&") with 2%Z.
    change (code_points "start_year") with 10%Z in Hs2.
    change (code_points "end_year") with 8%Z in He2. lia. }
  change ("https://www.climatewatchdata.org/api/v1/data/historical_emissions?regions=EUU"
            +:+ t)
    with ("https://www.climatewatchdata.org/api/v1/data/historical_emissions" +:+ "?"
            +:+ ("regions=EUU" +:+ t)).
  apply httpx_url_query; try (vm_compute; reflexivity).
  - by rewrite all_chars_app, Ht1.
  - rewrite code_points_app.
    change (code_points "https://www.climatewatchdata.org/api/v1/data/historical_emissions")
      with 65%Z.
    change (code_points "regions=EUU") with 11%Z. lia.
Qed.
End emissions_url.

(** X20. When the emissions fetch raises, the pages taken so far are
    lost with it: nothing is printed and nothing is logged by the fetch
    itself. With plain-text years the first URL is one httpx sends as it
    is, and the first request had been made. *)
Theorem emissions_fetch_failure_prints_nothing
    (fuel : nat) (params : option glob_emissions.EndpointParams) (w w' : World) (e : exn) :
  glob_emissions.fetch_endpoint_data fuel params w = Some (Raise e, w') →
  stdout w' = stdout w ∧ error_log w' = error_log w ∧
  (plain_years params = true →
   httpx_url (glob_emissions.first_endpoint params) =
     Some (glob_emissions.first_endpoint params) ∧
   ∃ reqs, new_requests w w' =
             get_request (glob_emissions.first_endpoint params) [] :: reqs).
Proof.
  destruct fuel as [|fuel]; [done|].
  rewrite fetch_endpoint_data_first_page.
  destruct (decode_reply _ _ _) as [e0|page].
  - intros [= <- <-]. simpl. split; [done|]. split; [done|].
    intros Hplain. split; [by apply first_endpoint_plain|].
    exists []. unfold new_requests. simpl. by rewrite drop_app_length.
  - destruct (glob_emissions.fetch_pages _ _ _ _) as [[[e0|all_data] w1]|] eqn:Hp;
      [|done..].
    intros [= <- <-].
    apply fetch_pages_invariant in Hp as (reqs & Hs & _ & Ho & He & _).
    simpl in *. split; [done|]. split; [done|].
    intros Hplain. split; [by apply first_endpoint_plain|].
    exists reqs. unfold new_requests. by rewrite Hs, <- app_assoc, drop_app_length.
Qed.

Lemma emissions_fetch_failure_prints_nothing_witness :
  stdout {| upstream := []; sent := [get_request glob_emissions.BASE_URL []];
            error_log := []; stdout := [] |}
  = stdout (world_of [status_reply 503 JNull]) ∧
  error_log {| upstream := []; sent := [get_request glob_emissions.BASE_URL []];
               error_log := []; stdout := [] |}
  = error_log (world_of [status_reply 503 JNull]) ∧
  (plain_years None = true →
   httpx_url (glob_emissions.first_endpoint None) =
     Some (glob_emissions.first_endpoint None) ∧
   ∃ reqs, new_requests (world_of [status_reply 503 JNull])
             {| upstream := []; sent := [get_request glob_emissions.BASE_URL []];
                error_log := []; stdout := [] |}
           = get_request (glob_emissions.first_endpoint None) [] :: reqs).
Proof.
  apply (emissions_fetch_failure_prints_nothing 1 None (world_of [status_reply 503 JNull])
           _ (HTTPStatusError 503)).
  vm_compute. reflexivity.
Defined.

(** X21. A [next] cursor that is truthy but not a string (a page number,
    say) makes the emissions fetch raise [TypeError] after the first
    page: one request was sent, the following reply is not consumed and
    nothing is printed. *)
Theorem emissions_fetch_cursor_must_be_text
    (params : option glob_emissions.EndpointParams) (o : gmap string json)
    (r : glob_emissions.EndpointResponse) (rest : list reply) (w : World) (fuel : nat) :
  upstream w = ok_reply (JObj o) :: rest →
  glob_emissions.EndpointResponse_fields o = Valid r →
  truthy (dict_get o "next") = true → (∀ u, dict_get o "next" ≠ JStr u) →
  2 ≤ fuel →
  ∃ w',
    glob_emissions.fetch_endpoint_data fuel params w = Some (Raise TypeError, w') ∧
    sent w' = sent w ++ [get_request (glob_emissions.first_endpoint params) []] ∧
    upstream w' = rest ∧
    stdout w' = stdout w.
Proof.
  intros Hw Hr Hnext Hstr Hfuel. destruct fuel as [|[|fuel]]; try lia.
  rewrite fetch_endpoint_data_first_page, Hw, (decode_ok_object o r) by done.
  simpl next_cursor. simpl glob_emissions.fetch_pages. rewrite Hnext.
  rewrite fetch_page_not_a_string by done.
  eexists. split; [reflexivity|]. simpl. by rewrite Hw.
Qed.

Lemma emissions_fetch_cursor_must_be_text_witness :
  ∃ w',
    glob_emissions.fetch_endpoint_data 2 None
      (world_of [ok_reply (JObj page_number_cursor); ok_reply (JObj page_2)]) =
      Some (Raise TypeError, w') ∧
    sent w' = [] ++ [get_request (glob_emissions.first_endpoint None) []] ∧
    upstream w' = [ok_reply (JObj page_2)] ∧
    stdout w' = [].
Proof.
  apply (emissions_fetch_cursor_must_be_text None page_number_cursor
           {| glob_emissions.data := [emissions_result 1 (7 # 2)] |}
           [ok_reply (JObj page_2)]
           (world_of [ok_reply (JObj page_number_cursor); ok_reply (JObj page_2)]) 2).
  - reflexivity.
  - vm_compute. reflexivity.
  - vm_compute. reflexivity.
  - intros u. vm_compute. discriminate.
  - lia.
Defined.

(** X22. With plain-text years and a cursor that httpx sends as it is:
    if the second page comes back with a status outside 2xx, the
    emissions fetch raises [HTTPStatusError] with that status after its
    two requests; the first page is not returned and nothing is
    printed. *)
Theorem emissions_fetch_second_page_fails
    (params : option glob_emissions.EndpointParams) (o1 : gmap string json) (n1 : string)
    (r1 : glob_emissions.EndpointResponse) (status : Z) (data : json)
    (rest : list reply) (w : World) (fuel : nat) :
  plain_years params = true →
  upstream w = ok_reply (JObj o1) :: status_reply status data :: rest →
  glob_emissions.EndpointResponse_fields o1 = Valid r1 →
  o1 !! "next" = Some (JStr n1) → httpx_url n1 = Some n1 →
  (status < 200 ∨ 300 ≤ status)%Z →
  2 ≤ fuel →
  ∃ w',
    glob_emissions.fetch_endpoint_data fuel params w =
      Some (Raise (HTTPStatusError status), w') ∧
    sent w' = sent w ++ [get_request (glob_emissions.first_endpoint params) [];
                         get_request n1 []] ∧
    httpx_url (glob_emissions.first_endpoint params) =
      Some (glob_emissions.first_endpoint params) ∧
    upstream w' = rest ∧
    stdout w' = stdout w.
Proof.
  intros Hplain Hw Hr Hn Hurl Hs Hfuel. destruct fuel as [|[|fuel]]; try lia.
  assert (n1 ≠ "") as Hne by (intros ->; vm_compute in Hurl; discriminate).
  rewrite fetch_endpoint_data_first_page, Hw, (decode_ok_object o1 r1) by done.
  simpl next_cursor. unfold dict_get. rewrite Hn. simpl default.
  simpl glob_emissions.fetch_pages.
  destruct (String.eqb_spec n1 ""); [done|]. cbn [negb].
  rewrite fetch_page_shape. simpl upstream. rewrite Hw. simpl tail.
  assert (decode_reply "EndpointResponse" glob_emissions.EndpointResponse_fields
            (status_reply status data :: rest) = Raise (HTTPStatusError status)) as ->.
  { simpl. destruct (Z.leb_spec 200 status), (Z.ltb_spec status 300); simpl; try done; lia. }
  eexists. split; [reflexivity|]. simpl. rewrite Hw. simpl.
  split; [by rewrite <- app_assoc|]. split; [by apply first_endpoint_plain | done].
Qed.

Lemma emissions_fetch_second_page_fails_witness :
  ∃ w',
    glob_emissions.fetch_endpoint_data 2 None
      (world_of [ok_reply (JObj page_1); status_reply 500 JNull; ok_reply (JObj page_3)]) =
      Some (Raise (HTTPStatusError 500), w') ∧
    sent w' = [] ++ [get_request (glob_emissions.first_endpoint None) [];
                     get_request
                       "https://www.climatewatchdata.org/api/v1/data/historical_emissions?page=2"
                       []] ∧
    httpx_url (glob_emissions.first_endpoint None) =
      Some (glob_emissions.first_endpoint None) ∧
    upstream w' = [ok_reply (JObj page_3)] ∧
    stdout w' = [].
Proof.
  apply (emissions_fetch_second_page_fails None page_1
           "https://www.climatewatchdata.org/api/v1/data/historical_emissions?page=2"
           {| glob_emissions.data := [emissions_result 1 (7 # 2); emissions_result 2 (5 # 1)] |}
           500 JNull [ok_reply (JObj page_3)]
           (world_of [ok_reply (JObj page_1); status_reply 500 JNull; ok_reply (JObj page_3)])
           2).
  - reflexivity.
  - reflexivity.
  - vm_compute. reflexivity.
  - vm_compute. reflexivity.
  - vm_compute. reflexivity.
  - right. lia.
  - lia.
Defined.

(** X23. The emissions handler treats missing arguments as the empty
    mapping, and a year that is given but is neither a string nor
    [null] (a number, say) is rejected before anything is sent, whatever
    the fuel: the handler raises a [ValidationError] located at that
    field and logs it. *)
Theorem emissions_handler_years_must_be_text
    (repr_float : Q → string) (fuel : nat) (kw : gmap string json)
    (field : string) (j : json) (w : World) :
  (field = "start_year" ∨ field = "end_year") →
  kw !! field = Some j → j ≠ JNull → (∀ s, j ≠ JStr s) →
  glob_emissions_tool.handle_endpoint repr_float fuel None w =
    glob_emissions_tool.handle_endpoint repr_float fuel (Some ∅) w ∧
  ∃ errs,
    glob_emissions_tool.handle_endpoint repr_float fuel (Some kw) w =
      Some (Raise (ValidationError "EndpointParams" errs),
            after_error "Error handling endpoint"
              (ValidationError "EndpointParams" errs) w) ∧
    {| err_loc := [LField field]; err_type := string_type |} ∈ errs.
Proof.
  intros Hfield Hk Hnull Hstr. split; [reflexivity|].
  unfold glob_emissions_tool.handle_endpoint, try_log_fuel. rewrite or_empty_Some.
  assert (fails_with {| err_loc := []; err_type := string_type |}
            (v_optional v_str j)) as Hj.
  { destruct j; try done; try apply (fails_with_fmap _ Some), fail_with_fails.
    by destruct (Hstr s). }
  destruct (construct_fails_with "EndpointParams" glob_emissions.EndpointParams_fields kw
              {| err_loc := [LField field]; err_type := string_type |})
    as (errs & Hc & He).
  { unfold glob_emissions.EndpointParams_fields.
    destruct Hfield as [->| ->].
    - apply fails_with_ap_l, fails_with_fmap.
      by apply (with_default_fails_with _ _ _ _ j {| err_loc := []; err_type := string_type |}).
    - apply fails_with_ap_r.
      by apply (with_default_fails_with _ _ _ _ j {| err_loc := []; err_type := string_type |}). }
  rewrite Hc. exists errs. done.
Qed.

Lemma emissions_handler_years_must_be_text_witness :
  glob_emissions_tool.handle_endpoint (λ _, "0.0") 0 None three_pages =
    glob_emissions_tool.handle_endpoint (λ _, "0.0") 0 (Some ∅) three_pages ∧
  ∃ errs,
    glob_emissions_tool.handle_endpoint (λ _, "0.0") 0
      (Some {[ "start_year" := JInt 2009 ]}) three_pages =
      Some (Raise (ValidationError "EndpointParams" errs),
            after_error "Error handling endpoint"
              (ValidationError "EndpointParams" errs) three_pages) ∧
    {| err_loc := [LField "start_year"]; err_type := string_type |} ∈ errs.
Proof.
  apply (emissions_handler_years_must_be_text (λ _, "0.0") 0
           {[ "start_year" := JInt 2009 ]} "start_year" (JInt 2009) three_pages).
  - by left.
  - vm_compute. reflexivity.
  - discriminate.
  - discriminate.
Defined.

(** ** The EV-charging provider *)

Section evcharge_extras.
Import ch_evcharge.
Variable repr_float : Q → string.

Lemma evcharge_fetch_shape (p : ChargingStationParams) (w : World) :
  fetch_endpoint_data p w =
    (decode_reply "CharingStationResponse" CharingStationResponse_fields (upstream w),
     after_request
       (get_request
          (BASE_URL +:+ "%3Aevse&maxFeatures=10&outputFormat=application%2Fjson"
             +:+ test p) []) w).
Proof. unfold fetch_endpoint_data, httpx_get. apply fetch_shape. Qed.

Lemma handle_query_charing_station_shape
    (arguments : option (gmap string json)) (w : World) :
  ch_evcharge_tool.handle_query_charing_station repr_float arguments w =
    match construct "ChargingStationParams" ChargingStationParams_fields
            (JObj (default ∅ arguments)) with
    | Raise e => (Raise e, after_error "Error handling endpoint" e w)
    | Return p =>
        match fetch_endpoint_data p w with
        | (Return r, w') =>
            (Return [ {| type := "text";
                         text := ch_evcharge_tool.CharingStationResponse_str repr_float r |} ],
             w')
        | (Raise e, w') => (Raise e, after_error "Error handling endpoint" e w')
        end
    end.
Proof.
  unfold ch_evcharge_tool.handle_query_charing_station. rewrite or_empty_default.
  apply (handler_shape "Error handling endpoint" _ fetch_endpoint_data
           (ch_evcharge_tool.CharingStationResponse_str repr_float)).
Qed.

(** httpx sends the URL of the fetch as it is when [test] is plain
    text. *)
Lemma evcharge_url_plain (t : string) :
  plain_text t = true →
  httpx_url (BASE_URL +:+ "%3Aevse&maxFeatures=10&outputFormat=application%2Fjson" +:+ t)
  = Some (BASE_URL +:+ "%3Aevse&maxFeatures=10&outputFormat=application%2Fjson" +:+ t).
Proof.
  intros Ht. pose proof (plain_text_short t Ht).
  change (BASE_URL +:+ "%3Aevse&maxFeatures=10&outputFormat=application%2Fjson" +:+ t)
    with ("http://ich-tanke-strom.switzerlandnorth.cloudapp.azure.com:8080/geoserver/ich-tanke-strom/ows"
            +:+ "?"
            +:+ ("service=WFS&version=1.0.0&request=GetFeature&typeName=ich-tanke-strom%3Aevse&maxFeatures=10&outputFormat=application%2Fjson"
                   +:+ t)).
  apply httpx_url_query; try (vm_compute; reflexivity).
  - by rewrite all_chars_app, (plain_text_query_safe t).
  - rewrite code_points_app.
    match goal with
    | |- (code_points ?a + 1 + (code_points ?b + _) ≤ _)%Z =>
        assert (code_points a + code_points b ≤ 1000)%Z
          by (apply Z.leb_le; vm_compute; reflexivity)
    end.
    lia.
Qed.
End evcharge_extras.

(** X24. The EV-charging handler reads [limit] and [test] only: missing
    arguments are the empty mapping and any other key is ignored. The
    unused [limit] is validated all the same: [null], a list or an
    object there makes the handler raise a [ValidationError] before
    anything is sent. *)
Theorem evcharge_handler_arguments
    (repr_float : Q → string) (kw : gmap string json) (w : World) :
  ch_evcharge_tool.handle_query_charing_station repr_float None w =
    ch_evcharge_tool.handle_query_charing_station repr_float (Some ∅) w ∧
  (∀ k v, k ∉ ["limit"; "test"] →
     ch_evcharge_tool.handle_query_charing_station repr_float (Some (<[k:=v]> kw)) w =
     ch_evcharge_tool.handle_query_charing_station repr_float (Some kw) w) ∧
  (∀ j, kw !! "limit" = Some j →
     input_models.misshapen input_models.an_int j = true →
     ∃ errs w',
       ch_evcharge_tool.handle_query_charing_station repr_float (Some kw) w =
         (Raise (ValidationError "ChargingStationParams" errs), w') ∧
       sent w' = sent w ∧ upstream w' = upstream w).
Proof.
  split; [reflexivity|]. split.
  - intros k v Hk. rewrite !handle_query_charing_station_shape. simpl default.
    simpl construct. unfold ch_evcharge.ChargingStationParams_fields.
    revert Hk. rewrite !not_elem_of_cons. intros (? & ? & _).
    by rewrite !with_default_insert_ne by done.
  - intros j Hk Hj. rewrite handle_query_charing_station_shape. simpl default.
    simpl construct. unfold ch_evcharge.ChargingStationParams_fields, with_default.
    rewrite Hk.
    assert (∃ errs, v_int j = Invalid errs) as [errs ->]
      by (destruct j; try discriminate Hj; eexists; reflexivity).
    simpl. destruct (match kw !! "test" with Some _ => _ | None => _ end);
      eexists _, _; (split; [reflexivity | done]).
Qed.

Lemma evcharge_handler_arguments_witness :
  ∃ errs w',
    ch_evcharge_tool.handle_query_charing_station (λ _, "0.0")
      (Some {[ "limit" := JNull ]}) three_pages =
      (Raise (ValidationError "ChargingStationParams" errs), w') ∧
    sent w' = sent three_pages ∧ upstream w' = upstream three_pages.
Proof.
  apply (proj2 (proj2 (evcharge_handler_arguments (λ _, "0.0") {[ "limit" := JNull ]}
                         three_pages)) JNull).
  - vm_compute. reflexivity.
  - reflexivity.
Defined.



(** X26. The EV-charging handler keeps the handler contract for every
    argument mapping and every upstream. *)
Theorem evcharge_handler_contract
    (repr_float : Q → string) (arguments : option (gmap string json)) :
  handler_contract "Error handling endpoint"
    (ch_evcharge_tool.handle_query_charing_station repr_float arguments).
Proof.
  apply (handler_contract_intro "Error handling endpoint").
  intros p w. right. rewrite evcharge_fetch_shape. eauto.
Qed.

(** ** The people-search provider *)

Section people_extras.
Import glob_personal_data people_fields.
Variable repr_float : Q → string.

Lemma people_fetch_shape (api_key : string) (p : EndpointParams) (w : World) :
  fetch_endpoint_data (Some api_key) p w =
    (decode_reply "EndpointResponse" EndpointResponse_fields (upstream w),
     after_request (people_request api_key p) w).
Proof.
  unfold fetch_endpoint_data. rewrite httpx_post_with_key. apply fetch_shape.
Qed.

Lemma people_fetch_without_key (p : EndpointParams) (w : World) :
  fetch_endpoint_data None p w = (Raise TypeError, w).
Proof. reflexivity. Qed.

Lemma people_handle_endpoint_shape (api_key : option string)
    (arguments : option (gmap string json)) (w : World) :
  glob_personal_data_tool.handle_endpoint api_key repr_float arguments w =
    match construct "EndpointParams" EndpointParams_fields
            (JObj (default ∅ arguments)) with
    | Raise e => (Raise e, after_error "Error handling endpoint" e w)
    | Return p =>
        match fetch_endpoint_data api_key p w with
        | (Return r, w') =>
            (Return [ {| type := "text";
                         text := glob_personal_data_tool.EndpointResponse_str
                                   repr_float r |} ], w')
        | (Raise e, w') => (Raise e, after_error "Error handling endpoint" e w')
        end
    end.
Proof.
  unfold glob_personal_data_tool.handle_endpoint. rewrite or_empty_default.
  apply (handler_shape "Error handling endpoint" _ (fetch_endpoint_data api_key)
           (glob_personal_data_tool.EndpointResponse_str repr_float)).
Qed.

Lemma people_default_page (kw : gmap string json) (p : EndpointParams) :
  kw !! "page" = None → EndpointParams_fields kw = Valid p → page p = Some 1%Z.
Proof.
  intros Hk H. unfold EndpointParams_fields in H.
  apply v_ap_valid_inv in H; destruct H as (? & ? & H & _ & ->).
  apply v_ap_valid_inv in H; destruct H as (? & pg & H & Hpage & ->).
  repeat (apply v_ap_valid_inv in H; destruct H as (? & ? & H & ? & ->)).
  apply fmap_valid_inv in H; destruct H as (? & ? & ->). simpl.
  unfold with_default in Hpage. rewrite Hk in Hpage. congruence.
Qed.

Lemma query_string_page (p : EndpointParams) :
  ∃ before,
    query_string p =
      before +:+
      match page p with
      | Some n => "page=" +:+ replace " " "%20" (str_int n) +:+ "&"
      | None => ""
      end +:+
      match per_page p with
      | Some n => "per_page=" +:+ replace " " "%20" (str_int n) +:+ "&"
      | None => ""
      end.
Proof.
  exists (fold_left add_param
            ((all_list_fields ≫= λ g, dump_field (key g) DList (get g p)) ++
             dump_field "q_keywords" DStr (q_keywords p)) "").
  unfold query_string. rewrite model_dump_by_fields.
  rewrite !fold_add_param_concat, !string_app_assoc.
  destruct (page p), (per_page p); reflexivity.
Qed.

Lemma list_field_must_be_list (f : list_field) (kw : gmap string json) (s : string) :
  kw !! key f = Some (JStr s) →
  fails_with {| err_loc := [LField (key f)]; err_type := list_type |}
             (EndpointParams_fields kw).
Proof.
  intros Hk.
  assert (∀ d, fails_with {| err_loc := [LField (key f)]; err_type := list_type |}
                 (with_default (key f) (v_optional (v_list v_str)) d kw)) as Hf.
  { intros d.
    apply (with_default_fails_with _ _ _ _ (JStr s) {| err_loc := []; err_type := list_type |});
      [done|]. apply (fails_with_fmap _ Some), fail_with_fails. }
  unfold EndpointParams_fields.
  destruct f; simpl key in Hf.
  - do 10 apply fails_with_ap_l. apply fails_with_fmap, Hf.
  - do 9 apply fails_with_ap_l. apply fails_with_ap_r, Hf.
  - do 8 apply fails_with_ap_l. apply fails_with_ap_r, Hf.
  - do 7 apply fails_with_ap_l. apply fails_with_ap_r, Hf.
  - do 6 apply fails_with_ap_l. apply fails_with_ap_r, Hf.
  - do 5 apply fails_with_ap_l. apply fails_with_ap_r, Hf.
  - do 4 apply fails_with_ap_l. apply fails_with_ap_r, Hf.
  - do 3 apply fails_with_ap_l. apply fails_with_ap_r, Hf.
Qed.
End people_extras.

(** X27. The URL of the people search never ends in [&]. When the
    arguments carry no [page], the validated object has page 1 and the
    query string ends with [page=1&] followed only by the [per_page]
    key when that is set. *)
Theorem people_search_url_edges
    (kw : gmap string json) (p : glob_personal_data.EndpointParams) :
  construct "EndpointParams" glob_personal_data.EndpointParams_fields (JObj kw) = Return p →
  ends_with "&" (glob_personal_data.endpoint p) = false ∧
  (kw !! "page" = None →
   ∃ before,
     glob_personal_data.query_string p =
       before +:+ "page=1&" +:+
       match glob_personal_data.per_page p with
       | Some n => "per_page=" +:+ replace " " "%20" (str_int n) +:+ "&"
       | None => ""
       end).
Proof.
  intros Hp%construct_return_inv. split.
  - unfold glob_personal_data.endpoint. destruct (truthy _); [|reflexivity].
    destruct (rstrip "&" (glob_personal_data.query_string p)) as [|a r] eqn:E.
    + reflexivity.
    + rewrite <- string_app_assoc, ends_with_app by done.
      rewrite <- E. apply ends_with_rstrip.
  - intros Hk. destruct (query_string_page p) as [before Hq].
    rewrite (people_default_page kw p Hk Hp) in Hq. exists before. exact Hq.
Qed.

Lemma people_search_url_edges_witness :
  ends_with "&" (glob_personal_data.endpoint people_five_per_page) = false ∧
  (({[ "per_page" := JInt 5 ]} : gmap string json) !! "page" = None →
   ∃ before,
     glob_personal_data.query_string people_five_per_page =
       before +:+ "page=1&" +:+
       match glob_personal_data.per_page people_five_per_page with
       | Some n => "per_page=" +:+ replace " " "%20" (str_int n) +:+ "&"
       | None => ""
       end).
Proof.
  apply (people_search_url_edges {[ "per_page" := JInt 5 ]} people_five_per_page).
  vm_compute. reflexivity.
Defined.

(** X28. With no API key configured the people-search handler never
    sends anything: it always raises (a [TypeError] once the arguments
    have validated), and the request log and the upstream are left as
    they were. *)
Theorem people_search_without_key_sends_nothing
    (repr_float : Q → string) (arguments : option (gmap string json)) (w : World) :
  ∃ e w',
    glob_personal_data_tool.handle_endpoint None repr_float arguments w = (Raise e, w') ∧
    sent w' = sent w ∧ upstream w' = upstream w ∧
    error_log w' = error_log w ++ [("Error handling endpoint", e)] ∧
    (∀ p, construct "EndpointParams" glob_personal_data.EndpointParams_fields
            (or_empty arguments) = Return p → e = TypeError).
Proof.
  rewrite people_handle_endpoint_shape, or_empty_default.
  destruct (construct _ _ _) as [e|p].
  - eexists e, _. split; [reflexivity|]. done.
  - rewrite people_fetch_without_key. eexists TypeError, _. split; [reflexivity|]. done.
Qed.

(** X29. A list-valued people-search field given as a bare string is
    rejected: the handler raises a [ValidationError] located at that
    field with kind [list_type], and sends nothing, with or without an
    API key. *)
Theorem people_search_list_field_must_be_list
    (api_key : option string) (repr_float : Q → string)
    (f : people_fields.list_field) (kw : gmap string json) (s : string) (w : World) :
  kw !! people_fields.key f = Some (JStr s) →
  ∃ errs w',
    glob_personal_data_tool.handle_endpoint api_key repr_float (Some kw) w =
      (Raise (ValidationError "EndpointParams" errs), w') ∧
    {| err_loc := [LField (people_fields.key f)]; err_type := list_type |} ∈ errs ∧
    sent w' = sent w ∧ upstream w' = upstream w.
Proof.
  intros Hk. rewrite people_handle_endpoint_shape. simpl default.
  destruct (construct_fails_with "EndpointParams" glob_personal_data.EndpointParams_fields
              kw _ (list_field_must_be_list f kw s Hk)) as (errs & Hc & He).
  rewrite Hc. eexists errs, _. split; [reflexivity | done].
Qed.

Lemma people_search_list_field_must_be_list_witness :
  ∃ errs w',
    glob_personal_data_tool.handle_endpoint (Some "secret") (λ _, "0.0")
      (Some {[ "person_titles" := JStr "software engineer" ]}) three_pages =
      (Raise (ValidationError "EndpointParams" errs), w') ∧
    {| err_loc := [LField (people_fields.key people_fields.f_person_titles)];
       err_type := list_type |} ∈ errs ∧
    sent w' = sent three_pages ∧ upstream w' = upstream three_pages.
Proof.
  apply (people_search_list_field_must_be_list (Some "secret") (λ _, "0.0")
           people_fields.f_person_titles
           {[ "person_titles" := JStr "software engineer" ]} "software engineer"
           three_pages).
  vm_compute. reflexivity.
Defined.

(** X30. The people-search handler keeps the handler contract for every
    argument mapping and every upstream, with or without an API key. *)
Theorem people_search_handler_contract
    (api_key : option string) (repr_float : Q → string)
    (arguments : option (gmap string json)) :
  handler_contract "Error handling endpoint"
    (glob_personal_data_tool.handle_endpoint api_key repr_float arguments).
Proof.
  apply (handler_contract_intro "Error handling endpoint").
  intros p w. destruct api_key as [k|].
  - right. rewrite people_fetch_shape. eauto.
  - left. rewrite people_fetch_without_key. eauto.
Qed.

(** * The input-schema models together *)

Section fails_at_facts.
Context {A B : Type}.

Lemma fails_at_ap_l k (f : V (A → B)) (x : V A) : fails_at k f → fails_at k (f <*> x).
Proof.
  intros (errs & e & rest & -> & He & Hloc). destruct x as [errs'|a]; simpl.
  - exists (errs ++ errs'), e, rest. split; [done|]. split; [|done].
    apply elem_of_app. by left.
  - by exists errs, e, rest.
Qed.

Lemma fails_at_ap_r k (f : V (A → B)) (x : V A) : fails_at k x → fails_at k (f <*> x).
Proof.
  intros (errs & e & rest & -> & He & Hloc). destruct f as [errs'|g]; simpl.
  - exists (errs' ++ errs), e, rest. split; [done|]. split; [|done].
    apply elem_of_app. by right.
  - by exists errs, e, rest.
Qed.

Lemma fails_at_fmap k (g : A → B) (x : V A) : fails_at k x → fails_at k (g <$> x).
Proof. intros (errs & e & rest & -> & He & Hloc). by exists errs, e, rest. Qed.
End fails_at_facts.

Lemma at_loc_fails_at {A} (k : string) (x : V A) :
  (∃ errs, x = Invalid errs ∧ errs ≠ []) → fails_at k (at_loc (LField k) x).
Proof.
  intros (errs & -> & Hne). destruct errs as [|e errs]; [done|]. simpl.
  eexists _, _, (err_loc e). split; [reflexivity|]. split; [constructor | reflexivity].
Qed.

Lemma with_default_fails_at {A} (k : string) (v : validator A) (d : A)
    (kw : gmap string json) (j : json) :
  kw !! k = Some j → rejects v j → fails_at k (with_default k v d kw).
Proof. intros Hk Hv. unfold with_default. rewrite Hk. by apply at_loc_fails_at. Qed.

Lemma required_fails_at {A} (k : string) (v : validator A)
    (kw : gmap string json) (j : json) :
  kw !! k = Some j → rejects v j → fails_at k (required k v kw).
Proof. intros Hk Hv. unfold required. rewrite Hk. by apply at_loc_fails_at. Qed.

Lemma construct_fails_at {A} (title : string) (fields : gmap string json → V A)
    (kw : gmap string json) (k : string) :
  fails_at k (fields kw) →
  ∃ errs e rest,
    construct title fields (JObj kw) = Raise (ValidationError title errs) ∧
    e ∈ errs ∧ err_loc e = LField k :: rest.
Proof. intros (errs & e & rest & Hf & He & Hloc). exists errs, e, rest. simpl. by rewrite Hf. Qed.

(** A value of the wrong JSON type is turned down by the validator of
    the declared type. *)
Section misshapen.
Import input_models.

Ltac by_shape j H :=
  destruct j; try discriminate H; eexists; (split; [reflexivity | done]).

Lemma rejects_str j : misshapen a_str j = true → rejects v_str j.
Proof. intros H. by_shape j H. Qed.

Lemma rejects_some_str j : misshapen a_str j = true → rejects (λ j, Some <$> v_str j) j.
Proof. intros H. by_shape j H. Qed.

Lemma rejects_optional_str j :
  misshapen an_optional_str j = true → rejects (v_optional v_str) j.
Proof. intros H. by_shape j H. Qed.

Lemma rejects_int j : misshapen an_int j = true → rejects v_int j.
Proof. intros H. by_shape j H. Qed.

Lemma rejects_optional_int j :
  misshapen an_optional_int j = true → rejects (v_optional v_int) j.
Proof. intros H. by_shape j H. Qed.

Lemma rejects_bool j : misshapen a_bool j = true → rejects v_bool j.
Proof. intros H. by_shape j H. Qed.

Lemma rejects_ge lo v j : rejects v j → rejects (ge lo v) j.
Proof. intros (errs & H & Hne). exists errs. unfold ge. by rewrite H. Qed.

Lemma rejects_le hi v j : rejects v j → rejects (le hi v) j.
Proof. intros (errs & H & Hne). exists errs. unfold le. by rewrite H. Qed.

Lemma v_items_rejects (l : list json) (i : nat) :
  forallb is_str l = false →
  ∃ errs, v_items v_str i l = Invalid errs ∧ errs ≠ [].
Proof.
  revert i. induction l as [|j l IH]; intros i; simpl; [done|].
  destruct (is_str j) eqn:Ej; simpl.
  - intros (errs & -> & Hne)%(IH (S i)).
    destruct j; try discriminate Ej. simpl. by exists errs.
  - intros _. destruct j; try discriminate Ej;
      (destruct (v_items v_str (S i) l); simpl; eexists; (split; [reflexivity | done])).
Qed.

Lemma rejects_optional_list j :
  misshapen an_optional_list_of_str j = true → rejects (v_optional (v_list v_str)) j.
Proof.
  intros H. destruct j as [| | | | |l|]; try discriminate H;
    try (eexists; (split; [reflexivity | done])).
  simpl in H. apply negb_true_iff, (v_items_rejects l 0) in H as (errs & H & Hne).
  exists errs. simpl. by rewrite H.
Qed.
End misshapen.

Create HintDb rejects.
#[local] Hint Resolve rejects_str rejects_some_str rejects_optional_str rejects_int
  rejects_optional_int rejects_bool rejects_ge rejects_le rejects_optional_list : rejects.

Ltac field_fails Hk :=
  first [ eapply with_default_fails_at; [exact Hk | eauto with rejects]
        | eapply required_fails_at; [exact Hk | eauto with rejects] ].

Ltac locate_field Hk :=
  first [ apply fails_at_ap_r; field_fails Hk
        | apply fails_at_fmap; field_fails Hk
        | apply fails_at_ap_l; locate_field Hk ].

Ltac locate_with Hf :=
  first [ apply fails_with_ap_r; exact Hf
        | apply fails_with_fmap; exact Hf
        | apply fails_with_ap_l; locate_with Hf ].

Lemma reports_required {A} key (v : validator A) kw :
  (∀ j errs, v j = Invalid errs → errs ≠ []) →
  ∀ errs, required key v kw = Invalid errs → errs ≠ [].
Proof.
  intros Hv errs. unfold required. destruct (kw !! key).
  - apply reports_at_loc, Hv.
  - by intros [= <-].
Qed.

Lemma reports_v_items {A} (v : validator A) (l : list json) (i : nat) :
  (∀ j errs, v j = Invalid errs → errs ≠ []) →
  ∀ errs, v_items v i l = Invalid errs → errs ≠ [].
Proof.
  intros Hv. revert i. induction l as [|j l IH]; intros i errs; simpl; [done|].
  apply reports_ap; [|apply IH]. apply reports_fmap, reports_at_loc, Hv.
Qed.

Lemma reports_v_list {A} (v : validator A) j :
  (∀ j errs, v j = Invalid errs → errs ≠ []) →
  ∀ errs, v_list v j = Invalid errs → errs ≠ [].
Proof.
  intros Hv errs. destruct j; simpl; try (by intros [= <-]). by apply reports_v_items.
Qed.

Ltac field_reports :=
  intros ?;
  first [ apply reports_v_str | apply reports_v_bool | apply reports_v_int
        | apply reports_fmap, reports_v_str
        | apply reports_v_optional, reports_v_str
        | apply reports_v_optional, reports_v_int
        | apply reports_v_optional, reports_v_list, reports_v_str
        | apply reports_ge, reports_le, reports_v_int
        | apply reports_ge, reports_v_int ].

Ltac model_reports :=
  repeat (apply reports_ap;
          [|first [apply reports_with_default | apply reports_required]; field_reports]);
  apply reports_fmap;
  first [apply reports_with_default | apply reports_required]; field_reports.

Section input_model_facts.
Import input_models.

Lemma fields_report (m : model) (kw : gmap string json) (errs : list ErrorDetails) :
  fields m kw = Invalid errs → errs ≠ [].
Proof.
  revert errs. destruct m; simpl.
  - apply TrafficInfoParams_reports.
  - unfold ch_sbb_railway.RailwayLineParams_fields. model_reports.
  - unfold ch_public_transit.Public_TransitParams_fields. model_reports.
  - unfold glob_emissions.EndpointParams_fields. model_reports.
  - unfold glob_personal_data.EndpointParams_fields. model_reports.
  - unfold ch_evcharge.ChargingStationParams_fields. model_reports.
Qed.

Lemma fields_within (m : model) (kw : gmap string json) (x : instance m) :
  fields m kw = Valid x → within m x.
Proof.
  destruct m; simpl; try done.
  - apply TrafficInfoParams_bounds.
  - apply RailwayLineParams_bounds.
Qed.

Lemma fields_misshapen (m : model) (kw : gmap string json) k t j :
  (k, t) ∈ declared m → kw !! k = Some j → misshapen t j = true →
  fails_at k (fields m kw).
Proof.
  intros Hin Hk Hw.
  destruct m; simpl in Hin;
    repeat (apply elem_of_cons in Hin as [[= -> ->]|Hin]);
    try (by apply elem_of_nil in Hin);
    simpl;
    unfold ch_sbb.TrafficInfoParams_fields, ch_sbb_railway.RailwayLineParams_fields,
      ch_public_transit.Public_TransitParams_fields, glob_emissions.EndpointParams_fields,
      glob_personal_data.EndpointParams_fields, ch_evcharge.ChargingStationParams_fields;
    locate_field Hk.
Qed.

Lemma fields_out_of_range (m : model) (kw : gmap string json) k lo hi n :
  (k, lo, hi) ∈ ranges m → kw !! k = Some (JInt n) →
  (n < lo ∨ ∃ h, hi = Some h ∧ h < n)%Z →
  ∃ e, fails_with e (fields m kw) ∧ err_loc e = [LField k].
Proof.
  intros Hin Hk Hn.
  assert (m = Traffic ∨ m = Railway) as Hm
    by (destruct m; simpl in Hin; try (by apply elem_of_nil in Hin); auto).
  assert ((k, lo, hi) ∈ [("limit", 1%Z, Some 100%Z); ("offset", 0%Z, None)]) as Hin'
    by (by destruct Hm as [-> | ->]).
  clear Hin. apply elem_of_cons in Hin' as [[= -> -> ->]|Hin'].
  - assert (n < 1 ∨ 100 < n)%Z as Hn' by (destruct Hn as [?|(h & [= <-] & ?)]; lia).
    destruct (out_of_range_limit_fails n Hn') as (t & _ & Ht).
    exists {| err_loc := [LField "limit"]; err_type := t |}. split; [|done].
    pose proof (with_default_fails_with "limit" _ 10%Z kw (JInt n) _ Hk Ht) as Hf.
    destruct Hm as [-> | ->]; simpl;
      unfold ch_sbb.TrafficInfoParams_fields, ch_sbb_railway.RailwayLineParams_fields;
      locate_with Hf.
  - apply list_elem_of_singleton in Hin' as [= -> -> ->].
    assert (n < 0)%Z as Hn' by (destruct Hn as [?|(h & [=] & ?)]; lia).
    exists {| err_loc := [LField "offset"]; err_type := greater_than_equal 0 |}.
    split; [|done].
    pose proof (with_default_fails_with "offset" _ 0%Z kw (JInt n) _ Hk
                  (negative_offset_fails n Hn')) as Hf.
    destruct Hm as [-> | ->]; simpl;
      unfold ch_sbb.TrafficInfoParams_fields, ch_sbb_railway.RailwayLineParams_fields;
      locate_with Hf.
Qed.

Lemma fields_ignore_unknown (m : model) (kw : gmap string json) k v :
  k ∉ (declared m).*1 → fields m (<[k:=v]> kw) = fields m kw.
Proof.
  destruct m; simpl;
    unfold ch_sbb.TrafficInfoParams_fields, ch_sbb_railway.RailwayLineParams_fields,
      ch_public_transit.Public_TransitParams_fields, glob_emissions.EndpointParams_fields,
      glob_personal_data.EndpointParams_fields, ch_evcharge.ChargingStationParams_fields;
    ignore_unknown.
Qed.
End input_model_facts.

(** C2 (as amended). For each of the six input-schema models and every
    mapping, construction is all-or-nothing: it returns a complete
    instance or raises one [ValidationError] with at least one entry. An
    instance that is built keeps the declared bounds. Construction fails,
    with an error located at the field, whenever a declared field is
    given a value of a JSON type its declared type never takes, or an
    integer outside its declared range. A key that is not a declared
    field changes nothing. *)
Theorem input_models_fail_closed (m : input_models.model) (kw : gmap string json) :
  ((∃ x, input_models.new m kw = Return x) ∨
   (∃ errs, errs ≠ [] ∧
            input_models.new m kw = Raise (ValidationError (input_models.title m) errs))) ∧
  (∀ x, input_models.new m kw = Return x → input_models.within m x) ∧
  (∀ k t j,
     (k, t) ∈ input_models.declared m → kw !! k = Some j →
     input_models.misshapen t j = true →
     ∃ errs e rest,
       input_models.new m kw = Raise (ValidationError (input_models.title m) errs) ∧
       e ∈ errs ∧ err_loc e = LField k :: rest) ∧
  (∀ k lo hi n,
     (k, lo, hi) ∈ input_models.ranges m → kw !! k = Some (JInt n) →
     (n < lo ∨ ∃ h, hi = Some h ∧ h < n)%Z →
     ∃ errs e,
       input_models.new m kw = Raise (ValidationError (input_models.title m) errs) ∧
       e ∈ errs ∧ err_loc e = [LField k]) ∧
  (∀ k v, k ∉ (input_models.declared m).*1 →
     input_models.new m (<[k:=v]> kw) = input_models.new m kw).
Proof.
  unfold input_models.new. split; [|split; [|split; [|split]]].
  - simpl. destruct (input_models.fields m kw) as [errs|x] eqn:E.
    + right. exists errs. split; [by eapply fields_report | done].
    + left. by exists x.
  - intros x Hx%construct_return_inv. by eapply fields_within.
  - intros k t j Hin Hk Hw. by eapply construct_fails_at, fields_misshapen.
  - intros k lo hi n Hin Hk Hn.
    destruct (fields_out_of_range m kw k lo hi n Hin Hk Hn) as (e & Hf & Hloc).
    apply (construct_fails_with (input_models.title m)) in Hf as (errs & Hc & He).
    by exists errs, e.
  - intros k v Hk. simpl. by rewrite fields_ignore_unknown.
Qed.

Lemma input_models_fail_closed_witness :
  (∃ errs e rest,
     input_models.new input_models.People {[ "person_titles" := JStr "engineer" ]} =
       Raise (ValidationError "EndpointParams" errs) ∧
     e ∈ errs ∧ err_loc e = LField "person_titles" :: rest) ∧
  (∃ errs e,
     input_models.new input_models.Railway {[ "limit" := JInt 101 ]} =
       Raise (ValidationError "RailwayLineParams" errs) ∧
     e ∈ errs ∧ err_loc e = [LField "limit"]).
Proof.
  split.
  - apply (proj1 (proj2 (proj2 (input_models_fail_closed input_models.People
                                  {[ "person_titles" := JStr "engineer" ]})))
             "person_titles" input_models.an_optional_list_of_str (JStr "engineer")).
    + vm_compute. constructor.
    + vm_compute. reflexivity.
    + reflexivity.
  - apply (proj1 (proj2 (proj2 (proj2 (input_models_fail_closed input_models.Railway
                                         {[ "limit" := JInt 101 ]}))))
             "limit" 1%Z (Some 100%Z) 101%Z).
    + vm_compute. constructor.
    + vm_compute. reflexivity.
    + right. exists 100%Z. split; [reflexivity | lia].
Defined.

(** C2 (as stated) fails in three ways: a mapping with an undeclared key
    builds the all-defaults object; the string ["5"] is accepted for the
    integer field [limit] and converted; and a default is not checked
    against the declared type, so transit parameters built without [to]
    hold [None] in a field declared [str]. *)
Lemma input_models_ignore_coerce_and_trust_defaults :
  input_models.new input_models.Traffic {[ "bogus" := JInt 1 ]} =
    Return TrafficInfoParams_defaults ∧
  input_models.new input_models.Traffic {[ "limit" := JStr "5" ]} =
    Return {| ch_sbb.select := None; ch_sbb.where_ := None; ch_sbb.group_by := None;
              ch_sbb.order_by := None; ch_sbb.limit := 5; ch_sbb.offset := 0;
              ch_sbb.refine_ := None; ch_sbb.exclude := None; ch_sbb.lang := None;
              ch_sbb.timezone := "UTC"; ch_sbb.include_links := false;
              ch_sbb.include_app_metas := false |} ∧
  input_models.new input_models.Transit {[ "origin" := JStr "Bern" ]} =
    Return {| ch_public_transit.origin := "Bern"; ch_public_transit.to := None |}.
Proof. repeat split; vm_compute; reflexivity. Qed.
